(** * Kanban board component: board state, classification, reconciliation, moves

    A shallow embedding of the board logic of the KanbanBoard PCF control.
    The repository holds two revisions of the control:

    - [KanbanBoard/index.ts], the baseline revision (legacy JSON input only);
    - the dataset-aware revision (dataset binding, optimistic moves, the
      [previousStatus] field of the change event).

    Code shared verbatim by the two revisions is embedded once; code that
    differs is embedded once per revision, in the modules [Baseline] and
    [Optimistic].

    Modelling conventions.
    - A JavaScript object used as a dictionary ([Record<string, T>]) is a
      [gmap string T]; a [T[]] is a [list T]; an optional field is an [option].
      Ids looked up in a dictionary are assumed not to be names that every
      JavaScript object inherits (such as [constructor]), whose lookup would
      find the inherited property; [Prototype.moveTask_with] is [moveTask]
      without that assumption.
    - Values have the types the TypeScript interfaces declare, also when they
      come from [JSON.parse].
    - Column and task objects are never shared between two dictionary entries
      in this code (they come from object literals or from [JSON.parse]), so
      in-place mutation of [board.columns[c].taskIds] is an update of the entry
      [c] of the dictionary.
    - [JSON.parse] and [JSON.stringify] are not modelled: an input text is
      represented by the outcome of parsing it, an output text by the value
      that is serialised.
    - DOM rendering ([renderBoard]) reads the state and does not change it; of
      the elements it builds only the column ids, titles, header counts and
      card ids are kept.
    - String methods are modelled on ASCII text. The classifier
      [Classifier.getColumnIdByStatus] takes the case mapping as a parameter;
      the loaders call it with the mapping of ASCII text. *)

From stdpp Require Import gmap strings list fin_maps pretty.
From Stdlib Require Import ZArith Ascii String.

Open Scope string_scope.

(** ** JavaScript primitives used by the component *)

Module JS.

(** Truthiness of a string: only the empty string is falsy. *)
Definition truthy (s : string) : bool := negb (String.eqb s "").

(** [a || b] on strings. *)
Definition or_else (a b : string) : string := if truthy a then a else b.

(** [a || b] where [a] may be [undefined]. *)
Definition opt_or_else (a : option string) (b : string) : string :=
  match a with
  | Some s => or_else s b
  | None => b
  end.

(** [String.prototype.toLowerCase] on ASCII text: the letters A to Z are
    mapped to a to z, every other character is left as it is. *)
Definition lower_char (c : ascii) : ascii :=
  let n := nat_of_ascii c in
  if (65 <=? n)%nat && (n <=? 90)%nat then ascii_of_nat (n + 32) else c.

Fixpoint toLowerCase (s : string) : string :=
  match s with
  | EmptyString => EmptyString
  | String c r => String (lower_char c) (toLowerCase r)
  end.

(** [Array.prototype.indexOf] with strict equality on strings; [-1] when the
    element is absent. *)
Fixpoint indexOf_from (l : list string) (x : string) (i : Z) : Z :=
  match l with
  | [] => (-1)%Z
  | y :: r => if String.eqb y x then i else indexOf_from r x (i + 1)%Z
  end.

Definition indexOf (l : list string) (x : string) : Z := indexOf_from l x 0.

(** [Array.prototype.splice(start, deleteCount)] for [0 <= start]. *)
Definition splice {A} (l : list A) (start : Z) (deleteCount : nat) : list A :=
  take (Z.to_nat start) l ++ drop (Z.to_nat start + deleteCount) l.

(** [Array.prototype.push]. *)
Definition push {A} (l : list A) (x : A) : list A := l ++ [x].

(** [Array.prototype.some]. *)
Definition some {A} (p : A -> bool) (l : list A) : bool := existsb p l.

End JS.

(** ** Data types *)

Record Task := mkTask {
  task_id : string;
  task_title : string;
  task_status : string;
  task_priority : option string;
  task_assignedTo : option string;
  task_dueDate : option string;
  task_description : option string;
  task_recordId : option string;
  task_authorFirstName : option string;
  task_authorLastName : option string;
  task_authorEmail : option string;
  task_authorAvatar : option string;
  task_isOptimistic : option bool
}.

Record ColumnDefinition := mkColumnDefinition {
  def_id : string;
  def_title : string;
  def_statusValues : list string;
  def_color : option string
}.

Record Column := mkColumn {
  col_id : string;
  col_title : string;
  col_taskIds : list string;
  col_statusValues : list string;
  col_color : option string
}.

Record BoardData := mkBoardData {
  tasks : gmap string Task;
  columns : gmap string Column;
  columnOrder : list string
}.

(** Field assignments. *)

Definition set_status (s : string) (t : Task) : Task :=
  mkTask (task_id t) (task_title t) s (task_priority t) (task_assignedTo t)
    (task_dueDate t) (task_description t) (task_recordId t)
    (task_authorFirstName t) (task_authorLastName t) (task_authorEmail t)
    (task_authorAvatar t) (task_isOptimistic t).

Definition set_isOptimistic (b : bool) (t : Task) : Task :=
  mkTask (task_id t) (task_title t) (task_status t) (task_priority t)
    (task_assignedTo t) (task_dueDate t) (task_description t) (task_recordId t)
    (task_authorFirstName t) (task_authorLastName t) (task_authorEmail t)
    (task_authorAvatar t) (Some b).

Definition set_taskIds (l : list string) (c : Column) : Column :=
  mkColumn (col_id c) (col_title c) l (col_statusValues c) (col_color c).

Definition set_tasks (m : gmap string Task) (b : BoardData) : BoardData :=
  mkBoardData m (columns b) (columnOrder b).

Definition set_columns (m : gmap string Column) (b : BoardData) : BoardData :=
  mkBoardData (tasks b) m (columnOrder b).

(** [isOptimistic] read in a boolean context: [undefined] is falsy. *)
Definition flagged_optimistic (t : Task) : bool :=
  match task_isOptimistic t with
  | Some b => b
  | None => false
  end.

(** ** Column definitions and classification (shared by both revisions) *)

Definition getDefaultColumnDefinitions : list ColumnDefinition :=
  [ mkColumnDefinition "todo" "To Do" ["Todo"; "New"; "Open"] None;
    mkColumnDefinition "inprogress" "In Progress"
      ["In Progress"; "Active"; "Working"] None;
    mkColumnDefinition "review" "Review" ["Review"; "Testing"; "Validation"] None;
    mkColumnDefinition "done" "Done" ["Done"; "Completed"; "Closed"] None ].

(** [String.prototype.toLowerCase] follows the Unicode case mapping, which is
    not tabulated here: [getColumnIdByStatus] is embedded over the mapping it
    calls, the parameter [toLowerCase]. *)
Module Classifier.

Section CaseMapping.

Variable toLowerCase : string -> string.

(** The test of the [for] loop of [getColumnIdByStatus]. *)
Definition status_matches (status : string) (column : ColumnDefinition) : bool :=
  JS.some (fun val => String.eqb (toLowerCase val) (toLowerCase status))
    (def_statusValues column).

(** [getColumnIdByStatus]: [None] is the [null] result. The loop returns the id
    of the first matching definition; after the loop,
    [this._columnDefinitions[0]?.id || null]. *)
Fixpoint getColumnIdByStatus_loop (defs : list ColumnDefinition) (status : string)
  : option string :=
  match defs with
  | [] => None
  | column :: rest =>
      if status_matches status column then Some (def_id column)
      else getColumnIdByStatus_loop rest status
  end.

Definition getColumnIdByStatus (defs : list ColumnDefinition) (status : string)
  : option string :=
  match getColumnIdByStatus_loop defs status with
  | Some i => Some i
  | None =>
      match defs with
      | [] => None
      | first :: _ => if JS.truthy (def_id first) then Some (def_id first) else None
      end
  end.

End CaseMapping.

End Classifier.

(** The classifier as the loaders below call it: with the case mapping of
    ASCII text, [JS.toLowerCase]. *)
Definition getColumnIdByStatus (defs : list ColumnDefinition) (status : string)
  : option string :=
  Classifier.getColumnIdByStatus JS.toLowerCase defs status.

(** [getEmptyBoardData]: one column per definition, in definition order; a
    later definition with the same id overwrites the dictionary entry and the
    id is pushed to [columnOrder] again. *)
Definition column_of_definition (colDef : ColumnDefinition) : Column :=
  mkColumn (def_id colDef) (def_title colDef) [] (def_statusValues colDef)
    (def_color colDef).

Definition empty_columns (defs : list ColumnDefinition) : gmap string Column :=
  fold_left (fun cols colDef => <[def_id colDef := column_of_definition colDef]> cols)
    defs ∅.

Definition getEmptyBoardData (defs : list ColumnDefinition) : BoardData :=
  mkBoardData ∅ (empty_columns defs) (map def_id defs).

Example classify_done :
  getColumnIdByStatus getDefaultColumnDefinitions "DONE" = Some "done".
Proof. reflexivity. Qed.

Example classify_unknown :
  getColumnIdByStatus getDefaultColumnDefinitions "Blocked" = Some "todo".
Proof. reflexivity. Qed.

(** ** Host inputs *)

(** A dataset record, seen through [getFormattedValue]: an alias the record
    cannot format makes the call throw, which [getValue] catches. *)
Abbreviation EntityRecord := (gmap string string).

Record DataSet := mkDataSet {
  ds_loading : bool;
  ds_sortedRecordIds : option (list string);
  ds_records : gmap string EntityRecord
}.

(** The own properties of a parsed JSON object that the board reads. *)
Record Bundle := mkBundle {
  bundle_tasks : option (gmap string Task);
  bundle_columns : option (gmap string Column);
  bundle_columnOrder : option (list string)
}.

(** The outcome of [JSON.parse(tasksData.raw)]. *)
Inductive Parsed :=
| SyntaxError                      (* the text is not JSON: [JSON.parse] throws *)
| ParsedNull                       (* the text [null] *)
| ParsedScalar                     (* a number, a boolean or a string *)
| ParsedArray (l : list Task)      (* a flat list of tasks *)
| ParsedObject (o : Bundle).       (* any other object *)

(** [context.parameters]: [tasksData_raw] is [None] when the property is
    missing, [null] or the empty text. *)
Record Context := mkContext {
  taskDataSet : option DataSet;
  tasksData_raw : option Parsed
}.

(** ** Component state *)

Record State := mkState {
  _boardData : BoardData;
  _draggedTaskId : option string;
  _sourceColumnId : option string;
  _lastUpdatedTask : option string;
  _pendingUpdate : bool;
  _columnDefinitions : list ColumnDefinition;
  (* number of calls of the host callback [_notifyOutputChanged] so far *)
  notifications : nat
}.

Definition set_boardData (b : BoardData) (st : State) : State :=
  mkState b (_draggedTaskId st) (_sourceColumnId st) (_lastUpdatedTask st)
    (_pendingUpdate st) (_columnDefinitions st) (notifications st).

Definition set_drag (taskId sourceCol : option string) (st : State) : State :=
  mkState (_boardData st) taskId sourceCol (_lastUpdatedTask st)
    (_pendingUpdate st) (_columnDefinitions st) (notifications st).

(** The constructor runs with [_columnDefinitions = []]. *)
Definition constructor : State :=
  mkState (getEmptyBoardData []) None None None false [] 0.

Definition updateColumnDefinitions (st : State) : State :=
  mkState (_boardData st) (_draggedTaskId st) (_sourceColumnId st)
    (_lastUpdatedTask st) (_pendingUpdate st) getDefaultColumnDefinitions
    (notifications st).

(** How a method ends: it returns, or an exception escapes it. Both carry the
    component state at that point. *)
Inductive Outcome :=
| Returned (st : State)
| Threw (st : State).

Definition state_of (o : Outcome) : State :=
  match o with
  | Returned st => st
  | Threw st => st
  end.

(** The value a loop step leaves behind, whether it went on or threw. *)
Definition either {A} (r : A + A) : A :=
  match r with
  | inl a => a
  | inr a => a
  end.

(** [{ ...emptyBoard, ...parsedData }] *)
Definition spread (emptyBoard : BoardData) (o : Bundle) : BoardData :=
  mkBoardData
    (default (tasks emptyBoard) (bundle_tasks o))
    (default (columns emptyBoard) (bundle_columns o))
    (default (columnOrder emptyBoard) (bundle_columnOrder o)).

(** [board.columns[cid].taskIds.push(tid)] for an existing column [cid]. *)
Definition push_taskId (cid tid : string) (cols : gmap string Column)
  : gmap string Column :=
  alter (fun c => set_taskIds (JS.push (col_taskIds c) tid) c) cid cols.

(** [columns[cid].taskIds = ids] in the sample builders; [None] is the
    [TypeError] of assigning through a missing column. *)
Definition assign_taskIds (cid : string) (ids : list string)
  (cols : gmap string Column) : option (gmap string Column) :=
  match cols !! cid with
  | Some c => Some (<[cid := set_taskIds ids c]> cols)
  | None => None
  end.

Definition assign_samples (cols : gmap string Column) : option (gmap string Column) :=
  cols1 ← assign_taskIds "todo" ["task-1"; "task-5"] cols;
  cols2 ← assign_taskIds "inprogress" ["task-2"; "task-6"] cols1;
  cols3 ← assign_taskIds "review" ["task-3"] cols2;
  assign_taskIds "done" ["task-4"] cols3.

(** ** Moving a task (shared but for the optimistic flag) *)

Definition new_status (targetColumn : Column) : string :=
  JS.opt_or_else (head (col_statusValues targetColumn)) (col_title targetColumn).

Definition remove_from_source (sourceColumn : Column) (taskId : string) : Column :=
  let taskIndex := JS.indexOf (col_taskIds sourceColumn) taskId in
  if (taskIndex >? -1)%Z
  then set_taskIds (JS.splice (col_taskIds sourceColumn) taskIndex 1) sourceColumn
  else sourceColumn.

(** [moveTask], for ids that are no inherited property names (see the
    header); [mark] is what the revision does to the flag of the task. *)
Definition moveTask_with (mark : Task -> Task)
  (taskId sourceColumnId targetColumnId : string) (st : State) : State :=
  if String.eqb sourceColumnId targetColumnId then st else
  let board := _boardData st in
  match columns board !! sourceColumnId, columns board !! targetColumnId,
        tasks board !! taskId with
  | Some sourceColumn, Some targetColumn, Some task =>
      let cols1 := <[sourceColumnId := remove_from_source sourceColumn taskId]>
                     (columns board) in
      let cols2 := <[targetColumnId :=
                       set_taskIds (JS.push (col_taskIds targetColumn) taskId)
                         targetColumn]> cols1 in
      let task' := mark (set_status (new_status targetColumn) task) in
      mkState (mkBoardData (<[taskId := task']> (tasks board)) cols2
                 (columnOrder board))
        (_draggedTaskId st) (_sourceColumnId st) (Some taskId) true
        (_columnDefinitions st) (S (notifications st))
  | _, _, _ => st
  end.

(** ** Drag session (the handlers registered on cards and columns) *)

(** [dragstart]: the two [getAttribute] results are stored as they are. *)
Definition dragstart (taskId columnId : option string) (st : State) : State :=
  set_drag taskId columnId st.

Definition dragend (st : State) : State := set_drag None None st.

Definition truthy_attr (a : option string) : option string :=
  match a with
  | Some s => if JS.truthy s then Some s else None
  | None => None
  end.

(** ** Change event *)

Record MoveEvent := mkMoveEvent {
  ev_taskId : string;
  ev_newStatus : string;
  (* [None]: the serialised object has no [previousStatus] property *)
  ev_previousStatus : option string;
  ev_title : string;
  ev_timestamp : string
}.

(** [lastMovedTask = None] is the empty text. *)
Record Outputs := mkOutputs {
  updatedTasksData : BoardData;
  lastMovedTask : option MoveEvent
}.

(** [this._lastUpdatedTask ? this._boardData.tasks[this._lastUpdatedTask] : null] *)
Definition last_moved (st : State) : option Task :=
  match truthy_attr (_lastUpdatedTask st) with
  | Some i => tasks (_boardData st) !! i
  | None => None
  end.

(** ** The dataset-aware revision *)

Module Optimistic.

Definition sampleTasks : gmap string Task :=
  list_to_map
    [ ("task-1",
       mkTask "task-1" "Implement new API endpoints" "Todo" (Some "high")
         (Some "john.smith@company.com") (Some "Today")
         (Some "Design and implement RESTful API endpoints for the new user management module. Ensure proper authentication, validation, and error handling are in place. Documentation must be updated with Swagger examples and response schemas.")
         None (Some "John") (Some "Smith") (Some "john.smith@company.com")
         (Some "https://images.unsplash.com/photo-1472099645785-5658abf4ff4e?w=100&h=100&fit=crop&crop=face")
         None);
      ("task-2",
       mkTask "task-2" "Fix user interface bug" "In Progress" (Some "medium")
         (Some "mary.johnson@company.com") (Some "Tomorrow")
         (Some "Investigate the alignment issue on the dashboard where the navigation bar overlaps with the content area on mobile devices. Fix the CSS media queries and verify across different screen sizes to ensure a responsive layout.")
         None (Some "Mary") (Some "Johnson") (Some "mary.johnson@company.com")
         None None);
      ("task-3",
       mkTask "task-3" "Update documentation" "Review" (Some "low")
         (Some "sarah.wilson@company.com") (Some "Next week")
         (Some "Review and update the project README and internal developer guides. Include instructions for setting up the local environment and running the new test suite. Ensure all deprecated API references are removed.")
         None (Some "Sarah") (Some "Wilson") (Some "sarah.wilson@company.com")
         (Some "https://images.unsplash.com/photo-1494790108755-2616b612c3c5?w=100&h=100&fit=crop&crop=face")
         None);
      ("task-4",
       mkTask "task-4" "Test new features" "Done" (Some "high")
         (Some "mike.davis@company.com") (Some "Yesterday")
         (Some "Execute the regression test suite for the payment gateway integration. Log any defects found in the issue tracker and verify fixes for previously reported critical bugs. Generate a final test report for the release.")
         None (Some "Mike") (Some "Davis") (Some "mike.davis@company.com")
         None None);
      ("task-5",
       mkTask "task-5" "Prepare client presentation" "Todo" (Some "medium")
         (Some "anna.brown@company.com") (Some "Friday")
         (Some "Create a slide deck for the Q3 progress review with the client. Highlight key milestones achieved, budget utilization, and upcoming risks. Practice the demo flow to ensure a smooth presentation during the meeting.")
         None (Some "Anna") (Some "Brown") (Some "anna.brown@company.com")
         (Some "https://images.unsplash.com/photo-1438761681033-6461ffad8d80?w=100&h=100&fit=crop&crop=face")
         None);
      ("task-6",
       mkTask "task-6" "Code review and merge requests" "In Progress" (Some "low")
         (Some "david.taylor@company.com") (Some "Monday") None
         None (Some "David") (Some "Taylor") (Some "david.taylor@company.com")
         None None) ].

(** [None]: the [TypeError] of [columns['todo'].taskIds = ...] when the
    definitions lack one of the four default ids. *)
Definition getEmptyBoardDataWithSamples (defs : list ColumnDefinition)
  : option BoardData :=
  cols ← assign_samples (empty_columns defs);
  Some (mkBoardData sampleTasks cols (map def_id defs)).

Definition load_samples (st : State) : Outcome :=
  match getEmptyBoardDataWithSamples (_columnDefinitions st) with
  | Some b => Returned (set_boardData b st)
  | None => Threw st
  end.

(** *** [loadFromDataset] *)

Definition getValue (record : option EntityRecord) (alias : string) : string :=
  match record with
  | Some r => default "" (r !! alias)
  | None => ""        (* [record] is undefined: the call throws, caught *)
  end.

(** The harness sentinel: such a record is skipped. *)
Definition is_harness_mock (record : option EntityRecord) : bool :=
  String.eqb (getValue record "title") "val"
  && String.eqb (getValue record "status") "val".

Definition task_of_record (recordId : string) (record : option EntityRecord)
  : Task :=
  mkTask (JS.or_else (getValue record "id") recordId)
    (JS.or_else (getValue record "title") "Untitled")
    (JS.or_else (getValue record "status") "Unknown")
    (Some (getValue record "priority"))
    (Some (getValue record "assignedto"))
    (Some (getValue record "duedate"))
    (Some (getValue record "description"))
    (Some recordId)
    (Some (getValue record "authorFirstNameField"))
    None None None None.

(** The optimistic check: [previous] is [this._boardData.tasks[task.id]],
    read from the board as it was before the load. *)
Definition reconcile (previous : option Task) (incomingStatus : string)
  (task : Task) : Task :=
  match previous with
  | Some prev =>
      if flagged_optimistic prev then
        let currentOptimisticStatus := task_status prev in
        if negb (String.eqb currentOptimisticStatus incomingStatus)
        then set_isOptimistic true (set_status currentOptimisticStatus task)
        else set_isOptimistic false task
      else task
  | None => task
  end.

(** The state of the loop: the local [tasks] object and the columns of the
    board, which the loop mutates in place. *)
Record Loading := mkLoading {
  ld_tasks : gmap string Task;
  ld_columns : gmap string Column
}.

(** Column assignment of one task; [inr] is the [TypeError] raised when
    [columnOrder[0]] names no column. *)
Definition assign_column (defs : list ColumnDefinition) (columnOrder : list string)
  (task : Task) (cols : gmap string Column)
  : gmap string Column + gmap string Column :=
  let fallback :=
    match truthy_attr (head columnOrder) with
    | Some firstColId =>
        match cols !! firstColId with
        | Some _ => inl (push_taskId firstColId (task_id task) cols)
        | None => inr cols
        end
    | None => inl cols
    end in
  match truthy_attr (getColumnIdByStatus defs (task_status task)) with
  | Some columnId =>
      match cols !! columnId with
      | Some _ => inl (push_taskId columnId (task_id task) cols)
      | None => fallback
      end
  | None => fallback
  end.

(** The body of [sortedRecordIds.forEach]. *)
Definition load_record (defs : list ColumnDefinition) (board : BoardData)
  (records : gmap string EntityRecord) (recordId : string) (acc : Loading)
  : Loading + Loading :=
  let record := records !! recordId in
  if is_harness_mock record then inl acc else
  let incomingStatus := JS.or_else (getValue record "status") "Unknown" in
  let task0 := task_of_record recordId record in
  let task := reconcile (tasks board !! task_id task0) incomingStatus task0 in
  let tasks' := <[task_id task := task]> (ld_tasks acc) in
  match assign_column defs (columnOrder board) task (ld_columns acc) with
  | inl cols => inl (mkLoading tasks' cols)
  | inr cols => inr (mkLoading tasks' cols)
  end.

Fixpoint load_records (defs : list ColumnDefinition) (board : BoardData)
  (records : gmap string EntityRecord) (ids : list string) (acc : Loading)
  : Loading + Loading :=
  match ids with
  | [] => inl acc
  | recordId :: rest =>
      match load_record defs board records recordId acc with
      | inl acc' => load_records defs board records rest acc'
      | inr acc' => inr acc'
      end
  end.

Definition clear_taskIds (cols : gmap string Column) : gmap string Column :=
  set_taskIds [] <$> cols.

Definition loadFromDataset (ctx : Context) (st : State) : Outcome :=
  let board := _boardData st in
  let cleared := set_columns (clear_taskIds (columns board)) board in
  match taskDataSet ctx with
  | Some dataSet =>
      match ds_sortedRecordIds dataSet with
      | Some ids =>
          match load_records (_columnDefinitions st) board (ds_records dataSet)
                  ids (mkLoading ∅ (columns cleared)) with
          | inl acc =>
              Returned (set_boardData
                (mkBoardData (ld_tasks acc) (ld_columns acc) (columnOrder board)) st)
          | inr acc =>
              (* the exception escapes before [this._boardData.tasks = tasks] *)
              Threw (set_boardData
                (mkBoardData (tasks board) (ld_columns acc) (columnOrder board)) st)
          end
      | None => Returned (set_boardData cleared st)
      end
  | None => Returned (set_boardData cleared st)
  end.

(** *** [loadFromLegacyData] *)

(** The body of [parsedData.forEach] on a flat task list; [inr] is the
    [TypeError] of pushing through a missing column. *)
Definition load_flat_task (defs : list ColumnDefinition) (task : Task)
  (board : BoardData) : BoardData + BoardData :=
  let board1 := set_tasks (<[task_id task := task]> (tasks board)) board in
  match truthy_attr (getColumnIdByStatus defs (task_status task)) with
  | Some colId =>
      match columns board1 !! colId with
      | Some _ =>
          inl (set_columns (push_taskId colId (task_id task) (columns board1)) board1)
      | None => inr board1
      end
  | None => inl board1
  end.

Fixpoint load_flat (defs : list ColumnDefinition) (l : list Task)
  (board : BoardData) : BoardData + BoardData :=
  match l with
  | [] => inl board
  | task :: rest =>
      match load_flat_task defs task board with
      | inl board' => load_flat defs rest board'
      | inr board' => inr board'
      end
  end.

(** Every exception is caught inside the method ("Don't overwrite if we
    failed"): the board is whatever it was when the exception was raised. *)
Definition loadFromLegacyData (parsed : Parsed) (st : State) : State :=
  let emptyBoard := getEmptyBoardData (_columnDefinitions st) in
  match parsed with
  | SyntaxError => st
  | ParsedNull => st            (* [parsedData.columns] throws *)
  | ParsedScalar => set_boardData emptyBoard st
  | ParsedArray l =>
      match load_flat (_columnDefinitions st) l emptyBoard with
      | inl board => set_boardData board st
      | inr board => set_boardData board st
      end
  | ParsedObject o => set_boardData (spread emptyBoard o) st
  end.

(** *** [loadData], [init], [updateView] *)

(** [dataSet && dataSet.loading === false && dataSet.sortedRecordIds
     && dataSet.sortedRecordIds.length > 0] *)
Definition dataset_available (ctx : Context) : bool :=
  match taskDataSet ctx with
  | Some dataSet =>
      negb (ds_loading dataSet)
      && match ds_sortedRecordIds dataSet with
         | Some ids => (0 <? List.length ids)%nat
         | None => false
         end
  | None => false
  end.

Definition loadData (ctx : Context) (st : State) : Outcome :=
  if dataset_available ctx then
    match loadFromDataset ctx st with
    | Returned st1 =>
        if (size (tasks (_boardData st1)) =? 0)%nat
        then load_samples st1
        else Returned st1
    | Threw st1 => Threw st1
    end
  else
    match tasksData_raw ctx with
    | Some parsed => Returned (loadFromLegacyData parsed st)
    | None => load_samples st
    end.

Definition init (ctx : Context) (st : State) : Outcome :=
  loadData ctx (updateColumnDefinitions st).

Definition updateView (ctx : Context) (st : State) : Outcome :=
  loadData ctx (updateColumnDefinitions st).

(** *** [moveTask], the [drop] handler, [getOutputs] *)

Definition moveTask : string -> string -> string -> State -> State :=
  moveTask_with (set_isOptimistic true).

Definition drop (targetAttr : option string) (st : State) : State :=
  match truthy_attr (_draggedTaskId st), truthy_attr (_sourceColumnId st),
        truthy_attr targetAttr with
  | Some taskId, Some sourceCol, Some targetColumnId =>
      if String.eqb sourceCol targetColumnId then st
      else moveTask taskId sourceCol targetColumnId st
  | _, _, _ => st
  end.

(** [now] is the reading of the clock, [new Date().toISOString()]. [None] is
    the [TypeError] of reading [title] through a missing column. *)
Definition getOutputs (now : string) (st : State) : option Outputs :=
  match last_moved st with
  | Some lastMovedTask =>
      previousStatus ←
        match truthy_attr (_sourceColumnId st) with
        | Some c => col_title <$> (columns (_boardData st) !! c)
        | None => Some ""
        end;
      Some (mkOutputs (_boardData st)
              (Some (mkMoveEvent
                 (JS.opt_or_else (task_recordId lastMovedTask) (task_id lastMovedTask))
                 (task_status lastMovedTask)
                 (Some previousStatus)
                 (task_title lastMovedTask)
                 now)))
  | None => Some (mkOutputs (_boardData st) None)
  end.

End Optimistic.

(** ** The baseline revision, [KanbanBoard/index.ts] *)

Module Baseline.

Definition sampleTasks : gmap string Task :=
  list_to_map
    [ ("task-1",
       mkTask "task-1" "Implement new API endpoints" "Todo" (Some "high")
         (Some "john.smith@company.com") (Some "Today") None
         None (Some "John") (Some "Smith") (Some "john.smith@company.com")
         (Some "https://images.unsplash.com/photo-1472099645785-5658abf4ff4e?w=100&h=100&fit=crop&crop=face")
         None);
      ("task-2",
       mkTask "task-2" "Fix user interface bug" "In Progress" (Some "medium")
         (Some "mary.johnson@company.com") (Some "Tomorrow") None
         None (Some "Mary") (Some "Johnson") (Some "mary.johnson@company.com")
         None None);
      ("task-3",
       mkTask "task-3" "Update documentation" "Review" (Some "low")
         (Some "sarah.wilson@company.com") (Some "Next week") None
         None (Some "Sarah") (Some "Wilson") (Some "sarah.wilson@company.com")
         (Some "https://images.unsplash.com/photo-1494790108755-2616b612c3c5?w=100&h=100&fit=crop&crop=face")
         None);
      ("task-4",
       mkTask "task-4" "Test new features" "Done" (Some "high")
         (Some "mike.davis@company.com") (Some "Yesterday") None
         None (Some "Mike") (Some "Davis") (Some "mike.davis@company.com")
         None None);
      ("task-5",
       mkTask "task-5" "Prepare client presentation" "Todo" (Some "medium")
         (Some "anna.brown@company.com") (Some "Friday") None
         None (Some "Anna") (Some "Brown") (Some "anna.brown@company.com")
         (Some "https://images.unsplash.com/photo-1438761681033-6461ffad8d80?w=100&h=100&fit=crop&crop=face")
         None);
      ("task-6",
       mkTask "task-6" "Code review and merge requests" "In Progress" (Some "low")
         (Some "david.taylor@company.com") (Some "Monday") None
         None (Some "David") (Some "Taylor") (Some "david.taylor@company.com")
         None None) ].

Definition getEmptyBoardDataWithSamples (defs : list ColumnDefinition)
  : option BoardData :=
  cols ← assign_samples (empty_columns defs);
  Some (mkBoardData sampleTasks cols (map def_id defs)).

(** [{ ...this.getEmptyBoardData(), ...parsedData }]: spreading [null] or a
    scalar adds nothing, spreading an array adds index keys only. *)
Definition loadFromLegacyData (parsed : Parsed) (st : State) : Outcome :=
  let emptyBoard := getEmptyBoardData (_columnDefinitions st) in
  match parsed with
  | SyntaxError =>
      (* the [catch] block; an exception raised inside it escapes *)
      match getEmptyBoardDataWithSamples (_columnDefinitions st) with
      | Some b => Returned (set_boardData b st)
      | None => Threw st
      end
  | ParsedNull | ParsedScalar | ParsedArray _ =>
      Returned (set_boardData emptyBoard st)
  | ParsedObject o => Returned (set_boardData (spread emptyBoard o) st)
  end.

Definition loadData (ctx : Context) (st : State) : Outcome :=
  match tasksData_raw ctx with
  | Some parsed => loadFromLegacyData parsed st
  | None => Returned (set_boardData (getEmptyBoardData (_columnDefinitions st)) st)
  end.

Definition init (ctx : Context) (st : State) : Outcome :=
  loadData ctx (updateColumnDefinitions st).

Definition updateView (ctx : Context) (st : State) : Outcome :=
  match tasksData_raw ctx with
  | Some _ => loadData ctx (updateColumnDefinitions st)
  | None => Returned (updateColumnDefinitions st)
  end.

Definition moveTask : string -> string -> string -> State -> State :=
  moveTask_with (fun task => task).

Definition drop (targetAttr : option string) (st : State) : State :=
  match truthy_attr (_draggedTaskId st), truthy_attr (_sourceColumnId st),
        truthy_attr targetAttr with
  | Some taskId, Some sourceCol, Some targetColumnId =>
      moveTask taskId sourceCol targetColumnId st
  | _, _, _ => st
  end.

Definition getOutputs (now : string) (st : State) : Outputs :=
  match last_moved st with
  | Some lastMovedTask =>
      mkOutputs (_boardData st)
        (Some (mkMoveEvent
           (JS.opt_or_else (task_recordId lastMovedTask) (task_id lastMovedTask))
           (task_status lastMovedTask)
           None
           (task_title lastMovedTask)
           now))
  | None => mkOutputs (_boardData st) None
  end.

End Baseline.

(** ** [moveTask] with the inherited property names

    [this._boardData.columns[id]] and [this._boardData.tasks[id]] are property
    lookups on plain objects: besides the keys of the dictionary they find the
    properties every object inherits from [Object.prototype]. The value found
    under such a name is a built-in function (for [__proto__], the prototype
    object): it passes the truthiness guard of [moveTask] and has no
    [taskIds]. [moveTask_with] above is this method on ids that are not such
    names. *)

Module Prototype.

Definition inherited_names : list string :=
  [ "constructor"; "hasOwnProperty"; "isPrototypeOf"; "propertyIsEnumerable";
    "toLocaleString"; "toString"; "valueOf"; "__proto__";
    "__defineGetter__"; "__defineSetter__"; "__lookupGetter__";
    "__lookupSetter__" ].

(** What [o[key]] finds. *)
Inductive Property (T : Type) : Type :=
| Own (v : T)
| BuiltIn
| Undefined.

Arguments Own {T} v.
Arguments BuiltIn {T}.
Arguments Undefined {T}.

Definition get {T} (o : gmap string T) (key : string) : Property T :=
  match o !! key with
  | Some v => Own v
  | None => if bool_decide (key ∈ inherited_names) then BuiltIn else Undefined
  end.

(** How a call of [moveTask] ends. In [OnBuiltIn] the task resolved to a
    built-in object and the call goes on to assign [status] to that object,
    which is shared by every dictionary; the state is the component state at
    that point, and what follows is outside this model. *)
Inductive MoveOutcome :=
| MoveReturned (st : State)
| MoveThrew (st : State)
| OnBuiltIn (st : State).

Definition state_of (o : MoveOutcome) : State :=
  match o with
  | MoveReturned st => st
  | MoveThrew st => st
  | OnBuiltIn st => st
  end.

Definition with_columns (cols : gmap string Column) (st : State) : State :=
  set_boardData
    (mkBoardData (tasks (_boardData st)) cols (columnOrder (_boardData st))) st.

Definition moveTask_with (mark : Task -> Task)
  (taskId sourceColumnId targetColumnId : string) (st : State) : MoveOutcome :=
  if String.eqb sourceColumnId targetColumnId then MoveReturned st else
  let board := _boardData st in
  match get (columns board) sourceColumnId with
  | Undefined => MoveReturned st
  | BuiltIn =>
      match get (columns board) targetColumnId, get (tasks board) taskId with
      | Undefined, _ => MoveReturned st
      | _, Undefined => MoveReturned st
      (* [sourceColumn.taskIds] is [undefined]: [indexOf] throws *)
      | _, _ => MoveThrew st
      end
  | Own sourceColumn =>
      let cols1 := <[sourceColumnId := remove_from_source sourceColumn taskId]>
                     (columns board) in
      match get (columns board) targetColumnId, get (tasks board) taskId with
      | Undefined, _ => MoveReturned st
      | _, Undefined => MoveReturned st
      (* [targetColumn.taskIds] is [undefined]: [push] throws, after the
         splice *)
      | BuiltIn, _ => MoveThrew (with_columns cols1 st)
      | Own targetColumn, BuiltIn =>
          OnBuiltIn
            (with_columns
               (<[targetColumnId :=
                    set_taskIds (JS.push (col_taskIds targetColumn) taskId)
                      targetColumn]> cols1) st)
      | Own targetColumn, Own task =>
          let cols2 := <[targetColumnId :=
                           set_taskIds (JS.push (col_taskIds targetColumn) taskId)
                             targetColumn]> cols1 in
          let task' := mark (set_status (new_status targetColumn) task) in
          MoveReturned
            (mkState (mkBoardData (<[taskId := task']> (tasks board)) cols2
                        (columnOrder board))
               (_draggedTaskId st) (_sourceColumnId st) (Some taskId) true
               (_columnDefinitions st) (S (notifications st)))
      end
  end.



End Prototype.

(** * Rendering, quick column setup and authors *)

(** ** What [renderBoard] shows

    The DOM built by [renderBoard], [createColumn], [createColumnHeader],
    [createTasksContainer] and [createTaskCard], reduced to what the drag
    handlers and the user read from it: per rendered column its
    [data-column-id], its title, the count in its header and the
    [data-task-id] of its cards. Both revisions build it the same way. *)

Record ColumnView := mkColumnView {
  view_column_id : string;
  view_title : string;
  view_count : nat;
  view_cards : list string
}.

(** [column.taskIds.forEach]: a card per id that has a task; the card carries
    [task.id]. *)
Definition createTasksContainer (board : BoardData) (column : Column) : list string :=
  omap (fun taskId => task_id <$> tasks board !! taskId) (col_taskIds column).

Definition createColumn (board : BoardData) (column : Column) : ColumnView :=
  mkColumnView (col_id column) (col_title column) (List.length (col_taskIds column))
    (createTasksContainer board column).

(** [columnOrder.forEach]: a column element per id that has a column. *)
Definition renderBoard (board : BoardData) : list ColumnView :=
  omap (fun columnId => createColumn board <$> columns board !! columnId)
    (columnOrder board).

(** ** Quick column setup *)

(** The string methods [parseQuickColumnSetup] calls. *)
Module JSText.

Definition startsWith (c : ascii) (s : string) : bool :=
  match s with
  | String a _ => Ascii.eqb a c
  | EmptyString => false
  end.

Fixpoint endsWith (c : ascii) (s : string) : bool :=
  match s with
  | EmptyString => false
  | String a EmptyString => Ascii.eqb a c
  | String _ r => endsWith c r
  end.

Fixpoint includes (c : ascii) (s : string) : bool :=
  match s with
  | EmptyString => false
  | String a r => Ascii.eqb a c || includes c r
  end.

(** [s.slice(1, -1)] *)
Definition slice_1_m1 (s : string) : string :=
  String.substring 1 (String.length s - 2) s.

(** [s.split(sep)] for a one-character separator: one piece more than there
    are separators. *)
Fixpoint split (sep : ascii) (s : string) : list string :=
  match s with
  | EmptyString => [EmptyString]
  | String a r =>
      if Ascii.eqb a sep then EmptyString :: split sep r
      else match split sep r with
           | piece :: rest => String a piece :: rest
           | [] => [String a EmptyString]
           end
  end.

(** White space, among the ASCII characters: tab, line feed, vertical tab,
    form feed, carriage return, space. *)
Definition is_white (c : ascii) : bool :=
  let n := nat_of_ascii c in
  ((9 <=? n)%nat && (n <=? 13)%nat) || (n =? 32)%nat.

Fixpoint trimStart (s : string) : string :=
  match s with
  | EmptyString => EmptyString
  | String a r => if is_white a then trimStart r else s
  end.

Fixpoint trimEnd (s : string) : string :=
  match s with
  | EmptyString => EmptyString
  | String a r =>
      match trimEnd r with
      | EmptyString => if is_white a then EmptyString else String a EmptyString
      | r' => String a r'
      end
  end.

(** [s.trim()], on ASCII white space. *)
Definition trim (s : string) : string := trimEnd (trimStart s).

(** Text of ASCII characters only: there the methods of this module are the
    JavaScript ones. *)
Fixpoint is_ascii (s : string) : bool :=
  match s with
  | EmptyString => true
  | String a r => (nat_of_ascii a <? 128)%nat && is_ascii r
  end.

End JSText.

Definition quick_statuses (setup : string) : list string :=
  if JSText.startsWith "[" setup && JSText.endsWith "]" setup
  then map JSText.trim (JSText.split "," (JSText.slice_1_m1 setup))
  else if JSText.includes "|" setup
  then map JSText.trim (JSText.split "|" setup)
  else map JSText.trim (JSText.split "," setup).

(** [parseQuickColumnSetup]; the index of [map] counts the statuses that passed
    the filter. *)
Definition parseQuickColumnSetup (setup : string) : list ColumnDefinition :=
  imap (fun index status =>
          mkColumnDefinition ("col_" +:+ pretty index) status [status] None)
    (filter (fun s => (0 <? String.length s)%nat = true) (quick_statuses setup)).

Example quick_setup_brackets :
  map def_title (parseQuickColumnSetup "[Open, In progress ,,Closed]")
  = ["Open"; "In progress"; "Closed"].
Proof. vm_compute. reflexivity. Qed.

Example quick_setup_pipes :
  map def_id (parseQuickColumnSetup "New|Active| |Done")
  = ["col_0"; "col_1"; "col_2"].
Proof. vm_compute. reflexivity. Qed.

(** ** Author names, initials and avatar colours (same in both revisions) *)

Module Author.

(** [_authorConfig], the two fields [formatAuthorName] reads. *)
Record AuthorConfig := mkAuthorConfig {
  displayFormat : string;
  customFormat : string
}.

(** [String.prototype.toUpperCase], on the ASCII letters. *)
Definition upper_char (c : ascii) : ascii :=
  let n := nat_of_ascii c in
  if (97 <=? n)%nat && (n <=? 122)%nat then ascii_of_nat (n - 32) else c.

Fixpoint toUpperCase (s : string) : string :=
  match s with
  | EmptyString => EmptyString
  | String c r => String (upper_char c) (toUpperCase r)
  end.

(** [s.charAt(0)] and [s.substring(0, 2)]. *)
Definition charAt0 (s : string) : string := String.substring 0 1 s.
Definition substring02 (s : string) : string := String.substring 0 2 s.

(** [s.split(sep)[0]]: a split always has a first piece. *)
Definition first_piece (sep : ascii) (s : string) : string :=
  hd "" (JSText.split sep s).

Definition firstName (task : Task) : string :=
  JS.opt_or_else (task_authorFirstName task) "".
Definition lastName (task : Task) : string :=
  JS.opt_or_else (task_authorLastName task) "".
(** [task.authorEmail || task.assignedTo || ''] *)
Definition email (task : Task) : string :=
  JS.opt_or_else (task_authorEmail task) (JS.opt_or_else (task_assignedTo task) "").

Definition generateInitials (task : Task) : string :=
  if JS.truthy (firstName task) && JS.truthy (lastName task)
  then toUpperCase (charAt0 (firstName task) +:+ charAt0 (lastName task))
  else if JS.truthy (firstName task) then toUpperCase (substring02 (firstName task))
  else if JS.truthy (lastName task) then toUpperCase (substring02 (lastName task))
  else if JS.truthy (email task) then
    let emailParts := first_piece "@" (email task) in
    if JSText.includes "." emailParts then
      let nameParts := JSText.split "." emailParts in
      toUpperCase
        (charAt0 (hd "" nameParts)
         +:+ match nameParts !! 1%nat with
             | Some part => JS.or_else (charAt0 part) ""
             | None => ""
             end)
    else toUpperCase (substring02 emailParts)
  else "??".

Definition applyCustomFormat (cfg : AuthorConfig) (task : Task) : string :=
  JSText.trim (JS.or_else (customFormat cfg) "{firstName} {lastName}").

Definition formatAuthorName (cfg : AuthorConfig) (task : Task) : string :=
  let first := firstName task in
  let last := lastName task in
  let mail := email task in
  if String.eqb (displayFormat cfg) "Full Name" then
    if JS.truthy first && JS.truthy last then first +:+ " " +:+ last
    else if JS.truthy first then first
    else if JS.truthy last then last
    else if JS.truthy mail then first_piece "@" mail
    else ""
  else if String.eqb (displayFormat cfg) "First Name Only" then
    JS.or_else first (JS.or_else (first_piece "@" mail) "")
  else if String.eqb (displayFormat cfg) "Last Name Only" then
    JS.or_else last (JS.or_else (first_piece "@" mail) "")
  else if String.eqb (displayFormat cfg) "Initials" then generateInitials task
  else if String.eqb (displayFormat cfg) "Email" then mail
  else if String.eqb (displayFormat cfg) "Custom" then applyCustomFormat cfg task
  else
    if JS.truthy first && JS.truthy last then first +:+ " " +:+ last
    else if JS.truthy mail then first_piece "@" mail
    else "".

(** [hash << 5]: both operand and result are 32-bit signed integers. *)
Definition toInt32 (z : Z) : Z :=
  let m := (z mod 2 ^ 32)%Z in
  if (m <? 2 ^ 31)%Z then m else (m - 2 ^ 32)%Z.

Definition shl5 (hash : Z) : Z := toInt32 (toInt32 hash * 32).

Definition colors : list string :=
  [ "#f87171"; "#fb923c"; "#facc15"; "#a3e635";
    "#34d399"; "#22d3ee"; "#60a5fa"; "#a78bfa";
    "#f472b6"; "#fb7185"; "#fbbf24"; "#86efac";
    "#4ade80"; "#2dd4bf"; "#38bdf8"; "#818cf8" ].

(** The loop of [generateAvatarColor]; the additions are exact on numbers of
    this size. *)
Fixpoint avatar_hash (initials : string) (hash : Z) : Z :=
  match initials with
  | EmptyString => hash
  | String c r =>
      avatar_hash r (Z.of_nat (nat_of_ascii c) + (shl5 hash - hash))%Z
  end.

(** [None] would be [undefined]. *)
Definition generateAvatarColor (initials : string) : option string :=
  colors !! Z.to_nat (Z.abs (avatar_hash initials 0) mod Z.of_nat (List.length colors)).

End Author.

Example initials_full : 
  Author.generateInitials
    (mkTask "t" "T" "Todo" None None None None None (Some "mary") (Some "johnson")
       None None None) = "MJ".
Proof. reflexivity. Qed.

Example initials_email :
  Author.generateInitials
    (mkTask "t" "T" "Todo" None (Some "anna.brown@company.com") None None None
       None None None None None) = "AB".
Proof. reflexivity. Qed.


Example samples_default :
  exists b, Optimistic.getEmptyBoardDataWithSamples getDefaultColumnDefinitions = Some b
            /\ size (tasks b) = 6%nat.
Proof. eexists. split; [reflexivity | vm_compute; reflexivity]. Qed.

(** * Properties *)

(** ** Classification *)

Section Classification.

Variable toLowerCase : string -> string.

(** Equality up to letter case, as the code decides it. *)
Definition ci_equal (a b : string) : Prop := toLowerCase a = toLowerCase b.

(** A definition accepts a status when one of its aliases equals it up to
    case. *)
Definition accepts (status : string) (d : ColumnDefinition) : Prop :=
  exists val, val ∈ def_statusValues d /\ ci_equal val status.

Lemma status_matches_accepts status d :
  Classifier.status_matches toLowerCase status d = true <-> accepts status d.
Proof.
  unfold Classifier.status_matches, JS.some, accepts, ci_equal.
  rewrite existsb_exists. split.
  - intros (val & Hin & Heq). exists val. split.
    + by apply list_elem_of_In.
    + by apply String.eqb_eq.
  - intros (val & Hin & Heq). exists val. split.
    + by apply list_elem_of_In.
    + by apply String.eqb_eq.
Qed.

Lemma status_matches_rejects status d :
  Classifier.status_matches toLowerCase status d = false <-> ~ accepts status d.
Proof.
  rewrite <- status_matches_accepts.
  destruct (Classifier.status_matches toLowerCase status d); split; congruence.
Qed.

Lemma loop_first_match pre d post status :
  accepts status d ->
  (forall d', d' ∈ pre -> ~ accepts status d') ->
  Classifier.getColumnIdByStatus_loop toLowerCase (pre ++ d :: post) status
  = Some (def_id d).
Proof.
  intros Hd. induction pre as [|p pre IH]; intros Hpre; simpl.
  - apply status_matches_accepts in Hd. by rewrite Hd.
  - assert (Classifier.status_matches toLowerCase status p = false) as ->.
    { apply status_matches_rejects, Hpre. left. }
    apply IH. intros d' Hin. apply Hpre. by right.
Qed.

Lemma loop_no_match defs status :
  (forall d, d ∈ defs -> ~ accepts status d) ->
  Classifier.getColumnIdByStatus_loop toLowerCase defs status = None.
Proof.
  induction defs as [|p defs IH]; intros Hno; simpl; [done|].
  assert (Classifier.status_matches toLowerCase status p = false) as ->.
  { apply status_matches_rejects, Hno. left. }
  apply IH. intros d Hin. apply Hno. by right.
Qed.

Lemma status_matches_ci status status' d :
  ci_equal status status' ->
  Classifier.status_matches toLowerCase status' d
  = Classifier.status_matches toLowerCase status d.
Proof.
  intros Heq. unfold Classifier.status_matches, ci_equal in *. by rewrite Heq.
Qed.

Lemma loop_ci defs status status' :
  ci_equal status status' ->
  Classifier.getColumnIdByStatus_loop toLowerCase defs status'
  = Classifier.getColumnIdByStatus_loop toLowerCase defs status.
Proof.
  intros Heq. induction defs as [|p defs IH]; simpl; [done|].
  by rewrite (status_matches_ci status status' p Heq), IH.
Qed.

(** The result is the id of some definition, or the no-column signal. *)
Lemma getColumnIdByStatus_is_def_id defs status i :
  Classifier.getColumnIdByStatus toLowerCase defs status = Some i ->
  exists d, d ∈ defs /\ def_id d = i.
Proof.
  unfold Classifier.getColumnIdByStatus.
  destruct (Classifier.getColumnIdByStatus_loop toLowerCase defs status)
    as [j|] eqn:Hloop.
  - intros [= <-]. clear -Hloop. induction defs as [|p defs IH]; simpl in *; [done|].
    destruct (Classifier.status_matches toLowerCase status p).
    + injection Hloop as <-. exists p. split; [left | done].
    + destruct (IH Hloop) as (d & Hin & Hid). exists d. split; [by right | done].
  - destruct defs as [|first rest]; [done|].
    destruct (JS.truthy (def_id first)); [|done].
    intros [= <-]. exists first. split; [left | done].
Qed.

Lemma fallback_first_id first rest status :
  (forall d, d ∈ first :: rest -> ~ accepts status d) ->
  def_id first <> "" ->
  Classifier.getColumnIdByStatus toLowerCase (first :: rest) status
  = Some (def_id first).
Proof.
  intros Hno Hid. unfold Classifier.getColumnIdByStatus.
  rewrite (loop_no_match _ status Hno).
  unfold JS.truthy. apply String.eqb_neq in Hid. by rewrite Hid.
Qed.

End Classification.

(** The ids of the definitions the component configures are not empty. *)
Lemma default_ids_not_empty d :
  d ∈ getDefaultColumnDefinitions -> def_id d <> "".
Proof.
  intros Hin. apply list_elem_of_In in Hin. simpl in Hin.
  destruct Hin as [<-|[<-|[<-|[<-|[]]]]]; discriminate.
Qed.

(** C5. Whatever the case mapping [toLowerCase] is, [getColumnIdByStatus] is
    a total function of the status and the definitions. It returns the id of
    the first definition, in configured order, one of whose aliases equals the
    status after the mapping. When no definition accepts the status it returns
    the id of the first definition (ids are non-empty strings, as those of the
    definitions the component configures are), and the no-column signal when
    the list is empty. Two statuses that the mapping sends to the same text are
    classified alike; in particular DONE and done are. *)
Theorem classification_first_match_or_first_column
  (toLowerCase : string -> string)
  (defs : list ColumnDefinition) (status : string) :
  (forall (pre : list ColumnDefinition) d post,
      defs = (pre ++ d :: post)%list ->
      accepts toLowerCase status d ->
      (forall d', d' ∈ pre -> ~ accepts toLowerCase status d') ->
      Classifier.getColumnIdByStatus toLowerCase defs status = Some (def_id d))
  /\ (forall first rest,
        defs = first :: rest ->
        def_id first <> "" ->
        (forall d, d ∈ defs -> ~ accepts toLowerCase status d) ->
        Classifier.getColumnIdByStatus toLowerCase defs status = Some (def_id first))
  /\ Classifier.getColumnIdByStatus toLowerCase [] status = None
  /\ (forall status',
        ci_equal toLowerCase status status' ->
        Classifier.getColumnIdByStatus toLowerCase defs status'
        = Classifier.getColumnIdByStatus toLowerCase defs status)
  /\ (toLowerCase "DONE" = toLowerCase "done" ->
      Classifier.getColumnIdByStatus toLowerCase defs "DONE"
      = Classifier.getColumnIdByStatus toLowerCase defs "done")
  /\ (forall d, d ∈ getDefaultColumnDefinitions -> def_id d <> "").
Proof.
  split; [|split; [|split; [|split; [|split]]]].
  - intros pre d post -> Hd Hpre. unfold Classifier.getColumnIdByStatus.
    by rewrite (loop_first_match toLowerCase pre d post status Hd Hpre).
  - intros first rest -> Hid Hno. by apply fallback_first_id.
  - reflexivity.
  - intros status' Heq. unfold Classifier.getColumnIdByStatus.
    by rewrite (loop_ci toLowerCase defs status status' Heq).
  - intros Heq. unfold Classifier.getColumnIdByStatus.
    by rewrite (loop_ci toLowerCase defs "done" "DONE").
  - apply default_ids_not_empty.
Qed.

Lemma classification_first_match_or_first_column_witness :
  getColumnIdByStatus getDefaultColumnDefinitions "CLOSED" = Some "done"
  /\ getColumnIdByStatus getDefaultColumnDefinitions "Blocked" = Some "todo"
  /\ getColumnIdByStatus getDefaultColumnDefinitions "DONE"
     = getColumnIdByStatus getDefaultColumnDefinitions "done".
Proof.
  split; [|split].
  - apply (proj1 (classification_first_match_or_first_column JS.toLowerCase
                    getDefaultColumnDefinitions "CLOSED")
             (take 3 getDefaultColumnDefinitions)
             (mkColumnDefinition "done" "Done" ["Done"; "Completed"; "Closed"] None)
             []).
    + reflexivity.
    + apply status_matches_accepts. reflexivity.
    + intros d' Hin. apply status_matches_rejects.
      apply list_elem_of_In in Hin. simpl in Hin.
      destruct Hin as [<-|[<-|[<-|[]]]]; reflexivity.
  - apply (proj1 (proj2 (classification_first_match_or_first_column JS.toLowerCase
                    getDefaultColumnDefinitions "Blocked"))
             (mkColumnDefinition "todo" "To Do" ["Todo"; "New"; "Open"] None)
             (drop 1 getDefaultColumnDefinitions)).
    + reflexivity.
    + discriminate.
    + intros d Hin. apply status_matches_rejects.
      apply list_elem_of_In in Hin. simpl in Hin.
      destruct Hin as [<-|[<-|[<-|[<-|[]]]]]; reflexivity.
  - apply (proj1 (proj2 (proj2 (proj2 (proj2
             (classification_first_match_or_first_column JS.toLowerCase
                getDefaultColumnDefinitions "CLOSED")))))).
    reflexivity.
Defined.

(** ** Moving a task *)

Section MoveTask.

(** [l'] is [l] without the first occurrence of [x] (if there is one). *)
Definition removes_first (x : string) (l l' : list string) : Prop :=
  ((x ∉ l) /\ l' = l)
  \/ (exists l1 l2 : list string,
        l = (l1 ++ x :: l2)%list /\ (x ∉ l1) /\ l' = (l1 ++ l2)%list).

Lemma indexOf_from_absent l x i :
  x ∉ l -> JS.indexOf_from l x i = (-1)%Z.
Proof.
  revert i. induction l as [|y l IH]; intros i Hx; simpl; [done|].
  apply not_elem_of_cons in Hx as [Hne Hx].
  destruct (String.eqb_spec y x) as [->|_]; [done|]. by apply IH.
Qed.

Lemma indexOf_from_first (l1 l2 : list string) x i :
  x ∉ l1 ->
  JS.indexOf_from (l1 ++ x :: l2) x i = (i + Z.of_nat (List.length l1))%Z.
Proof.
  revert i. induction l1 as [|y l1 IH]; intros i Hx; simpl.
  - rewrite String.eqb_refl. lia.
  - apply not_elem_of_cons in Hx as [Hne Hx].
    destruct (String.eqb_spec y x) as [->|_]; [done|].
    rewrite IH by done. lia.
Qed.

Lemma first_occurrence (l : list string) x :
  x ∈ l -> exists l1 l2 : list string, l = (l1 ++ x :: l2)%list /\ (x ∉ l1).
Proof.
  induction l as [|y l IH]; intros Hin; [by apply elem_of_nil in Hin|].
  destruct (decide (y = x)) as [->|Hne].
  - exists [], l. split; [done | apply not_elem_of_nil].
  - apply elem_of_cons in Hin as [->|Hin]; [done|].
    destruct (IH Hin) as (l1 & l2 & -> & Hl1).
    exists (y :: l1), l2. split; [done|].
    apply not_elem_of_cons. split; [congruence | done].
Qed.

Lemma remove_from_source_taskIds c x :
  removes_first x (col_taskIds c) (col_taskIds (remove_from_source c x)).
Proof.
  unfold remove_from_source, JS.indexOf.
  destruct (decide (x ∈ col_taskIds c)) as [Hin|Hnin].
  - right. destruct (first_occurrence _ _ Hin) as (l1 & l2 & Heq & Hl1).
    exists l1, l2. split; [done|]. split; [done|].
    rewrite Heq, indexOf_from_first by done.
    assert ((0 + Z.of_nat (List.length l1) >? -1)%Z = true) as ->
      by (apply Z.gtb_lt; lia).
    simpl. unfold JS.splice.
    replace (Z.to_nat (0 + Z.of_nat (List.length l1))) with (List.length l1) by lia.
    rewrite take_app_length.
    replace (List.length l1 + 1)%nat with (List.length l1 + 1 + 0)%nat by lia.
    rewrite <- Nat.add_assoc. by rewrite drop_app_add.
  - left. split; [done|]. by rewrite indexOf_from_absent.
Qed.

Lemma remove_from_source_fields c x :
  col_id (remove_from_source c x) = col_id c
  /\ col_title (remove_from_source c x) = col_title c
  /\ col_statusValues (remove_from_source c x) = col_statusValues c
  /\ col_color (remove_from_source c x) = col_color c.
Proof.
  unfold remove_from_source.
  by destruct (JS.indexOf (col_taskIds c) x >? -1)%Z.
Qed.

(** The guards of [moveTask]. *)
Lemma moveTask_with_guard mark taskId src tgt st :
  src = tgt
  \/ columns (_boardData st) !! src = None
  \/ columns (_boardData st) !! tgt = None
  \/ tasks (_boardData st) !! taskId = None ->
  moveTask_with mark taskId src tgt st = st.
Proof.
  unfold moveTask_with. intros [->|[H|[H|H]]].
  - by rewrite String.eqb_refl.
  - rewrite H. by destruct (String.eqb src tgt).
  - rewrite H. destruct (String.eqb src tgt); [done|].
    by destruct (columns (_boardData st) !! src).
  - rewrite H. destruct (String.eqb src tgt); [done|].
    by destruct (columns (_boardData st) !! src),
                (columns (_boardData st) !! tgt).
Qed.

(** The state after a move that passes the guards. *)
Lemma moveTask_with_passes mark taskId src tgt st sourceColumn targetColumn task :
  src <> tgt ->
  columns (_boardData st) !! src = Some sourceColumn ->
  columns (_boardData st) !! tgt = Some targetColumn ->
  tasks (_boardData st) !! taskId = Some task ->
  moveTask_with mark taskId src tgt st =
    mkState
      (mkBoardData
         (<[taskId := mark (set_status (new_status targetColumn) task)]>
            (tasks (_boardData st)))
         (<[tgt := set_taskIds (JS.push (col_taskIds targetColumn) taskId) targetColumn]>
            (<[src := remove_from_source sourceColumn taskId]>
               (columns (_boardData st))))
         (columnOrder (_boardData st)))
      (_draggedTaskId st) (_sourceColumnId st) (Some taskId) true
      (_columnDefinitions st) (S (notifications st)).
Proof.
  intros Hne Hs Ht Hk. unfold moveTask_with.
  apply String.eqb_neq in Hne. by rewrite Hne, Hs, Ht, Hk.
Qed.

(** The status written by a move: the first alias when it is a non-empty
    string, the column title otherwise. *)
Lemma new_status_spec c :
  new_status c =
    match col_statusValues c with
    | alias :: _ => if decide (alias = "") then col_title c else alias
    | [] => col_title c
    end.
Proof.
  unfold new_status. destruct (col_statusValues c) as [|alias rest]; [done|].
  simpl. unfold JS.or_else, JS.truthy. case_decide as Ha.
  - by rewrite Ha.
  - apply String.eqb_neq in Ha. by rewrite Ha.
Qed.

End MoveTask.

(** What a completed move does to the board and to the host callback.
    [flag] is the value of [isOptimistic] on the moved task afterwards. *)
Definition move_effect (st st' : State) (taskId src tgt : string)
  (sourceColumn targetColumn : Column) (task : Task) (flag : option bool) : Prop :=
  let b := _boardData st in
  let b' := _boardData st' in
  (exists c, columns b' !! src = Some c
             /\ removes_first taskId (col_taskIds sourceColumn) (col_taskIds c)
             /\ col_title c = col_title sourceColumn
             /\ col_statusValues c = col_statusValues sourceColumn)
  /\ columns b' !! tgt
     = Some (set_taskIds (col_taskIds targetColumn ++ [taskId])%list targetColumn)
  /\ (forall c, c <> src -> c <> tgt -> columns b' !! c = columns b !! c)
  /\ columnOrder b' = columnOrder b
  /\ (exists t, tasks b' !! taskId = Some t
                /\ task_status t =
                     match col_statusValues targetColumn with
                     | alias :: _ =>
                         if decide (alias = "") then col_title targetColumn else alias
                     | [] => col_title targetColumn
                     end
                /\ task_isOptimistic t = flag
                /\ task_id t = task_id task
                /\ task_title t = task_title task
                /\ task_recordId t = task_recordId task)
  /\ (forall i, i <> taskId -> tasks b' !! i = tasks b !! i)
  /\ notifications st' = S (notifications st)
  /\ _lastUpdatedTask st' = Some taskId.

Lemma moveTask_with_effect mark flag taskId src tgt st sourceColumn targetColumn task :
  (forall t, task_isOptimistic (mark t) = flag t
             /\ task_status (mark t) = task_status t
             /\ task_id (mark t) = task_id t
             /\ task_title (mark t) = task_title t
             /\ task_recordId (mark t) = task_recordId t) ->
  src <> tgt ->
  columns (_boardData st) !! src = Some sourceColumn ->
  columns (_boardData st) !! tgt = Some targetColumn ->
  tasks (_boardData st) !! taskId = Some task ->
  move_effect st (moveTask_with mark taskId src tgt st) taskId src tgt
    sourceColumn targetColumn task (flag (set_status (new_status targetColumn) task)).
Proof.
  intros Hmark Hne Hs Ht Hk.
  rewrite (moveTask_with_passes mark taskId src tgt st _ _ _ Hne Hs Ht Hk).
  unfold move_effect. simpl. repeat split.
  - exists (remove_from_source sourceColumn taskId).
    rewrite lookup_insert_ne, lookup_insert_eq by done.
    split; [done|]. split; [apply remove_from_source_taskIds|].
    destruct (remove_from_source_fields sourceColumn taskId) as (_ & H1 & H2 & _).
    done.
  - by rewrite lookup_insert_eq.
  - intros c Hc1 Hc2. by rewrite !lookup_insert_ne.
  - eexists. rewrite lookup_insert_eq. split; [done|].
    destruct (Hmark (set_status (new_status targetColumn) task))
      as (H1 & H2 & H3 & H4 & H5).
    rewrite H1, H2, H3, H4, H5. simpl. by rewrite new_status_spec.
  - intros i Hi. by rewrite lookup_insert_ne.
Qed.

(** The board after the host supplied nothing: the sample board, with the
    default column definitions. *)
Definition sample_state : State :=
  state_of (Optimistic.init (mkContext None None) constructor).

Definition baseline_sample_state : State :=
  state_of (Baseline.init (mkContext None (Some SyntaxError)) constructor).

(** A legacy bundle whose second column declares the empty string as its first
    alias. *)
Definition blank_alias_bundle : Bundle :=
  mkBundle
    (Some {[ "t1" := mkTask "t1" "Write report" "Todo" None None None None None
                       None None None None None ]})
    (Some (<[ "todo" := mkColumn "todo" "To Do" ["t1"] ["Todo"] None ]>
             {[ "blocked" := mkColumn "blocked" "Blocked" [] [""; "Blocked"] None ]}))
    (Some ["todo"; "blocked"]).

Definition blank_alias_state : State :=
  Optimistic.loadFromLegacyData (ParsedObject blank_alias_bundle)
    (updateColumnDefinitions constructor).

(** C1 as stated fails where the target column's first alias is the empty
    string: the moved task gets the column title, not that alias. *)
Lemma moveTask_blank_alias_counterexample :
  let st' := Optimistic.moveTask "t1" "todo" "blocked" blank_alias_state in
  (col_statusValues <$> columns (_boardData blank_alias_state) !! "blocked")
    = Some [""; "Blocked"]
  /\ (task_status <$> tasks (_boardData st') !! "t1") = Some "Blocked"
  /\ (task_status <$> tasks (_boardData st') !! "t1") <> Some "".
Proof. vm_compute. repeat split; congruence. Qed.

(** C1 (amended). When the task exists, both columns exist and the source
    differs from the target, [moveTask] removes the first occurrence of the
    task id from the source column's list, appends the id to the target
    column's list, sets the task's status to the target column's first alias
    when that alias is a non-empty string and to the column's title otherwise
    (no alias, or an empty first alias), and calls the host callback exactly
    once. The dataset-aware revision also sets [isOptimistic] to true; the
    baseline revision has no such flag and leaves the field as it was. *)
Theorem moveTask_moves_and_notifies_once
  (taskId src tgt : string) (st : State) (sourceColumn targetColumn : Column)
  (task : Task) :
  src <> tgt ->
  columns (_boardData st) !! src = Some sourceColumn ->
  columns (_boardData st) !! tgt = Some targetColumn ->
  tasks (_boardData st) !! taskId = Some task ->
  move_effect st (Optimistic.moveTask taskId src tgt st) taskId src tgt
    sourceColumn targetColumn task (Some true)
  /\ move_effect st (Baseline.moveTask taskId src tgt st) taskId src tgt
       sourceColumn targetColumn task (task_isOptimistic task).
Proof.
  intros Hne Hs Ht Hk. split.
  - apply (moveTask_with_effect (set_isOptimistic true) (fun _ => Some true));
      done.
  - apply (moveTask_with_effect (fun t => t) task_isOptimistic); done.
Qed.

Lemma moveTask_moves_and_notifies_once_witness :
  move_effect sample_state (Optimistic.moveTask "task-1" "todo" "done" sample_state)
    "task-1" "todo" "done"
    (mkColumn "todo" "To Do" ["task-1"; "task-5"] ["Todo"; "New"; "Open"] None)
    (mkColumn "done" "Done" ["task-4"] ["Done"; "Completed"; "Closed"] None)
    (mkTask "task-1" "Implement new API endpoints" "Todo" (Some "high")
       (Some "john.smith@company.com") (Some "Today")
       (Some "Design and implement RESTful API endpoints for the new user management module. Ensure proper authentication, validation, and error handling are in place. Documentation must be updated with Swagger examples and response schemas.")
       None (Some "John") (Some "Smith") (Some "john.smith@company.com")
       (Some "https://images.unsplash.com/photo-1472099645785-5658abf4ff4e?w=100&h=100&fit=crop&crop=face")
       None)
    (Some true).
Proof.
  apply (moveTask_moves_and_notifies_once "task-1" "todo" "done" sample_state).
  - discriminate.
  - reflexivity.
  - reflexivity.
  - reflexivity.
Defined.


Lemma get_Own {T} (o : gmap string T) key v :
  Prototype.get o key = Prototype.Own v <-> o !! key = Some v.
Proof.
  unfold Prototype.get. destruct (o !! key) as [w|].
  - split; congruence.
  - case_bool_decide; split; done.
Qed.

(** On ids that are keys, or that are no inherited names, the method is
    [moveTask_with]. *)
Lemma moveTask_on_keys mark taskId src tgt st :
  (columns (_boardData st) !! src = None -> src ∉ Prototype.inherited_names) ->
  (columns (_boardData st) !! tgt = None -> tgt ∉ Prototype.inherited_names) ->
  (tasks (_boardData st) !! taskId = None -> taskId ∉ Prototype.inherited_names) ->
  Prototype.moveTask_with mark taskId src tgt st
  = Prototype.MoveReturned (moveTask_with mark taskId src tgt st).
Proof.
  intros Hs Ht Hk. unfold Prototype.moveTask_with, moveTask_with, Prototype.get.
  destruct (String.eqb src tgt); [done|].
  destruct (columns (_boardData st) !! src) as [sourceColumn|].
  - destruct (columns (_boardData st) !! tgt) as [targetColumn|].
    + destruct (tasks (_boardData st) !! taskId) as [task|]; [done|].
      rewrite bool_decide_eq_false_2 by auto. done.
    + rewrite bool_decide_eq_false_2 by auto. done.
  - rewrite bool_decide_eq_false_2 by auto. done.
Qed.





(** ** Loading from the dataset *)

Section DatasetLoad.

Import Optimistic.

Variable defs : list ColumnDefinition.
Variable board : BoardData.
Variable records : gmap string EntityRecord.

(** The task a record yields, before reconciliation. *)
Definition incoming (recordId : string) : Task :=
  task_of_record recordId (records !! recordId).

(** A record that is not skipped and yields the task id [i]. *)
Definition yields (i : string) (recordId : string) : Prop :=
  is_harness_mock (records !! recordId) = false
  /\ task_id (incoming recordId) = i.

Lemma reconcile_id previous s t : task_id (reconcile previous s t) = task_id t.
Proof.
  unfold reconcile. destruct previous as [prev|]; [|done].
  destruct (flagged_optimistic prev); [|done].
  by destruct (negb (String.eqb (task_status prev) s)).
Qed.

Lemma load_record_skipped recordId acc :
  is_harness_mock (records !! recordId) = true ->
  load_record defs board records recordId acc = inl acc.
Proof. intros H. unfold load_record. by rewrite H. Qed.

Lemma load_record_tasks_either recordId acc :
  is_harness_mock (records !! recordId) = false ->
  ld_tasks (either (load_record defs board records recordId acc)) =
    <[task_id (incoming recordId) :=
        reconcile (tasks board !! task_id (incoming recordId))
          (task_status (incoming recordId)) (incoming recordId)]> (ld_tasks acc).
Proof.
  intros Hmock. unfold load_record. rewrite Hmock.
  fold (incoming recordId). rewrite reconcile_id.
  by destruct (assign_column _ _ _ _).
Qed.

Lemma load_record_tasks recordId acc acc' :
  is_harness_mock (records !! recordId) = false ->
  load_record defs board records recordId acc = inl acc' ->
  ld_tasks acc' =
    <[task_id (incoming recordId) :=
        reconcile (tasks board !! task_id (incoming recordId))
          (task_status (incoming recordId)) (incoming recordId)]> (ld_tasks acc).
Proof.
  intros Hmock Hr. rewrite <- (load_record_tasks_either recordId acc Hmock).
  by rewrite Hr.
Qed.

Lemma load_records_app (l1 l2 : list string) acc acc'' :
  load_records defs board records (l1 ++ l2) acc = inl acc'' ->
  exists acc', load_records defs board records l1 acc = inl acc'
               /\ load_records defs board records l2 acc' = inl acc''.
Proof.
  revert acc. induction l1 as [|r l1 IH]; intros acc; simpl.
  - intros H. by exists acc.
  - destruct (load_record defs board records r acc) as [acc1|acc1]; [|done].
    apply IH.
Qed.

(** Records that are skipped or yield another id leave entry [i] alone. *)
Lemma load_records_other_ids i (l : list string) acc acc' :
  (forall r, r ∈ l -> ~ yields i r) ->
  load_records defs board records l acc = inl acc' ->
  ld_tasks acc' !! i = ld_tasks acc !! i.
Proof.
  revert acc. induction l as [|r l IH]; intros acc Hl; simpl.
  - by intros [= <-].
  - destruct (load_record defs board records r acc) as [acc1|acc1] eqn:Hr; [|done].
    intros H. rewrite (IH acc1); [|intros r' Hr'; apply Hl; by right|done].
    destruct (is_harness_mock (records !! r)) eqn:Hmock.
    + rewrite load_record_skipped in Hr by done. by injection Hr as <-.
    + rewrite (load_record_tasks r acc acc1 Hmock Hr).
      apply lookup_insert_ne. intros Heq. apply (Hl r); [left|].
      by split.
Qed.

(** Ids pushed to a column stay there for the rest of the load. *)
Definition listed_in (cols : gmap string Column) (cid tid : string) : Prop :=
  exists c, cols !! cid = Some c /\ tid ∈ col_taskIds c.

Lemma push_taskId_listed cid tid cols cid' tid' :
  listed_in cols cid' tid' -> listed_in (push_taskId cid tid cols) cid' tid'.
Proof.
  intros (c & Hc & Hin). unfold listed_in, push_taskId.
  destruct (decide (cid = cid')) as [->|Hne].
  - rewrite lookup_alter_eq, Hc. simpl. eexists. split; [done|].
    simpl. unfold JS.push. apply elem_of_app. by left.
  - rewrite lookup_alter_ne by done. by exists c.
Qed.

Lemma push_taskId_lists cid tid cols :
  is_Some (cols !! cid) -> listed_in (push_taskId cid tid cols) cid tid.
Proof.
  intros [c Hc]. unfold listed_in, push_taskId.
  rewrite lookup_alter_eq, Hc. simpl. eexists. split; [done|].
  simpl. unfold JS.push. apply elem_of_app. right. left.
Qed.

Lemma assign_column_listed order task cols cols' cid tid :
  assign_column defs order task cols = inl cols' ->
  listed_in cols cid tid -> listed_in cols' cid tid.
Proof.
  unfold assign_column. intros H Hl.
  repeat match type of H with
         | context [match ?x with _ => _ end] => destruct x eqn:?
         end; simplify_eq; try done; by apply push_taskId_listed.
Qed.

Lemma load_record_listed recordId acc acc' cid tid :
  load_record defs board records recordId acc = inl acc' ->
  listed_in (ld_columns acc) cid tid -> listed_in (ld_columns acc') cid tid.
Proof.
  unfold load_record. destruct (is_harness_mock _); [by intros [= <-]|].
  destruct (assign_column _ _ _ _) as [cols|cols] eqn:Ha; [|done].
  intros [= <-]. simpl. by eapply assign_column_listed.
Qed.

Lemma load_records_listed (l : list string) acc acc' cid tid :
  load_records defs board records l acc = inl acc' ->
  listed_in (ld_columns acc) cid tid -> listed_in (ld_columns acc') cid tid.
Proof.
  revert acc. induction l as [|r l IH]; intros acc; simpl.
  - by intros [= <-].
  - destruct (load_record defs board records r acc) as [acc1|acc1] eqn:Hr; [|done].
    intros H Hl. eapply IH; [done|]. by eapply load_record_listed.
Qed.

Lemma load_record_keys recordId acc acc' cid :
  load_record defs board records recordId acc = inl acc' ->
  is_Some (ld_columns acc' !! cid) <-> is_Some (ld_columns acc !! cid).
Proof.
  unfold load_record. destruct (is_harness_mock _); [by intros [= <-]|].
  destruct (assign_column _ _ _ _) as [cols|cols] eqn:Ha; [|done].
  intros [= <-]. simpl. unfold assign_column in Ha.
  repeat match type of Ha with
         | context [match ?x with _ => _ end] => destruct x eqn:?
         end; simplify_eq; try done; unfold push_taskId;
    rewrite lookup_alter_is_Some; done.
Qed.

(** A record that is not skipped lists its task in the column its final
    status classifies to, whenever the board has that column. *)
Lemma load_record_classified recordId acc acc' cid :
  is_harness_mock (records !! recordId) = false ->
  load_record defs board records recordId acc = inl acc' ->
  getColumnIdByStatus defs
    (task_status (reconcile (tasks board !! task_id (incoming recordId))
                    (task_status (incoming recordId)) (incoming recordId)))
    = Some cid ->
  cid <> "" ->
  is_Some (ld_columns acc !! cid) ->
  listed_in (ld_columns acc') cid (task_id (incoming recordId)).
Proof.
  intros Hmock. unfold load_record. rewrite Hmock.
  change (JS.or_else (getValue (records !! recordId) "status") "Unknown")
    with (task_status (incoming recordId)).
  fold (incoming recordId).
  intros H Hcid Hne [c Hc]. unfold assign_column in H.
  rewrite Hcid in H. simpl in H.
  apply String.eqb_neq in Hne. unfold JS.truthy in H. rewrite Hne in H.
  simpl in H. rewrite Hc in H. injection H as <-. simpl.
  rewrite reconcile_id. apply push_taskId_lists. by exists c.
Qed.

End DatasetLoad.

Lemma load_records_keys defs board records (l : list string) acc acc' cid :
  Optimistic.load_records defs board records l acc = inl acc' ->
  is_Some (Optimistic.ld_columns acc' !! cid)
  <-> is_Some (Optimistic.ld_columns acc !! cid).
Proof.
  revert acc. induction l as [|r l IH]; intros acc; simpl.
  - by intros [= <-].
  - destruct (Optimistic.load_record defs board records r acc) as [acc1|acc1] eqn:Hr;
      [|done].
    intros H. rewrite (IH acc1 H). by eapply load_record_keys.
Qed.

Lemma reconcile_cases previous (inc : Task) :
  let result := Optimistic.reconcile previous (task_status inc) inc in
  (previous = None -> result = inc)
  /\ (forall prev, previous = Some prev -> flagged_optimistic prev = false ->
        result = inc)
  /\ (forall prev, previous = Some prev -> flagged_optimistic prev = true ->
        task_status inc <> task_status prev ->
        result = set_isOptimistic true (set_status (task_status prev) inc))
  /\ (forall prev, previous = Some prev -> flagged_optimistic prev = true ->
        task_status inc = task_status prev ->
        result = set_isOptimistic false inc).
Proof.
  simpl. unfold Optimistic.reconcile. repeat split.
  - by intros ->.
  - intros prev -> Hf. by rewrite Hf.
  - intros prev -> Hf Hne. rewrite Hf.
    assert (String.eqb (task_status prev) (task_status inc) = false) as ->; [|done].
    apply String.eqb_neq. congruence.
  - intros prev -> Hf Heq. rewrite Hf, Heq, String.eqb_refl. done.
Qed.

(** The sample board after task-1 was dragged from To Do to Done. *)
Definition moved_state : State :=
  Optimistic.moveTask "task-1" "todo" "done" sample_state.

(** A dataset snapshot that still reports task-1 as Todo. *)
Definition stale_dataset : DataSet :=
  mkDataSet false (Some ["rec-1"])
    {[ "rec-1" := {[ "id" := "task-1"; "title" := "Implement new API endpoints";
                      "status" := "Todo" ]} ]}.

(** ** The sample fallback of [loadData] *)

Lemma loadFromDataset_definitions ctx st :
  _columnDefinitions (state_of (Optimistic.loadFromDataset ctx st))
  = _columnDefinitions st.
Proof.
  unfold Optimistic.loadFromDataset.
  destruct (taskDataSet ctx) as [dataSet|]; [|done].
  destruct (ds_sortedRecordIds dataSet) as [ids|]; [|done].
  by destruct (Optimistic.load_records _ _ _ _ _).
Qed.

(** The sample board of the dataset-aware revision under the default column
    definitions. *)
Definition sample_board : BoardData :=
  mkBoardData Optimistic.sampleTasks
    (<[ "todo" := mkColumn "todo" "To Do" ["task-1"; "task-5"]
                    ["Todo"; "New"; "Open"] None ]>
       (<[ "inprogress" := mkColumn "inprogress" "In Progress" ["task-2"; "task-6"]
                             ["In Progress"; "Active"; "Working"] None ]>
          (<[ "review" := mkColumn "review" "Review" ["task-3"]
                            ["Review"; "Testing"; "Validation"] None ]>
             {[ "done" := mkColumn "done" "Done" ["task-4"]
                            ["Done"; "Completed"; "Closed"] None ]})))
    ["todo"; "inprogress"; "review"; "done"].

Lemma samples_under_defaults :
  Optimistic.getEmptyBoardDataWithSamples getDefaultColumnDefinitions
  = Some sample_board.
Proof. vm_compute. reflexivity. Qed.

(** C9. [init] and [updateView] set the column definitions and call
    [loadData]. When [loadData] takes the dataset branch and the rebuild
    returns with no task at all, the board is replaced by the sample board
    (six tasks in the four default columns) instead of staying empty. *)
Theorem empty_dataset_rebuild_falls_back_to_samples
  (ctx : Context) (st st1 : State) :
  Optimistic.dataset_available ctx = true ->
  Optimistic.loadFromDataset ctx (updateColumnDefinitions st) = Returned st1 ->
  size (tasks (_boardData st1)) = 0%nat ->
  Optimistic.loadData ctx (updateColumnDefinitions st)
    = Returned (set_boardData sample_board st1)
  /\ Optimistic.init ctx st = Returned (set_boardData sample_board st1)
  /\ Optimistic.updateView ctx st = Returned (set_boardData sample_board st1)
  /\ size (tasks sample_board) = 6%nat.
Proof.
  intros Havail Hload Hsize.
  assert (Optimistic.loadData ctx (updateColumnDefinitions st)
          = Returned (set_boardData sample_board st1)) as H.
  { unfold Optimistic.loadData. rewrite Havail, Hload, Hsize. simpl.
    unfold Optimistic.load_samples.
    pose proof (loadFromDataset_definitions ctx (updateColumnDefinitions st)) as Hd.
    rewrite Hload in Hd. simpl in Hd.
    by rewrite Hd, samples_under_defaults. }
  split; [exact H|]. split; [exact H|]. split; [exact H|]. by vm_compute.
Qed.

(** A dataset made of one harness mock record. *)
Definition mock_dataset : DataSet :=
  mkDataSet false (Some ["rec-1"])
    {[ "rec-1" := {[ "title" := "val"; "status" := "val" ]} ]}.

Lemma empty_dataset_rebuild_falls_back_to_samples_witness :
  _boardData (state_of (Optimistic.init (mkContext (Some mock_dataset) None)
                          constructor))
  = sample_board.
Proof.
  destruct (empty_dataset_rebuild_falls_back_to_samples
              (mkContext (Some mock_dataset) None)
              constructor
              (updateColumnDefinitions constructor)) as (_ & H & _).
  - reflexivity.
  - reflexivity.
  - reflexivity.
  - rewrite H. reflexivity.
Defined.

(** ** Legacy input that is not JSON *)

(** C6. On a text that is not JSON the two revisions apply different
    policies: the dataset-aware revision returns with the state untouched, the
    baseline revision replaces the board with its sample board. After [init]
    on such a text the first has the column-less board of the constructor, the
    second the six sample tasks. *)
Theorem legacy_parse_failure_policies (st : State) :
  Optimistic.loadFromLegacyData SyntaxError st = st
  /\ (exists b,
        Baseline.getEmptyBoardDataWithSamples getDefaultColumnDefinitions = Some b
        /\ size (tasks b) = 6%nat
        /\ Baseline.loadFromLegacyData SyntaxError (updateColumnDefinitions st)
           = Returned (set_boardData b (updateColumnDefinitions st)))
  /\ _boardData (state_of (Optimistic.init (mkContext None (Some SyntaxError)) constructor))
     = getEmptyBoardData []
  /\ size (tasks (_boardData
        (state_of (Baseline.init (mkContext None (Some SyntaxError)) constructor))))
     = 6%nat.
Proof.
  split; [done|]. split; [|split].
  - eexists. split; [by vm_compute|]. split; [by vm_compute|]. reflexivity.
  - reflexivity.
  - by vm_compute.
Qed.

(** ** The change event *)

(** The identity carried by the event: [recordId] when it is present and not
    empty, the task's own id otherwise. *)
Definition event_identity (t : Task) : string :=
  match task_recordId t with
  | Some r => if decide (r = "") then task_id t else r
  | None => task_id t
  end.

Lemma opt_or_else_identity t :
  JS.opt_or_else (task_recordId t) (task_id t) = event_identity t.
Proof.
  unfold event_identity, JS.opt_or_else, JS.or_else, JS.truthy.
  destruct (task_recordId t) as [r|]; [|done].
  case_decide as Hr.
  - by rewrite Hr.
  - apply String.eqb_neq in Hr. by rewrite Hr.
Qed.

Lemma truthy_attr_Some a s : truthy_attr a = Some s -> a = Some s /\ s <> "".
Proof.
  unfold truthy_attr, JS.truthy. destruct a as [x|]; [|done].
  destruct (String.eqb_spec x "") as [->|Hne]; [done|].
  simpl. by intros [= <-].
Qed.

Lemma truthy_attr_intro s : s <> "" -> truthy_attr (Some s) = Some s.
Proof.
  intros Hne. unfold truthy_attr, JS.truthy.
  apply String.eqb_neq in Hne. by rewrite Hne.
Qed.

(** What [getOutputs] reads right after a move that passed the guards. *)
Lemma last_moved_after_move mark taskId src tgt st sourceColumn targetColumn task :
  taskId <> "" ->
  src <> tgt ->
  columns (_boardData st) !! src = Some sourceColumn ->
  columns (_boardData st) !! tgt = Some targetColumn ->
  tasks (_boardData st) !! taskId = Some task ->
  last_moved (moveTask_with mark taskId src tgt st)
  = Some (mark (set_status (new_status targetColumn) task)).
Proof.
  intros Hid Hne Hs Ht Hk.
  rewrite (moveTask_with_passes mark taskId src tgt st _ _ _ Hne Hs Ht Hk).
  unfold last_moved. cbn [_lastUpdatedTask _boardData tasks].
  rewrite truthy_attr_intro by done.
  apply lookup_insert_eq.
Qed.

(** A drag of task-1 out of To Do, dropped on Done; the gesture then ends. *)
Definition dropped_state : State :=
  Optimistic.drop (Some "done") (dragstart (Some "task-1") (Some "todo") sample_state).

Definition baseline_dropped_state : State :=
  Baseline.drop (Some "done")
    (dragstart (Some "task-1") (Some "todo") baseline_sample_state).

(** C8 as stated fails in two ways. In the dataset-aware revision, once the
    drag gesture has ended the event's [previousStatus] is the empty string,
    not the source column's title. In the baseline revision the event has no
    [previousStatus] at all. *)
Lemma change_event_previousStatus_counterexample :
  (col_title <$> columns (_boardData sample_state) !! "todo") = Some "To Do"
  /\ (lastMovedTask <$> Optimistic.getOutputs "2024-01-01T00:00:00.000Z"
                          (dragend dropped_state))
     = Some (Some (mkMoveEvent "task-1" "Done" (Some "") "Implement new API endpoints"
                     "2024-01-01T00:00:00.000Z"))
  /\ lastMovedTask (Baseline.getOutputs "2024-01-01T00:00:00.000Z"
                      baseline_dropped_state)
     = Some (mkMoveEvent "task-1" "Done" None "Implement new API endpoints"
               "2024-01-01T00:00:00.000Z").
Proof. by vm_compute. Qed.

(** C8 (amended). After a move made by the [drop] handler, the event that
    [getOutputs] serialises carries the moved task's identity ([recordId] when
    present and not empty, the local id otherwise), the task's new status, its
    title and the clock reading of the call. In the dataset-aware revision,
    while the drag session still records the source column, the event also
    carries that column's title as [previousStatus]; the baseline revision's
    event has no [previousStatus]. *)
Theorem change_event_after_drop
  (taskId src tgt now : string) (targetAttr : option string) (st : State)
  (sourceColumn targetColumn : Column) (task : Task) :
  truthy_attr (_draggedTaskId st) = Some taskId ->
  truthy_attr (_sourceColumnId st) = Some src ->
  truthy_attr targetAttr = Some tgt ->
  src <> tgt ->
  columns (_boardData st) !! src = Some sourceColumn ->
  columns (_boardData st) !! tgt = Some targetColumn ->
  tasks (_boardData st) !! taskId = Some task ->
  (Optimistic.drop targetAttr st = Optimistic.moveTask taskId src tgt st
   /\ (lastMovedTask <$> Optimistic.getOutputs now (Optimistic.drop targetAttr st))
      = Some (Some (mkMoveEvent (event_identity task) (new_status targetColumn)
                      (Some (col_title sourceColumn)) (task_title task) now)))
  /\ (Baseline.drop targetAttr st = Baseline.moveTask taskId src tgt st
      /\ lastMovedTask (Baseline.getOutputs now (Baseline.drop targetAttr st))
         = Some (mkMoveEvent (event_identity task) (new_status targetColumn)
                   None (task_title task) now)).
Proof.
  intros Hd Hs Ht Hne Hsc Htc Hk.
  apply truthy_attr_Some in Hd as Hd'. destruct Hd' as [_ Hid].
  split.
  - assert (Optimistic.drop targetAttr st = Optimistic.moveTask taskId src tgt st)
      as Hdrop.
    { unfold Optimistic.drop. rewrite Hd, Hs, Ht.
      apply String.eqb_neq in Hne. by rewrite Hne. }
    split; [done|]. rewrite Hdrop. unfold Optimistic.getOutputs, Optimistic.moveTask.
    rewrite (last_moved_after_move _ taskId src tgt st _ _ _ Hid Hne Hsc Htc Hk).
    rewrite (moveTask_with_passes _ taskId src tgt st _ _ _ Hne Hsc Htc Hk).
    cbn [_sourceColumnId _boardData columns]. rewrite Hs.
    rewrite lookup_insert_ne, lookup_insert_eq by done.
    destruct (remove_from_source_fields sourceColumn taskId) as (_ & Htitle & _).
    simpl. rewrite Htitle.
    by rewrite <- (opt_or_else_identity task).
  - assert (Baseline.drop targetAttr st = Baseline.moveTask taskId src tgt st)
      as Hdrop.
    { unfold Baseline.drop. by rewrite Hd, Hs, Ht. }
    split; [done|]. rewrite Hdrop. unfold Baseline.getOutputs, Baseline.moveTask.
    rewrite (last_moved_after_move _ taskId src tgt st _ _ _ Hid Hne Hsc Htc Hk).
    simpl. by rewrite <- (opt_or_else_identity task).
Qed.

Lemma change_event_after_drop_witness :
  (lastMovedTask <$> Optimistic.getOutputs "2024-01-01T00:00:00.000Z" dropped_state)
  = Some (Some (mkMoveEvent "task-1" "Done" (Some "To Do")
                  "Implement new API endpoints" "2024-01-01T00:00:00.000Z")).
Proof.
  destruct (change_event_after_drop "task-1" "todo" "done"
              "2024-01-01T00:00:00.000Z" (Some "done")
              (dragstart (Some "task-1") (Some "todo") sample_state)
              (mkColumn "todo" "To Do" ["task-1"; "task-5"] ["Todo"; "New"; "Open"] None)
              (mkColumn "done" "Done" ["task-4"] ["Done"; "Completed"; "Closed"] None)
              (mkTask "task-1" "Implement new API endpoints" "Todo" (Some "high")
                 (Some "john.smith@company.com") (Some "Today")
                 (Some "Design and implement RESTful API endpoints for the new user management module. Ensure proper authentication, validation, and error handling are in place. Documentation must be updated with Swagger examples and response schemas.")
                 None (Some "John") (Some "Smith") (Some "john.smith@company.com")
                 (Some "https://images.unsplash.com/photo-1472099645785-5658abf4ff4e?w=100&h=100&fit=crop&crop=face")
                 None))
    as [[_ H] _].
  - reflexivity.
  - reflexivity.
  - reflexivity.
  - discriminate.
  - reflexivity.
  - reflexivity.
  - reflexivity.
  - exact H.
Defined.

(** ** Runs of the component *)

(** What the host and the user can make the component do. The private methods
    [loadFromDataset], [loadFromLegacyData] and [moveTask] are listed too, so
    that runs can exercise them on any argument. *)
Inductive Op :=
| OpInit (ctx : Context)
| OpUpdateView (ctx : Context)
| OpLoadFromDataset (ctx : Context)
| OpLoadFromLegacyData (parsed : Parsed)
| OpMoveTask (taskId sourceColumnId targetColumnId : string)
| OpDragStart (taskId columnId : option string)
| OpDragEnd
| OpDrop (targetColumnId : option string)
| OpGetOutputs (now : string).

(** The state an operation leaves behind, whether it returns or throws. *)
Definition apply_op (op : Op) (st : State) : State :=
  match op with
  | OpInit ctx => state_of (Optimistic.init ctx st)
  | OpUpdateView ctx => state_of (Optimistic.updateView ctx st)
  | OpLoadFromDataset ctx => state_of (Optimistic.loadFromDataset ctx st)
  | OpLoadFromLegacyData parsed => Optimistic.loadFromLegacyData parsed st
  | OpMoveTask taskId src tgt => Optimistic.moveTask taskId src tgt st
  | OpDragStart taskId columnId => dragstart taskId columnId st
  | OpDragEnd => dragend st
  | OpDrop tgt => Optimistic.drop tgt st
  | OpGetOutputs _ => st
  end.

Definition run (ops : list Op) (st : State) : State :=
  fold_left (fun s op => apply_op op s) ops st.

(** The same for the baseline revision, whose [loadFromDataset] only logs. *)
Definition baseline_apply_op (op : Op) (st : State) : State :=
  match op with
  | OpInit ctx => state_of (Baseline.init ctx st)
  | OpUpdateView ctx => state_of (Baseline.updateView ctx st)
  | OpLoadFromDataset _ => st
  | OpLoadFromLegacyData parsed => state_of (Baseline.loadFromLegacyData parsed st)
  | OpMoveTask taskId src tgt => Baseline.moveTask taskId src tgt st
  | OpDragStart taskId columnId => dragstart taskId columnId st
  | OpDragEnd => dragend st
  | OpDrop tgt => Baseline.drop tgt st
  | OpGetOutputs _ => st
  end.

Definition baseline_run (ops : list Op) (st : State) : State :=
  fold_left (fun s op => baseline_apply_op op s) ops st.

Section Marker.













Lemma run_getOutputs_only nows st : run (map OpGetOutputs nows) st = st.
Proof. induction nows as [|now nows IH]; simpl; [done | apply IH]. Qed.

Lemma baseline_run_getOutputs_only nows st :
  baseline_run (map OpGetOutputs nows) st = st.
Proof. induction nows as [|now nows IH]; simpl; [done | apply IH]. Qed.

End Marker.











(** ** Board invariants *)

Section Invariants.

(** Every id listed in a column is a key of the task map. *)
Definition no_dangling (b : BoardData) : Prop :=
  forall cid tid, listed_in (columns b) cid tid -> is_Some (tasks b !! tid).

(** A task id is listed in at most one column, and at most once there. *)
Definition placed_once_cols (cols : gmap string Column) : Prop :=
  (forall cid c, cols !! cid = Some c -> NoDup (col_taskIds c))
  /\ (forall cid1 cid2 tid,
        listed_in cols cid1 tid -> listed_in cols cid2 tid -> cid1 = cid2).

Definition placed_once (b : BoardData) : Prop := placed_once_cols (columns b).

(** The first entry of [columnOrder], when it is a non-empty string, names a
    column of the board. *)
Definition head_resolves (order : list string) (cols : gmap string Column) : Prop :=
  forall c, truthy_attr (head order) = Some c -> is_Some (cols !! c).

Definition consistent (b : BoardData) : Prop :=
  no_dangling b /\ head_resolves (columnOrder b) (columns b).

Definition unlisted (cols : gmap string Column) : Prop :=
  forall cid c, cols !! cid = Some c -> col_taskIds c = [].

Lemma unlisted_not_listed cols cid tid :
  unlisted cols -> ~ listed_in cols cid tid.
Proof.
  intros Hu (c & Hc & Hin). rewrite (Hu cid c Hc) in Hin.
  by apply elem_of_nil in Hin.
Qed.

Lemma unlisted_placed_once cols : unlisted cols -> placed_once_cols cols.
Proof.
  intros Hu. split.
  - intros cid c Hc. rewrite (Hu cid c Hc). constructor.
  - intros cid1 cid2 tid H1. by apply unlisted_not_listed in H1.
Qed.

(** *** Pushing an id *)

Lemma push_taskId_lookup cid tid cols cid' c' :
  push_taskId cid tid cols !! cid' = Some c' ->
  exists c, cols !! cid' = Some c
    /\ ((cid' <> cid /\ c' = c)
        \/ (cid' = cid /\ c' = set_taskIds (col_taskIds c ++ [tid])%list c)).
Proof.
  unfold push_taskId. destruct (decide (cid = cid')) as [->|Hne].
  - rewrite lookup_alter_eq. destruct (cols !! cid') as [c|]; [|done].
    simpl. intros [= <-]. exists c. split; [done|]. by right.
  - rewrite lookup_alter_ne by done. intros H. exists c'. split; [done|].
    left. split; [congruence | done].
Qed.

Lemma push_taskId_listed_inv cid tid cols cid' tid' :
  listed_in (push_taskId cid tid cols) cid' tid' ->
  listed_in cols cid' tid' \/ (cid' = cid /\ tid' = tid).
Proof.
  intros (c' & Hc' & Hin).
  apply push_taskId_lookup in Hc' as (c & Hc & [[_ ->]|[-> ->]]).
  - left. by exists c.
  - simpl in Hin. apply elem_of_app in Hin as [Hin|Hin].
    + left. by exists c.
    + right. split; [done|]. by apply list_elem_of_singleton in Hin.
Qed.

Lemma push_taskId_keys cid tid cols cid' :
  is_Some (push_taskId cid tid cols !! cid') <-> is_Some (cols !! cid').
Proof. unfold push_taskId. apply lookup_alter_is_Some. Qed.

Lemma push_taskId_placed_once cid tid cols :
  placed_once_cols cols ->
  (forall cid', ~ listed_in cols cid' tid) ->
  placed_once_cols (push_taskId cid tid cols).
Proof.
  intros [Hnd Huniq] Hfresh. split.
  - intros cid' c' Hc'.
    apply push_taskId_lookup in Hc' as (c & Hc & [[_ ->]|[-> ->]]).
    + by eapply Hnd.
    + simpl. apply NoDup_app. split; [by eapply Hnd|]. split.
      * intros x Hx Hx'. apply list_elem_of_singleton in Hx' as ->.
        apply (Hfresh cid). by exists c.
      * apply NoDup_singleton.
  - intros cid1 cid2 tid' H1 H2.
    apply push_taskId_listed_inv in H1 as [H1|[-> ->]];
      apply push_taskId_listed_inv in H2 as [H2|[-> Heq]].
    + by eapply Huniq.
    + subst. by apply Hfresh in H1.
    + by apply Hfresh in H2.
    + done.
Qed.

(** *** The empty board *)

Lemma empty_columns_fold defs (cols0 : gmap string Column) cid :
  fold_left (fun cols colDef => <[def_id colDef := column_of_definition colDef]> cols)
    defs cols0 !! cid
  = match list_find (fun d => def_id d = cid) (reverse defs) with
    | Some (_, d) => Some (column_of_definition d)
    | None => cols0 !! cid
    end.
Proof.
  revert cols0. induction defs as [|d defs IH]; intros cols0; simpl; [done|].
  rewrite IH, reverse_cons. clear IH.
  destruct (list_find (fun d0 => def_id d0 = cid) (reverse defs)) as [[i d']|] eqn:Hf.
  - erewrite list_find_app_l by done. done.
  - rewrite list_find_app_r by done. simpl. case_decide as Hd.
    + simpl. subst. by rewrite lookup_insert_eq.
    + simpl. by rewrite lookup_insert_ne.
Qed.

Lemma empty_columns_unlisted defs : unlisted (empty_columns defs).
Proof.
  intros cid c. unfold empty_columns. rewrite empty_columns_fold.
  destruct (list_find _ _) as [[i d]|]; [|by rewrite lookup_empty].
  by intros [= <-].
Qed.

Lemma empty_columns_keys defs d :
  d ∈ defs -> is_Some (empty_columns defs !! def_id d).
Proof.
  intros Hin. unfold empty_columns. rewrite empty_columns_fold.
  destruct (list_find _ _) as [[i d']|] eqn:Hf; [by eexists|].
  apply list_find_None in Hf. rewrite Forall_forall in Hf.
  exfalso. apply (Hf d); [|done]. by apply elem_of_reverse.
Qed.



End Invariants.

(** *** Moves *)

Section MoveInvariants.

Lemma removes_first_subset x l l' y :
  removes_first x l l' -> y ∈ l' -> y ∈ l.
Proof.
  intros [[_ ->]|(l1 & l2 & -> & _ & ->)]; [done|].
  rewrite !elem_of_app, elem_of_cons. tauto.
Qed.

Lemma removes_first_NoDup x l l' :
  removes_first x l l' -> NoDup l -> NoDup l' /\ (x ∉ l').
Proof.
  intros [[Hx ->]|(l1 & l2 & -> & Hl1 & ->)] Hnd; [done|].
  apply NoDup_app in Hnd as (Hnd1 & Hdisj & Hnd2).
  apply NoDup_cons in Hnd2 as [Hx2 Hnd2]. split.
  - apply NoDup_app. split; [done|]. split; [|done].
    intros y Hy1 Hy2. apply (Hdisj y Hy1). by right.
  - rewrite elem_of_app. tauto.
Qed.

Variable mark : Task -> Task.
Variables taskId src tgt : string.
Variable st : State.
Variables sourceColumn targetColumn : Column.
Variable task : Task.
Hypothesis Hne : src <> tgt.
Hypothesis Hsrc : columns (_boardData st) !! src = Some sourceColumn.
Hypothesis Htgt : columns (_boardData st) !! tgt = Some targetColumn.
Hypothesis Htask : tasks (_boardData st) !! taskId = Some task.

Let st' := moveTask_with mark taskId src tgt st.

Lemma moved_lookup cid c' :
  columns (_boardData st') !! cid = Some c' ->
  (cid = tgt
   /\ c' = set_taskIds (col_taskIds targetColumn ++ [taskId])%list targetColumn)
  \/ (cid = src /\ c' = remove_from_source sourceColumn taskId)
  \/ (cid <> src /\ cid <> tgt /\ columns (_boardData st) !! cid = Some c').
Proof.
  unfold st'.
  rewrite (moveTask_with_passes mark taskId src tgt st _ _ _ Hne Hsrc Htgt Htask).
  simpl. destruct (decide (cid = tgt)) as [->|Hc1].
  - rewrite lookup_insert_eq. intros [= <-]. by left.
  - rewrite lookup_insert_ne by done. destruct (decide (cid = src)) as [->|Hc2].
    + rewrite lookup_insert_eq. intros [= <-]. right. by left.
    + rewrite lookup_insert_ne by done. intros H. right. by right.
Qed.




(** Where an id can be listed after the move. *)
Lemma moved_listed cid tid :
  listed_in (columns (_boardData st')) cid tid ->
  (cid = tgt /\ tid = taskId)
  \/ listed_in (columns (_boardData st)) cid tid.
Proof.
  intros (c' & Hc' & Hin).
  apply moved_lookup in Hc' as [[-> ->]|[[-> ->]|(H1 & H2 & Hc)]].
  - simpl in Hin. apply elem_of_app in Hin as [Hin|Hin].
    + right. by exists targetColumn.
    + left. split; [done|]. by apply list_elem_of_singleton in Hin.
  - right. exists sourceColumn. split; [done|].
    eapply removes_first_subset; [apply remove_from_source_taskIds | done].
  - right. by exists c'.
Qed.



(** The move keeps single placement when the task sits in the source column
    or in no column. *)
Lemma moved_placed_once :
  placed_once (_boardData st) ->
  listed_in (columns (_boardData st)) src taskId
  \/ (forall cid, ~ listed_in (columns (_boardData st)) cid taskId) ->
  placed_once (_boardData st').
Proof.
  intros [Hnd Huniq] Hwhere.
  assert (taskId ∉ col_taskIds targetColumn) as Hfresh.
  { intros Hin. destruct Hwhere as [Hs|Hnone].
    - apply Hne. apply (Huniq src tgt taskId Hs). by exists targetColumn.
    - apply (Hnone tgt). by exists targetColumn. }
  pose proof (removes_first_NoDup _ _ _
                (remove_from_source_taskIds sourceColumn taskId)
                (Hnd src sourceColumn Hsrc)) as [Hnd_src Hgone].
  assert (forall cid, listed_in (columns (_boardData st')) cid taskId -> cid = tgt)
    as Honly.
  { intros cid (c' & Hc' & Hin).
    apply moved_lookup in Hc' as [[-> _]|[[-> ->]|(H1 & H2 & Hc)]]; [done|done|].
    exfalso. destruct Hwhere as [Hs|Hnone].
    - apply H1. apply (Huniq cid src taskId); [by exists c' | done].
    - apply (Hnone cid). by exists c'. }
  split.
  - intros cid c' Hc'.
    apply moved_lookup in Hc' as [[-> ->]|[[-> ->]|(H1 & H2 & Hc)]].
    + simpl. apply NoDup_app. split; [by eapply Hnd|]. split.
      * intros x Hx Hx'. by apply list_elem_of_singleton in Hx' as ->.
      * apply NoDup_singleton.
    + done.
    + by eapply Hnd.
  - intros cid1 cid2 tid H1 H2.
    destruct (decide (tid = taskId)) as [->|Htid].
    + by rewrite (Honly cid1 H1), (Honly cid2 H2).
    + apply moved_listed in H1 as [[_ ->]|H1]; [done|].
      apply moved_listed in H2 as [[_ ->]|H2]; [done|].
      by eapply Huniq.
Qed.

End MoveInvariants.

Lemma moveTask_with_cases mark taskId src tgt st :
  moveTask_with mark taskId src tgt st = st
  \/ exists sourceColumn targetColumn task,
       src <> tgt
       /\ columns (_boardData st) !! src = Some sourceColumn
       /\ columns (_boardData st) !! tgt = Some targetColumn
       /\ tasks (_boardData st) !! taskId = Some task.
Proof.
  destruct (decide (src = tgt)) as [Heq|Hne].
  { left. apply moveTask_with_guard. by left. }
  destruct (columns (_boardData st) !! src) as [sc|] eqn:Hs;
    [|left; apply moveTask_with_guard; right; by left].
  destruct (columns (_boardData st) !! tgt) as [tc|] eqn:Ht;
    [|left; apply moveTask_with_guard; right; right; by left].
  destruct (tasks (_boardData st) !! taskId) as [task|] eqn:Hk;
    [|left; apply moveTask_with_guard; right; right; by right].
  right. by exists sc, tc, task.
Qed.


Lemma moveTask_with_placed_once mark taskId src tgt st :
  placed_once (_boardData st) ->
  listed_in (columns (_boardData st)) src taskId
  \/ (forall cid, ~ listed_in (columns (_boardData st)) cid taskId) ->
  placed_once (_boardData (moveTask_with mark taskId src tgt st)).
Proof.
  intros Hinv Hwhere.
  destruct (moveTask_with_cases mark taskId src tgt st)
    as [->|(sc & tc & task & Hne & Hs & Ht & Hk)]; [done|].
  by eapply moved_placed_once.
Qed.

(** *** Loads *)

Section LoadInvariants.

(** Every listed id is a key of [tks]. *)
Definition covered (tks : gmap string Task) (cols : gmap string Column) : Prop :=
  forall cid tid, listed_in cols cid tid -> is_Some (tks !! tid).

Lemma covered_insert tks cols i t :
  covered tks cols -> covered (<[i := t]> tks) cols.
Proof.
  intros H cid tid Hl. destruct (decide (tid = i)) as [->|Hne].
  - by rewrite lookup_insert_eq.
  - rewrite lookup_insert_ne by done. by eapply H.
Qed.

Lemma covered_insert_push tks cols cid i t :
  covered tks cols -> covered (<[i := t]> tks) (push_taskId cid i cols).
Proof.
  intros H cid' tid Hl.
  apply push_taskId_listed_inv in Hl as [Hl|[_ ->]].
  - by eapply covered_insert.
  - by rewrite lookup_insert_eq.
Qed.

Lemma clear_taskIds_unlisted cols : unlisted (Optimistic.clear_taskIds cols).
Proof.
  intros cid c. unfold Optimistic.clear_taskIds. rewrite lookup_fmap.
  destruct (cols !! cid) as [c0|]; [|done]. simpl. by intros [= <-].
Qed.

Lemma clear_taskIds_keys cols cid :
  is_Some (Optimistic.clear_taskIds cols !! cid) <-> is_Some (cols !! cid).
Proof.
  unfold Optimistic.clear_taskIds. rewrite lookup_fmap. apply fmap_is_Some.
Qed.

Variable defs : list ColumnDefinition.

(** The columns after [assign_column] are the columns before, or those with
    the task id pushed to one existing column. *)
Lemma assign_column_either order task cols :
  either (Optimistic.assign_column defs order task cols) = cols
  \/ exists cid, either (Optimistic.assign_column defs order task cols)
                 = push_taskId cid (task_id task) cols.
Proof.
  unfold Optimistic.assign_column.
  destruct (truthy_attr (getColumnIdByStatus defs (task_status task))) as [columnId|].
  - destruct (cols !! columnId); [right; by eexists|].
    destruct (truthy_attr (head order)) as [firstColId|]; [|by left].
    destruct (cols !! firstColId); [right; by eexists | by left].
  - destruct (truthy_attr (head order)) as [firstColId|]; [|by left].
    destruct (cols !! firstColId); [right; by eexists | by left].
Qed.

Lemma assign_column_returns order task cols :
  head_resolves order cols ->
  exists cols', Optimistic.assign_column defs order task cols = inl cols'.
Proof.
  intros Hh. unfold Optimistic.assign_column.
  destruct (truthy_attr (head order)) as [firstColId|] eqn:Hf.
  - destruct (Hh firstColId Hf) as [c Hc]. rewrite Hc.
    destruct (truthy_attr (getColumnIdByStatus defs (task_status task)))
      as [columnId|]; [|by eexists].
    destruct (cols !! columnId); by eexists.
  - destruct (truthy_attr (getColumnIdByStatus defs (task_status task)))
      as [columnId|]; [|by eexists].
    destruct (cols !! columnId); by eexists.
Qed.

Variable board : BoardData.
Variable records : gmap string EntityRecord.

(** The task ids of the records that are not skipped, in load order. *)
Fixpoint loaded_ids (ids : list string) : list string :=
  match ids with
  | [] => []
  | r :: rest =>
      if Optimistic.is_harness_mock (records !! r) then loaded_ids rest
      else task_id (incoming records r) :: loaded_ids rest
  end.

Lemma load_record_either r acc :
  let acc' := either (Optimistic.load_record defs board records r acc) in
  (Optimistic.is_harness_mock (records !! r) = true /\ acc' = acc)
  \/ (Optimistic.is_harness_mock (records !! r) = false
      /\ exists t, task_id t = task_id (incoming records r)
         /\ Optimistic.ld_tasks acc' = <[task_id t := t]> (Optimistic.ld_tasks acc)
         /\ (Optimistic.ld_columns acc' = Optimistic.ld_columns acc
             \/ exists cid, Optimistic.ld_columns acc'
                            = push_taskId cid (task_id t) (Optimistic.ld_columns acc))).
Proof.
  simpl. unfold Optimistic.load_record.
  destruct (Optimistic.is_harness_mock (records !! r)); [by left|]. right.
  split; [done|]. fold (incoming records r).
  set (t := Optimistic.reconcile _ _ _).
  exists t. split; [apply reconcile_id|].
  pose proof (assign_column_either (columnOrder board) t (Optimistic.ld_columns acc))
    as Hcols.
  destruct (Optimistic.assign_column defs (columnOrder board) t
              (Optimistic.ld_columns acc)); simpl in *; by split.
Qed.

Lemma load_record_returns r acc :
  head_resolves (columnOrder board) (Optimistic.ld_columns acc) ->
  exists acc', Optimistic.load_record defs board records r acc = inl acc'.
Proof.
  intros Hh. unfold Optimistic.load_record.
  destruct (Optimistic.is_harness_mock (records !! r)); [by eexists|].
  edestruct assign_column_returns as [cols' ->]; [done|]. by eexists.
Qed.

Lemma load_records_returns ids acc :
  head_resolves (columnOrder board) (Optimistic.ld_columns acc) ->
  exists acc', Optimistic.load_records defs board records ids acc = inl acc'.
Proof.
  revert acc. induction ids as [|r ids IH]; intros acc Hh; simpl; [by eexists|].
  destruct (load_record_returns r acc Hh) as [acc1 Hr]. rewrite Hr.
  apply IH. intros c Hc. apply (load_record_keys _ _ _ _ _ _ _ Hr). by apply Hh.
Qed.

Lemma load_records_covered ids acc acc' :
  covered (Optimistic.ld_tasks acc) (Optimistic.ld_columns acc) ->
  Optimistic.load_records defs board records ids acc = inl acc' ->
  covered (Optimistic.ld_tasks acc') (Optimistic.ld_columns acc').
Proof.
  revert acc. induction ids as [|r ids IH]; intros acc Hc; simpl.
  - by intros [= <-].
  - pose proof (load_record_either r acc) as He.
    destruct (Optimistic.load_record defs board records r acc) as [acc1|acc1];
      [|done].
    simpl in He. apply IH.
    destruct He as [[_ ->]|(_ & t & _ & -> & [->| [cid ->]])].
    + done.
    + by apply covered_insert.
    + by apply covered_insert_push.
Qed.

Lemma load_records_placed_once ids acc :
  placed_once_cols (Optimistic.ld_columns acc) ->
  (forall cid tid, listed_in (Optimistic.ld_columns acc) cid tid ->
                   tid ∉ loaded_ids ids) ->
  NoDup (loaded_ids ids) ->
  placed_once_cols
    (Optimistic.ld_columns (either (Optimistic.load_records defs board records ids acc))).
Proof.
  revert acc. induction ids as [|r ids IH]; intros acc Hp Hfresh Hnd; simpl; [done|].
  pose proof (load_record_either r acc) as He. simpl in He, Hfresh, Hnd.
  destruct He as [[Hmock Heq]|(Hmock & t & Hid & _ & Hcols)]; rewrite Hmock in *.
  - destruct (Optimistic.load_record defs board records r acc) as [acc1|acc1];
      simpl in Heq; subst acc1; [by apply IH | done].
  - apply NoDup_cons in Hnd as [Hnew Hnd].
    assert (placed_once_cols
              (Optimistic.ld_columns
                 (either (Optimistic.load_record defs board records r acc)))
            /\ forall cid tid,
                 listed_in (Optimistic.ld_columns
                    (either (Optimistic.load_record defs board records r acc)))
                   cid tid -> tid ∉ loaded_ids ids) as [Hp1 Hfresh1].
    { destruct Hcols as [->|[cid ->]].
      - split; [done|]. intros cid tid Hl.
        specialize (Hfresh cid tid Hl). by apply not_elem_of_cons in Hfresh as [_ ?].
      - rewrite Hid. split.
        + apply push_taskId_placed_once; [done|].
          intros cid' Hl. apply (Hfresh cid' _ Hl). left.
        + intros cid' tid Hl. apply push_taskId_listed_inv in Hl as [Hl|[_ ->]].
          * specialize (Hfresh cid' tid Hl).
            by apply not_elem_of_cons in Hfresh as [_ ?].
          * done. }
    destruct (Optimistic.load_record defs board records r acc) as [acc1|acc1];
      simpl in *; [by apply IH | done].
Qed.

End LoadInvariants.

(** *** The sample board *)

Lemma sample_board_columns cid c :
  columns sample_board !! cid = Some c ->
  (cid = "todo" /\ col_taskIds c = ["task-1"; "task-5"])
  \/ (cid = "inprogress" /\ col_taskIds c = ["task-2"; "task-6"])
  \/ (cid = "review" /\ col_taskIds c = ["task-3"])
  \/ (cid = "done" /\ col_taskIds c = ["task-4"]).
Proof.
  unfold sample_board. simpl. intros H.
  rewrite lookup_insert in H. case_decide; [injection H as <-; by left|].
  rewrite lookup_insert in H. case_decide; [injection H as <-; right; by left|].
  rewrite lookup_insert in H.
  case_decide; [injection H as <-; right; right; by left|].
  rewrite lookup_singleton in H.
  case_decide; [injection H as <-; right; right; by right | done].
Qed.

Lemma sample_board_listed cid tid :
  listed_in (columns sample_board) cid tid ->
  (cid, tid) ∈ [ ("todo", "task-1"); ("todo", "task-5"); ("inprogress", "task-2");
                 ("inprogress", "task-6"); ("review", "task-3"); ("done", "task-4") ].
Proof.
  intros (c & Hc & Hin).
  apply sample_board_columns in Hc as [[-> Hc]|[[-> Hc]|[[-> Hc]|[-> Hc]]]];
    rewrite Hc in Hin; clear Hc;
    repeat (apply elem_of_cons in Hin as [->|Hin]; [set_solver|]);
    by apply elem_of_nil in Hin.
Qed.

Lemma sample_board_consistent : consistent sample_board.
Proof.
  split.
  - intros cid tid Hl. apply sample_board_listed in Hl.
    repeat (apply elem_of_cons in Hl as [[= -> ->]|Hl];
            [apply (bool_decide_unpack _); vm_compute; exact I|]).
    by apply elem_of_nil in Hl.
  - intros c Hc. apply truthy_attr_Some in Hc as [Hc _]. simpl in Hc.
    injection Hc as <-. apply (bool_decide_unpack _). vm_compute. exact I.
Qed.

Lemma sample_board_placed_once : placed_once sample_board.
Proof.
  split.
  - intros cid c Hc.
    apply sample_board_columns in Hc as [[-> Hc]|[[-> Hc]|[[-> Hc]|[-> Hc]]]];
      rewrite Hc; apply (bool_decide_unpack _); vm_compute; exact I.
  - intros cid1 cid2 tid H1 H2.
    apply sample_board_listed in H1. apply sample_board_listed in H2.
    repeat (apply elem_of_cons in H1 as [[= -> ->]|H1];
            [repeat (apply elem_of_cons in H2 as [Heq|H2]; [by simplify_eq|]);
             by apply elem_of_nil in H2|]).
    by apply elem_of_nil in H1.
Qed.

(** *** Flat legacy lists *)

Section FlatLoad.

Variable defs : list ColumnDefinition.

Lemma load_flat_task_either task board :
  let b' := either (Optimistic.load_flat_task defs task board) in
  tasks b' = <[task_id task := task]> (tasks board)
  /\ columnOrder b' = columnOrder board
  /\ (columns b' = columns board
      \/ exists cid, columns b' = push_taskId cid (task_id task) (columns board)).
Proof.
  simpl. unfold Optimistic.load_flat_task.
  destruct (truthy_attr (getColumnIdByStatus defs (task_status task))) as [colId|];
    simpl; [|by auto].
  destruct (columns board !! colId); simpl; [|by auto].
  split; [done|]. split; [done|]. right. by eexists.
Qed.



Lemma load_flat_placed_once (l : list Task) board :
  placed_once board ->
  (forall cid tid, listed_in (columns board) cid tid -> tid ∉ map task_id l) ->
  NoDup (map task_id l) ->
  placed_once (either (Optimistic.load_flat defs l board)).
Proof.
  revert board. induction l as [|task l IH]; intros board Hp Hfresh Hnd; simpl;
    [done|].
  simpl in Hfresh, Hnd. apply NoDup_cons in Hnd as [Hnew Hnd].
  destruct (load_flat_task_either task board) as (_ & _ & Hc).
  assert (placed_once (either (Optimistic.load_flat_task defs task board))
          /\ forall cid tid,
               listed_in (columns (either (Optimistic.load_flat_task defs task board)))
                 cid tid -> tid ∉ map task_id l) as [Hp1 Hfresh1].
  { unfold placed_once. destruct Hc as [->|[cid ->]].
    - split; [done|]. intros cid tid Hl.
      specialize (Hfresh cid tid Hl). by apply not_elem_of_cons in Hfresh as [_ ?].
    - split.
      + apply push_taskId_placed_once; [done|].
        intros cid' Hl. apply (Hfresh cid' _ Hl). left.
      + intros cid' tid Hl. apply push_taskId_listed_inv in Hl as [Hl|[_ ->]].
        * specialize (Hfresh cid' tid Hl).
          by apply not_elem_of_cons in Hfresh as [_ ?].
        * done. }
  destruct (Optimistic.load_flat_task defs task board) as [b1|b1]; simpl in *;
    [by apply IH | done].
Qed.

End FlatLoad.

(** *** The loading methods *)


Lemma loadFromLegacyData_board parsed st :
  _boardData (Optimistic.loadFromLegacyData parsed st) =
    match parsed with
    | SyntaxError | ParsedNull => _boardData st
    | ParsedScalar => getEmptyBoardData (_columnDefinitions st)
    | ParsedArray l =>
        either (Optimistic.load_flat (_columnDefinitions st) l
                  (getEmptyBoardData (_columnDefinitions st)))
    | ParsedObject o => spread (getEmptyBoardData (_columnDefinitions st)) o
    end.
Proof.
  unfold Optimistic.loadFromLegacyData. destruct parsed; try done.
  by destruct (Optimistic.load_flat _ _ _).
Qed.

Lemma loadFromLegacyData_definitions parsed st :
  _columnDefinitions (Optimistic.loadFromLegacyData parsed st) = _columnDefinitions st.
Proof.
  unfold Optimistic.loadFromLegacyData. destruct parsed; try done.
  by destruct (Optimistic.load_flat _ _ _).
Qed.


Lemma loadFromDataset_consistent ctx st :
  head_resolves (columnOrder (_boardData st)) (columns (_boardData st)) ->
  exists st', Optimistic.loadFromDataset ctx st = Returned st'
              /\ consistent (_boardData st').
Proof.
  intros Hh. unfold Optimistic.loadFromDataset.
  assert (consistent (set_columns (Optimistic.clear_taskIds (columns (_boardData st)))
                        (_boardData st))) as Hcleared.
  { split.
    - intros cid tid Hl. simpl in Hl.
      by apply (unlisted_not_listed _ _ _ (clear_taskIds_unlisted _)) in Hl.
    - intros c Hc. simpl. apply clear_taskIds_keys. by apply Hh. }
  destruct (taskDataSet ctx) as [dataSet|]; [|by eexists].
  destruct (ds_sortedRecordIds dataSet) as [ids|]; [|by eexists].
  destruct (load_records_returns (_columnDefinitions st) (_boardData st)
              (ds_records dataSet) ids
              (Optimistic.mkLoading ∅
                 (columns (set_columns
                    (Optimistic.clear_taskIds (columns (_boardData st)))
                    (_boardData st))))
              (proj2 Hcleared)) as [acc Hacc].
  rewrite Hacc. eexists. split; [done|]. split.
  - assert (covered (Optimistic.ld_tasks acc) (Optimistic.ld_columns acc)) as Hcov.
    { apply (load_records_covered _ _ _ _ _ _) in Hacc; [done|].
      intros cid' tid' Hl'. simpl in Hl'.
      by apply (unlisted_not_listed _ _ _ (clear_taskIds_unlisted _)) in Hl'. }
    intros cid tid Hl. by apply (Hcov cid tid).
  - simpl. intros c Hc. apply (load_records_keys _ _ _ _ _ _ _ Hacc). simpl.
    apply clear_taskIds_keys. by apply Hh.
Qed.




(** ** No dangling ids along runs *)









(** ** Single placement *)

Lemma loadFromDataset_placed_once ctx st :
  (forall dataSet ids,
      taskDataSet ctx = Some dataSet -> ds_sortedRecordIds dataSet = Some ids ->
      NoDup (loaded_ids (ds_records dataSet) ids)) ->
  placed_once (_boardData (state_of (Optimistic.loadFromDataset ctx st))).
Proof.
  intros Hnd. unfold Optimistic.loadFromDataset.
  assert (placed_once_cols (Optimistic.clear_taskIds (columns (_boardData st))))
    as Hcleared by apply unlisted_placed_once, clear_taskIds_unlisted.
  destruct (taskDataSet ctx) as [dataSet|] eqn:Hd; [|done].
  destruct (ds_sortedRecordIds dataSet) as [ids|] eqn:Hi; [|done].
  specialize (Hnd dataSet ids eq_refl Hi).
  pose proof (load_records_placed_once (_columnDefinitions st) (_boardData st)
                (ds_records dataSet) ids
                (Optimistic.mkLoading ∅
                   (Optimistic.clear_taskIds (columns (_boardData st))))
                Hcleared) as Hp.
  simpl in Hp.
  destruct (Optimistic.load_records _ _ _ _ _) as [acc|acc]; simpl in *;
    (apply Hp; [|done]; intros cid tid Hl;
     by apply (unlisted_not_listed _ _ _ (clear_taskIds_unlisted _)) in Hl).
Qed.

Lemma loadFromLegacyData_flat_placed_once (l : list Task) st :
  NoDup (map task_id l) ->
  placed_once (_boardData (Optimistic.loadFromLegacyData (ParsedArray l) st)).
Proof.
  intros Hnd. rewrite loadFromLegacyData_board.
  apply load_flat_placed_once; [| |done].
  - apply unlisted_placed_once, empty_columns_unlisted.
  - intros cid tid Hl. simpl in Hl.
    by apply (unlisted_not_listed _ _ _ (empty_columns_unlisted _)) in Hl.
Qed.

(** Two dataset records that yield the same task id. *)
Definition duplicate_dataset : DataSet :=
  mkDataSet false (Some ["rec-1"; "rec-2"])
    (<[ "rec-1" := {[ "id" := "42"; "title" := "Write report"; "status" := "Todo" ]} ]>
       {[ "rec-2" := {[ "id" := "42"; "title" := "Write report"; "status" := "Done" ]} ]}).

(** C3 as stated fails. A move whose source column does not hold the task
    appends the id to the target although it stays where it was; a dataset
    load in which two records yield the same task id lists that id twice. *)
Lemma single_placement_counterexample :
  placed_once (_boardData sample_state)
  /\ ~ placed_once (_boardData (Optimistic.moveTask "task-1" "review" "done" sample_state))
  /\ ~ placed_once (_boardData (Baseline.moveTask "task-1" "review" "done" sample_state))
  /\ ~ placed_once
         (_boardData (state_of (Optimistic.loadFromDataset
                                  (mkContext (Some duplicate_dataset) None)
                                  sample_state))).
Proof.
  split; [|split; [|split]].
  - apply sample_board_placed_once.
  - intros [_ Huniq].
    assert ("todo" = "done") as Habs; [|done].
    apply (Huniq "todo" "done" "task-1").
    + eexists. split; [by vm_compute|]. simpl. left.
    + eexists. split; [by vm_compute|]. simpl. right. left.
  - intros [_ Huniq].
    assert ("todo" = "done") as Habs; [|done].
    apply (Huniq "todo" "done" "task-1").
    + eexists. split; [by vm_compute|]. simpl. left.
    + eexists. split; [by vm_compute|]. simpl. right. left.
  - intros [_ Huniq].
    assert ("todo" = "done") as Habs; [|done].
    apply (Huniq "todo" "done" "42").
    + eexists. split; [by vm_compute|]. simpl. left.
    + eexists. split; [by vm_compute|]. simpl. left.
Qed.

(** C3 (amended). The empty board and the sample board place every task id at
    most once. [moveTask] keeps that, in both revisions, when the task id is
    listed in the source column or in no column. A dataset load establishes it
    when no two loaded records yield the same task id, and a flat legacy list
    when its tasks have pairwise distinct ids. A legacy object bundle is
    installed as it is: the property holds afterwards exactly when it holds of
    the columns the bundle supplies. Unparsable, null and scalar legacy inputs
    keep it. *)
Theorem single_placement_preserved :
  (forall defs, placed_once (getEmptyBoardData defs))
  /\ placed_once sample_board
  /\ (forall taskId src tgt st,
        placed_once (_boardData st) ->
        listed_in (columns (_boardData st)) src taskId
        \/ (forall cid, ~ listed_in (columns (_boardData st)) cid taskId) ->
        placed_once (_boardData (Optimistic.moveTask taskId src tgt st))
        /\ placed_once (_boardData (Baseline.moveTask taskId src tgt st)))
  /\ (forall ctx st,
        (forall dataSet ids,
            taskDataSet ctx = Some dataSet -> ds_sortedRecordIds dataSet = Some ids ->
            NoDup (loaded_ids (ds_records dataSet) ids)) ->
        placed_once (_boardData (state_of (Optimistic.loadFromDataset ctx st))))
  /\ (forall (l : list Task) st,
        NoDup (map task_id l) ->
        placed_once (_boardData (Optimistic.loadFromLegacyData (ParsedArray l) st)))
  /\ (forall o st,
        placed_once (_boardData (Optimistic.loadFromLegacyData (ParsedObject o) st))
        <-> match bundle_columns o with
            | Some cols => placed_once_cols cols
            | None => True
            end)
  /\ (forall parsed st,
        parsed = SyntaxError \/ parsed = ParsedNull \/ parsed = ParsedScalar ->
        placed_once (_boardData st) ->
        placed_once (_boardData (Optimistic.loadFromLegacyData parsed st))).
Proof.
  split; [|split; [|split; [|split; [|split; [|split]]]]].
  - intros defs. apply unlisted_placed_once, empty_columns_unlisted.
  - apply sample_board_placed_once.
  - intros taskId src tgt st Hp Hwhere.
    split; by apply moveTask_with_placed_once.
  - apply loadFromDataset_placed_once.
  - apply loadFromLegacyData_flat_placed_once.
  - intros o st. rewrite loadFromLegacyData_board. unfold placed_once, spread. simpl.
    destruct (bundle_columns o) as [cols|]; simpl; [done|].
    split; [done|]. intros _. apply unlisted_placed_once, empty_columns_unlisted.
  - intros parsed st [-> | [-> | ->]] Hp; rewrite loadFromLegacyData_board; try done.
    apply unlisted_placed_once, empty_columns_unlisted.
Qed.

Lemma single_placement_preserved_witness :
  placed_once (_boardData (Optimistic.moveTask "task-1" "todo" "done" sample_state))
  /\ placed_once
       (_boardData (state_of (Optimistic.loadFromDataset
                                (mkContext (Some stale_dataset) None) moved_state)))
  /\ placed_once
       (_boardData (Optimistic.loadFromLegacyData
                      (ParsedArray [mkTask "t9" "Plan sprint" "Review" None None None
                                      None None None None None None None])
                      sample_state)).
Proof.
  destruct single_placement_preserved as (_ & Hsample & Hmove & Hds & Hflat & _).
  split; [|split].
  - apply Hmove.
    + exact Hsample.
    + left. eexists. split; [reflexivity|]. simpl. left.
  - apply Hds. intros dataSet ids Hd Hi.
    simpl in Hd. injection Hd as <-. simpl in Hi. injection Hi as <-.
    apply (bool_decide_unpack _). vm_compute. exact I.
  - apply Hflat. apply (bool_decide_unpack _). vm_compute. exact I.
Defined.

(** * Further properties *)

(** ** What [renderBoard] shows: properties *)

(** Dictionary keys agree with the [id] fields of the values. *)
Definition ids_agree (b : BoardData) : Prop :=
  (forall k c, columns b !! k = Some c -> col_id c = k)
  /\ (forall k t, tasks b !! k = Some t -> task_id t = k).

Section View.

Lemma renderBoard_column b cv :
  cv ∈ renderBoard b ->
  exists columnId column,
    columnId ∈ columnOrder b /\ columns b !! columnId = Some column
    /\ cv = createColumn b column.
Proof.
  unfold renderBoard. rewrite list_elem_of_omap.
  intros (columnId & Hin & Hc).
  destruct (columns b !! columnId) as [column|] eqn:Hcol; [|done].
  simpl in Hc. injection Hc as <-. by exists columnId, column.
Qed.

Lemma createTasksContainer_card b column tid :
  tid ∈ createTasksContainer b column ->
  exists taskId task,
    taskId ∈ col_taskIds column /\ tasks b !! taskId = Some task
    /\ tid = task_id task.
Proof.
  unfold createTasksContainer. rewrite list_elem_of_omap.
  intros (taskId & Hin & Ht).
  destruct (tasks b !! taskId) as [task|] eqn:Htask; [|done].
  simpl in Ht. injection Ht as <-. by exists taskId, task.
Qed.

(** On a board whose keys agree with the ids, a rendered card names a task
    that exists and is listed in the column named by the card's container. *)
Lemma rendered_card_listed b cv tid :
  ids_agree b ->
  cv ∈ renderBoard b -> tid ∈ view_cards cv ->
  listed_in (columns b) (view_column_id cv) tid
  /\ is_Some (tasks b !! tid)
  /\ view_column_id cv ∈ columnOrder b.
Proof.
  intros [Hcols Htasks] Hcv Hcard.
  apply renderBoard_column in Hcv as (columnId & column & Hord & Hcol & ->).
  simpl in *. apply createTasksContainer_card in Hcard
    as (taskId & task & Hin & Htask & ->).
  rewrite (Hcols _ _ Hcol), (Htasks _ _ Htask).
  split; [by exists column|]. split; [by exists task | done].
Qed.

Lemma rendered_column_exists b cv :
  ids_agree b -> cv ∈ renderBoard b ->
  exists column, columns b !! view_column_id cv = Some column
                 /\ view_title cv = col_title column.
Proof.
  intros [Hcols _] Hcv.
  apply renderBoard_column in Hcv as (columnId & column & Hord & Hcol & ->).
  simpl. rewrite (Hcols _ _ Hcol). by exists column.
Qed.

End View.

(** ** What a move leaves alone *)

Section MoveFrame.

(** The fields a move never writes. *)
Definition same_task_but_status (t t' : Task) : Prop :=
  task_id t' = task_id t /\ task_title t' = task_title t
  /\ task_priority t' = task_priority t /\ task_assignedTo t' = task_assignedTo t
  /\ task_dueDate t' = task_dueDate t /\ task_description t' = task_description t
  /\ task_recordId t' = task_recordId t
  /\ task_authorFirstName t' = task_authorFirstName t
  /\ task_authorLastName t' = task_authorLastName t
  /\ task_authorEmail t' = task_authorEmail t
  /\ task_authorAvatar t' = task_authorAvatar t.

Definition same_column_but_taskIds (c c' : Column) : Prop :=
  col_id c' = col_id c /\ col_title c' = col_title c
  /\ col_statusValues c' = col_statusValues c /\ col_color c' = col_color c.

Definition move_frame (st st' : State) : Prop :=
  (forall k, is_Some (tasks (_boardData st') !! k)
             <-> is_Some (tasks (_boardData st) !! k))
  /\ (forall k, is_Some (columns (_boardData st') !! k)
                <-> is_Some (columns (_boardData st) !! k))
  /\ columnOrder (_boardData st') = columnOrder (_boardData st)
  /\ (forall k c c', columns (_boardData st) !! k = Some c ->
                     columns (_boardData st') !! k = Some c' ->
                     same_column_but_taskIds c c')
  /\ (forall k t t', tasks (_boardData st) !! k = Some t ->
                     tasks (_boardData st') !! k = Some t' ->
                     same_task_but_status t t')
  /\ _draggedTaskId st' = _draggedTaskId st
  /\ _sourceColumnId st' = _sourceColumnId st
  /\ _columnDefinitions st' = _columnDefinitions st.

Lemma same_task_refl t : same_task_but_status t t.
Proof. by repeat split. Qed.

Lemma same_column_refl c : same_column_but_taskIds c c.
Proof. by repeat split. Qed.

Lemma move_frame_refl st : move_frame st st.
Proof.
  unfold move_frame. split; [done|]. split; [done|]. split; [done|].
  split; [|split; [|done]].
  - intros k c c' H1 H2. rewrite H1 in H2. injection H2 as <-. apply same_column_refl.
  - intros k t t' H1 H2. rewrite H1 in H2. injection H2 as <-. apply same_task_refl.
Qed.

Lemma moveTask_with_frame mark taskId src tgt st :
  (forall t, same_task_but_status t (mark t)) ->
  move_frame st (moveTask_with mark taskId src tgt st).
Proof.
  intros Hmark.
  destruct (moveTask_with_cases mark taskId src tgt st)
    as [->|(sc & tc & task & Hne & Hs & Ht & Hk)]; [apply move_frame_refl|].
  rewrite (moveTask_with_passes mark taskId src tgt st _ _ _ Hne Hs Ht Hk).
  unfold move_frame. simpl.
  split; [|split; [|split; [done|split; [|split; [|done]]]]].
  - intros k. destruct (decide (k = taskId)) as [->|Hk'].
    + rewrite lookup_insert_eq, Hk. split; by eexists.
    + by rewrite lookup_insert_ne.
  - intros k. destruct (decide (k = tgt)) as [->|Hk1].
    + rewrite lookup_insert_eq, Ht. split; by eexists.
    + rewrite lookup_insert_ne by done. destruct (decide (k = src)) as [->|Hk2].
      * rewrite lookup_insert_eq, Hs. split; by eexists.
      * by rewrite lookup_insert_ne.
  - intros k c c' Hc. destruct (decide (k = tgt)) as [->|Hk1].
    + rewrite lookup_insert_eq. intros [= <-]. rewrite Ht in Hc. injection Hc as <-.
      by repeat split.
    + rewrite lookup_insert_ne by done. destruct (decide (k = src)) as [->|Hk2].
      * rewrite lookup_insert_eq. intros [= <-]. rewrite Hs in Hc. injection Hc as <-.
        apply remove_from_source_fields.
      * rewrite lookup_insert_ne by done. intros Hc'. rewrite Hc in Hc'.
        injection Hc' as <-. apply same_column_refl.
  - intros k t t' Hkt. destruct (decide (k = taskId)) as [->|Hk'].
    + rewrite lookup_insert_eq. intros [= <-]. rewrite Hk in Hkt. injection Hkt as <-.
      destruct (Hmark (set_status (new_status tc) task))
        as (H1 & H2 & H3 & H4 & H5 & H6 & H7 & H8 & H9 & H10 & H11).
      unfold same_task_but_status.
      rewrite H1, H2, H3, H4, H5, H6, H7, H8, H9, H10, H11. by repeat split.
    + rewrite lookup_insert_ne by done. intros Hkt'. rewrite Hkt in Hkt'.
      injection Hkt' as <-. apply same_task_refl.
Qed.

End MoveFrame.

(** X1. Whatever its arguments, [moveTask] keeps the set of task keys, the set
    of column keys and the column order; it changes no column field other than
    [taskIds] and no task field other than [status] and [isOptimistic]; it
    leaves the drag session and the column definitions alone. Both revisions. *)
Theorem moveTask_frame (taskId src tgt : string) (st : State) :
  move_frame st (Optimistic.moveTask taskId src tgt st)
  /\ move_frame st (Baseline.moveTask taskId src tgt st).
Proof.
  split; apply moveTask_with_frame; intros t; by repeat split.
Qed.

(** ** Dragging a rendered card onto a rendered column *)

Section DragOnView.

Lemma move_frame_ids_agree st st' :
  move_frame st st' -> ids_agree (_boardData st) -> ids_agree (_boardData st').
Proof.
  intros (Hkt & Hkc & _ & Hc & Ht & _) [Hcols Htasks]. split.
  - intros k c' Hc'. destruct (proj1 (Hkc k) (mk_is_Some _ _ Hc')) as [c Hck].
    destruct (Hc k c c' Hck Hc') as (-> & _). by apply Hcols.
  - intros k t' Ht'. destruct (proj1 (Hkt k) (mk_is_Some _ _ Ht')) as [t Htk].
    destruct (Ht k t t' Htk Ht') as (-> & _). by apply Htasks.
Qed.

Variable mark : Task -> Task.
Hypothesis Hmark : forall t, same_task_but_status t (mark t).

Variable st : State.
Variables cv cvt : ColumnView.
Variable tid : string.
Hypothesis Hagree : ids_agree (_boardData st).
Hypothesis Hplaced : placed_once (_boardData st).
Hypothesis Hcv : cv ∈ renderBoard (_boardData st).
Hypothesis Hcard : tid ∈ view_cards cv.
Hypothesis Hcvt : cvt ∈ renderBoard (_boardData st).

Let st' := moveTask_with mark tid (view_column_id cv) (view_column_id cvt) st.

Lemma drag_kept_invariants :
  ids_agree (_boardData st') /\ placed_once (_boardData st').
Proof.
  split.
  - eapply move_frame_ids_agree; [|done]. by apply moveTask_with_frame.
  - apply moveTask_with_placed_once; [done|]. left.
    by apply (rendered_card_listed _ _ _ Hagree Hcv Hcard).
Qed.

Hypothesis Hother : view_column_id cvt <> view_column_id cv.

Lemma drag_moved :
  listed_in (columns (_boardData st')) (view_column_id cvt) tid
  /\ ~ listed_in (columns (_boardData st')) (view_column_id cv) tid
  /\ notifications st' = S (notifications st)
  /\ exists cvt', cvt' ∈ renderBoard (_boardData st')
                  /\ view_column_id cvt' = view_column_id cvt
                  /\ view_title cvt' = view_title cvt
                  /\ view_cards cvt' = (view_cards cvt ++ [tid])%list.
Proof.
  destruct (rendered_card_listed _ _ _ Hagree Hcv Hcard)
    as ((sc & Hsc & Hin) & (task & Htask) & _).
  pose proof Hcvt as Hcvt'.
  apply renderBoard_column in Hcvt' as (k & tc & Hord & Htc & Heq).
  assert (col_id tc = k) as Hk by (by apply (proj1 Hagree)).
  assert (view_column_id cvt = k) as Hvk by (by rewrite Heq).
  assert (view_column_id cv <> k) as Hne by congruence.
  assert (task_id task = tid) as Htid by (by apply (proj2 Hagree)).
  destruct drag_kept_invariants as [_ [Hnd Huniq]].
  assert (listed_in (columns (_boardData st')) (view_column_id cvt) tid) as Hl.
  { unfold st'. rewrite Hvk.
    rewrite (moveTask_with_passes mark tid _ k st _ _ _ Hne Hsc Htc Htask).
    simpl. eexists. rewrite lookup_insert_eq. split; [done|].
    simpl. unfold JS.push. apply elem_of_app. right. left. }
  split; [done|]. split; [|split].
  - intros Hl'. apply Hother. by apply (Huniq _ _ tid).
  - unfold st'. rewrite Hvk.
    by rewrite (moveTask_with_passes mark tid _ k st _ _ _ Hne Hsc Htc Htask).
  - exists (mkColumnView (view_column_id cvt) (view_title cvt)
              (S (view_count cvt)) (view_cards cvt ++ [tid])%list).
    split; [|done]. unfold st'. rewrite Hvk.
    rewrite (moveTask_with_passes mark tid _ k st _ _ _ Hne Hsc Htc Htask).
    unfold renderBoard. simpl. apply list_elem_of_omap. exists k. split; [done|].
    rewrite lookup_insert_eq. simpl. f_equal. rewrite Heq.
    unfold createColumn. simpl. unfold JS.push. f_equal.
    + done.
    + rewrite length_app. simpl. lia.
    + unfold createTasksContainer. simpl. rewrite omap_app. simpl.
      rewrite lookup_insert_eq. simpl.
      destruct (Hmark (set_status (new_status tc) task)) as (-> & _).
      simpl. rewrite Htid. f_equal.
      apply list_omap_ext. apply Forall2_same_length_lookup_2; [done|].
      intros i x y Hx Hy. rewrite Hx in Hy. injection Hy as <-.
      destruct (decide (x = tid)) as [->|Hx'].
      * rewrite lookup_insert_eq, Htask. simpl.
        destruct (Hmark (set_status (new_status tc) task)) as (-> & _). done.
      * by rewrite lookup_insert_ne.
Qed.

End DragOnView.

(** The card [tid] went from the column of [cv] to the end of the column of
    [cvt], with one call of the host callback. *)
Definition card_moved (st st' : State) (cv cvt : ColumnView) (tid : string) : Prop :=
  listed_in (columns (_boardData st')) (view_column_id cvt) tid
  /\ ~ listed_in (columns (_boardData st')) (view_column_id cv) tid
  /\ notifications st' = S (notifications st)
  /\ exists cvt', cvt' ∈ renderBoard (_boardData st')
                  /\ view_column_id cvt' = view_column_id cvt
                  /\ view_title cvt' = view_title cvt
                  /\ view_cards cvt' = (view_cards cvt ++ [tid])%list.

Lemma drop_on_view_is_move (st : State) (src tgt tid : string) :
  let dragging := dragstart (Some tid) (Some src) st in
  (Optimistic.drop (Some tgt) dragging = dragging
   \/ Optimistic.drop (Some tgt) dragging = Optimistic.moveTask tid src tgt dragging)
  /\ (Baseline.drop (Some tgt) dragging = dragging
      \/ Baseline.drop (Some tgt) dragging = Baseline.moveTask tid src tgt dragging)
  /\ (tid <> "" -> src <> "" -> tgt <> "" -> src <> tgt ->
      Optimistic.drop (Some tgt) dragging = Optimistic.moveTask tid src tgt dragging
      /\ Baseline.drop (Some tgt) dragging = Baseline.moveTask tid src tgt dragging).
Proof.
  simpl. unfold Optimistic.drop, Baseline.drop. simpl.
  split; [|split].
  - destruct (JS.truthy tid); simpl; [|by left].
    destruct (JS.truthy src); simpl; [|by left].
    destruct (JS.truthy tgt); simpl; [|by left].
    destruct (String.eqb src tgt); [by left | by right].
  - destruct (JS.truthy tid); simpl; [|by left].
    destruct (JS.truthy src); simpl; [|by left].
    destruct (JS.truthy tgt); simpl; [|by left].
    by right.
  - intros H1 H2 H3 H4. unfold JS.truthy.
    apply String.eqb_neq in H1, H2, H3, H4. rewrite H1, H2, H3. simpl.
    by rewrite H4.
Qed.

Lemma sample_board_ids_agree : ids_agree sample_board.
Proof.
  split.
  - change (map_Forall (fun k c => col_id c = k) (columns sample_board)).
    apply (bool_decide_unpack _). vm_compute. exact I.
  - change (map_Forall (fun k t => task_id t = k) (tasks sample_board)).
    apply (bool_decide_unpack _). vm_compute. exact I.
Qed.

Lemma sample_board_rendered :
  renderBoard (_boardData sample_state)
  = [ mkColumnView "todo" "To Do" 2 ["task-1"; "task-5"];
      mkColumnView "inprogress" "In Progress" 2 ["task-2"; "task-6"];
      mkColumnView "review" "Review" 1 ["task-3"];
      mkColumnView "done" "Done" 1 ["task-4"] ].
Proof. vm_compute. reflexivity. Qed.

(** X2. On a board whose keys agree with the ids and where every task id is
    placed once, drag a card shown by [renderBoard] and drop it on a column
    shown by [renderBoard]. Whatever the target, keys still agree with ids and
    every id is still placed once. If the ids involved are non-empty and the
    target is another column, the card leaves its column and is appended to
    the cards of the target column, and the host callback is called once.
    Both revisions. *)
Theorem drag_and_drop_on_rendered_board
  (st : State) (cv cvt : ColumnView) (tid : string) :
  ids_agree (_boardData st) ->
  placed_once (_boardData st) ->
  cv ∈ renderBoard (_boardData st) ->
  tid ∈ view_cards cv ->
  cvt ∈ renderBoard (_boardData st) ->
  let dragging := dragstart (Some tid) (Some (view_column_id cv)) st in
  let dropped := Optimistic.drop (Some (view_column_id cvt)) dragging in
  let dropped0 := Baseline.drop (Some (view_column_id cvt)) dragging in
  ids_agree (_boardData dropped) /\ placed_once (_boardData dropped)
  /\ ids_agree (_boardData dropped0) /\ placed_once (_boardData dropped0)
  /\ (tid <> "" -> view_column_id cv <> "" -> view_column_id cvt <> "" ->
      view_column_id cvt <> view_column_id cv ->
      card_moved st dropped cv cvt tid /\ card_moved st dropped0 cv cvt tid).
Proof.
  intros Hagree Hplaced Hcv Hcard Hcvt dragging dropped dropped0.
  destruct (drop_on_view_is_move st (view_column_id cv)
              (view_column_id cvt) tid) as (Ho & Hb & Hmoves).
  fold dragging in Ho, Hb, Hmoves. fold dropped in Ho, Hmoves.
  fold dropped0 in Hb, Hmoves.
  assert (forall t, same_task_but_status t (set_isOptimistic true t)) as Hm1
    by (intros t; by repeat split).
  assert (forall t, same_task_but_status t ((fun t => t) t)) as Hm0
    by (intros t; by repeat split).
  pose proof (drag_kept_invariants _ Hm1 dragging cv cvt tid Hagree Hplaced Hcv Hcard)
    as [Ha1 Hp1].
  pose proof (drag_kept_invariants _ Hm0 dragging cv cvt tid Hagree Hplaced Hcv Hcard)
    as [Ha0 Hp0].
  split; [|split; [|split; [|split]]].
  - destruct Ho as [->| ->]; done.
  - destruct Ho as [->| ->]; done.
  - destruct Hb as [->| ->]; done.
  - destruct Hb as [->| ->]; done.
  - intros H1 H2 H3 H4. destruct (Hmoves H1 H2 H3) as [-> ->]; [congruence|].
    split.
    + apply (drag_moved _ Hm1 dragging cv cvt tid Hagree Hplaced Hcv Hcard Hcvt H4).
    + apply (drag_moved _ Hm0 dragging cv cvt tid Hagree Hplaced Hcv Hcard Hcvt H4).
Qed.

Lemma drag_and_drop_on_rendered_board_witness :
  card_moved sample_state
    (Optimistic.drop (Some "done")
       (dragstart (Some "task-1") (Some "todo") sample_state))
    (mkColumnView "todo" "To Do" 2 ["task-1"; "task-5"])
    (mkColumnView "done" "Done" 1 ["task-4"])
    "task-1".
Proof.
  apply (drag_and_drop_on_rendered_board sample_state
           (mkColumnView "todo" "To Do" 2 ["task-1"; "task-5"])
           (mkColumnView "done" "Done" 1 ["task-4"]) "task-1").
  - apply sample_board_ids_agree.
  - apply sample_board_placed_once.
  - rewrite sample_board_rendered. left.
  - simpl. left.
  - rewrite sample_board_rendered. do 3 right. left.
  - discriminate.
  - discriminate.
  - discriminate.
  - discriminate.
Defined.

(** ** More on dataset loads *)

Section DatasetMore.

Variable defs : list ColumnDefinition.
Variable board : BoardData.
Variable records : gmap string EntityRecord.

(** Column structure: same keys, and per key the same fields but [taskIds]. *)
Definition same_structure (cols cols' : gmap string Column) : Prop :=
  (forall k, is_Some (cols' !! k) <-> is_Some (cols !! k))
  /\ (forall k c c', cols !! k = Some c -> cols' !! k = Some c' ->
                     same_column_but_taskIds c c').

Lemma same_structure_refl cols : same_structure cols cols.
Proof.
  split; [done|]. intros k c c' H1 H2. rewrite H1 in H2. injection H2 as <-.
  apply same_column_refl.
Qed.

Lemma same_structure_trans cols1 cols2 cols3 :
  same_structure cols1 cols2 -> same_structure cols2 cols3 ->
  same_structure cols1 cols3.
Proof.
  intros [Hk1 Hc1] [Hk2 Hc2]. split.
  - intros k. by rewrite Hk2, Hk1.
  - intros k c c'' H1 H3.
    destruct (proj2 (Hk1 k) (mk_is_Some _ _ H1)) as [c' H2].
    destruct (Hc1 k c c' H1 H2) as (E1 & E2 & E3 & E4).
    destruct (Hc2 k c' c'' H2 H3) as (F1 & F2 & F3 & F4).
    unfold same_column_but_taskIds. by rewrite F1, F2, F3, F4.
Qed.

Lemma push_taskId_structure cid tid cols :
  same_structure cols (push_taskId cid tid cols).
Proof.
  split; [apply push_taskId_keys|].
  intros k c c' Hc Hc'.
  apply push_taskId_lookup in Hc' as (c0 & Hc0 & [[_ ->]|[_ ->]]);
    rewrite Hc in Hc0; injection Hc0 as <-; by repeat split.
Qed.

Lemma clear_taskIds_structure cols :
  same_structure cols (Optimistic.clear_taskIds cols).
Proof.
  split; [apply clear_taskIds_keys|].
  intros k c c'. unfold Optimistic.clear_taskIds. rewrite lookup_fmap.
  intros ->. simpl. intros [= <-]. by repeat split.
Qed.

Lemma load_records_structure ids acc :
  same_structure (Optimistic.ld_columns acc)
    (Optimistic.ld_columns (either (Optimistic.load_records defs board records ids acc))).
Proof.
  revert acc. induction ids as [|r ids IH]; intros acc; simpl;
    [apply same_structure_refl|].
  pose proof (load_record_either defs board records r acc) as He.
  assert (same_structure (Optimistic.ld_columns acc)
            (Optimistic.ld_columns
               (either (Optimistic.load_record defs board records r acc)))) as Hs.
  { destruct He as [[_ ->]|(_ & t & _ & _ & [->|[cid ->]])].
    - apply same_structure_refl.
    - apply same_structure_refl.
    - apply push_taskId_structure. }
  destruct (Optimistic.load_record defs board records r acc) as [acc1|acc1];
    simpl in *; [|done].
  eapply same_structure_trans; [exact Hs | apply IH].
Qed.

(** The keys of the local task object after the loop. *)
Lemma load_records_task_keys ids acc acc' i :
  Optimistic.load_records defs board records ids acc = inl acc' ->
  is_Some (Optimistic.ld_tasks acc' !! i)
  <-> is_Some (Optimistic.ld_tasks acc !! i) \/ i ∈ loaded_ids records ids.
Proof.
  revert acc. induction ids as [|r ids IH]; intros acc; simpl.
  - intros [= <-]. split; [by left|]. intros [H|H]; [done|].
    by apply elem_of_nil in H.
  - pose proof (load_record_either defs board records r acc) as He.
    destruct (Optimistic.load_record defs board records r acc) as [acc1|acc1];
      [|done].
    simpl in He. intros Hrest. rewrite (IH acc1 Hrest).
    destruct He as [[Hmock ->]|(Hmock & t & Hid & Ht & _)]; rewrite Hmock.
    + done.
    + rewrite Ht, Hid, elem_of_cons.
      destruct (decide (i = task_id (incoming records r))) as [->|Hne].
      * rewrite lookup_insert_eq. split; intros _; [right; by left | left; by eexists].
      * rewrite lookup_insert_ne by done. split; intros [H|H]; auto.
        destruct H as [H|H]; [done | by right].
Qed.

(** With a usable first column every loaded id ends up listed. *)
Lemma assign_column_lists order task cols first :
  truthy_attr (head order) = Some first -> is_Some (cols !! first) ->
  exists cid, is_Some (cols !! cid)
    /\ Optimistic.assign_column defs order task cols
       = inl (push_taskId cid (task_id task) cols).
Proof.
  intros Hf [c Hc]. unfold Optimistic.assign_column. rewrite Hf, Hc.
  destruct (truthy_attr (getColumnIdByStatus defs (task_status task)))
    as [columnId|]; [|exists first; by split].
  destruct (cols !! columnId) as [c'|] eqn:Hc'.
  - exists columnId. by split.
  - exists first. by split.
Qed.

Lemma load_records_all_listed ids acc acc' first :
  truthy_attr (head (columnOrder board)) = Some first ->
  is_Some (Optimistic.ld_columns acc !! first) ->
  Optimistic.load_records defs board records ids acc = inl acc' ->
  forall i, i ∈ loaded_ids records ids ->
            exists cid, listed_in (Optimistic.ld_columns acc') cid i.
Proof.
  intros Hf. revert acc. induction ids as [|r ids IH]; intros acc Hfirst; simpl.
  - intros _ i Hi. by apply elem_of_nil in Hi.
  - destruct (Optimistic.load_record defs board records r acc) as [acc1|acc1] eqn:Hr;
      [|done].
    intros Hrest i Hi.
    assert (is_Some (Optimistic.ld_columns acc1 !! first)) as Hfirst1
      by (by apply (load_record_keys _ _ _ _ _ _ _ Hr)).
    destruct (Optimistic.is_harness_mock (records !! r)) eqn:Hmock;
      [by apply (IH acc1)|].
    apply elem_of_cons in Hi as [->|Hi]; [|by apply (IH acc1)].
    unfold Optimistic.load_record in Hr. rewrite Hmock in Hr.
    fold (incoming records r) in Hr.
    edestruct (assign_column_lists (columnOrder board)) as (cid & Hcid & Ha);
      [exact Hf | exact Hfirst |].
    rewrite Ha in Hr. injection Hr as <-.
    exists cid. eapply load_records_listed; [exact Hrest|]. simpl.
    rewrite reconcile_id. by apply push_taskId_lists.
Qed.

(** On a board without columns nothing is listed and the load returns. *)
Lemma load_records_no_columns ids tks :
  columnOrder board = [] ->
  exists tks',
    Optimistic.load_records defs board records ids (Optimistic.mkLoading tks ∅)
    = inl (Optimistic.mkLoading tks' ∅).
Proof.
  intros Hord. revert tks. induction ids as [|r ids IH]; intros tks; simpl;
    [by eexists|].
  unfold Optimistic.load_record.
  destruct (Optimistic.is_harness_mock (records !! r)); [apply IH|].
  unfold Optimistic.assign_column. rewrite Hord. simpl.
  destruct (truthy_attr (getColumnIdByStatus defs _)) as [columnId|]; simpl.
  - rewrite lookup_empty. apply IH.
  - apply IH.
Qed.

End DatasetMore.

Lemma load_records_task_ids defs board records ids acc acc' i t :
  Optimistic.load_records defs board records ids acc = inl acc' ->
  Optimistic.ld_tasks acc' !! i = Some t ->
  Optimistic.ld_tasks acc !! i = Some t \/ task_id t = i.
Proof.
  revert acc. induction ids as [|r ids IH]; intros acc; simpl.
  - intros [= <-]. by left.
  - pose proof (load_record_either defs board records r acc) as He.
    destruct (Optimistic.load_record defs board records r acc) as [acc1|acc1];
      [|done].
    simpl in He. intros Hrest Ht.
    destruct (IH acc1 Hrest Ht) as [H1|H1]; [|by right].
    destruct He as [[_ ->]|(_ & t0 & _ & Htk & _)]; [by left|].
    rewrite Htk in H1. destruct (decide (i = task_id t0)) as [->|Hne].
    + rewrite lookup_insert_eq in H1. injection H1 as <-. by right.
    + rewrite lookup_insert_ne in H1 by done. by left.
Qed.

(** X3. A dataset load, whether it returns or throws, keeps the column
    structure: the same column keys, per column the same id, title, aliases
    and colour, the same column order. It does not touch the drag session,
    the last-moved marker, the column definitions or the host callback. *)
Theorem loadFromDataset_keeps_structure (ctx : Context) (st : State) :
  let st' := state_of (Optimistic.loadFromDataset ctx st) in
  same_structure (columns (_boardData st)) (columns (_boardData st'))
  /\ columnOrder (_boardData st') = columnOrder (_boardData st)
  /\ _draggedTaskId st' = _draggedTaskId st
  /\ _sourceColumnId st' = _sourceColumnId st
  /\ _lastUpdatedTask st' = _lastUpdatedTask st
  /\ _columnDefinitions st' = _columnDefinitions st
  /\ notifications st' = notifications st.
Proof.
  simpl. unfold Optimistic.loadFromDataset.
  pose proof (clear_taskIds_structure (columns (_boardData st))) as Hclear.
  destruct (taskDataSet ctx) as [dataSet|]; [|by split].
  destruct (ds_sortedRecordIds dataSet) as [ids|]; [|by split].
  pose proof (load_records_structure (_columnDefinitions st) (_boardData st)
                (ds_records dataSet) ids
                (Optimistic.mkLoading ∅
                   (Optimistic.clear_taskIds (columns (_boardData st))))) as Hs.
  simpl in Hs.
  destruct (Optimistic.load_records _ _ _ _ _) as [acc|acc]; simpl in *;
    (split; [by eapply same_structure_trans|done]).
Qed.

Lemma loadFromDataset_task_keys
  (ctx : Context) (st st' : State) (dataSet : DataSet) (ids : list string) :
  taskDataSet ctx = Some dataSet ->
  ds_sortedRecordIds dataSet = Some ids ->
  Optimistic.loadFromDataset ctx st = Returned st' ->
  forall i, is_Some (tasks (_boardData st') !! i)
            <-> i ∈ loaded_ids (ds_records dataSet) ids.
Proof.
  intros Hd Hi. unfold Optimistic.loadFromDataset. rewrite Hd, Hi.
  destruct (Optimistic.load_records _ _ _ _ _) as [acc|acc] eqn:Hload; [|done].
  intros [= <-]. simpl.
  intros i. rewrite (load_records_task_keys _ _ _ _ _ _ _ Hload). simpl.
  rewrite lookup_empty. split; [|by right].
  intros [[x Hx]|H]; done.
Qed.

(** X4. After a dataset load that returns, the task map holds exactly the task
    ids yielded by the records that were not skipped, each under its own id:
    tasks absent from the snapshot are gone, whatever their optimistic flag. *)
Theorem loadFromDataset_task_map
  (ctx : Context) (st st' : State) (dataSet : DataSet) (ids : list string) :
  taskDataSet ctx = Some dataSet ->
  ds_sortedRecordIds dataSet = Some ids ->
  Optimistic.loadFromDataset ctx st = Returned st' ->
  (forall i, is_Some (tasks (_boardData st') !! i)
             <-> i ∈ loaded_ids (ds_records dataSet) ids)
  /\ (forall i t, tasks (_boardData st') !! i = Some t -> task_id t = i).
Proof.
  intros Hd Hi Hret. split; [by eapply loadFromDataset_task_keys|].
  revert Hret. unfold Optimistic.loadFromDataset. rewrite Hd, Hi.
  destruct (Optimistic.load_records _ _ _ _ _) as [acc|acc] eqn:Hload; [|done].
  intros [= <-]. simpl. intros i t Ht.
  destruct (load_records_task_ids _ _ _ _ _ _ _ _ Hload Ht) as [H|H]; [|done].
  simpl in H. by rewrite lookup_empty in H.
Qed.

Lemma loadFromDataset_task_map_witness :
  is_Some (tasks (_boardData
                    (state_of (Optimistic.loadFromDataset
                                 (mkContext (Some stale_dataset) None) moved_state)))
             !! "task-1")
  <-> "task-1" ∈ ["task-1"].
Proof.
  apply (proj1 (loadFromDataset_task_map (mkContext (Some stale_dataset) None)
                  moved_state _ stale_dataset ["rec-1"]
                  eq_refl eq_refl eq_refl) "task-1").
Defined.

(** X5. When the first entry of the column order is a non-empty id that names
    a column of the board, a dataset load returns and every record that is not
    skipped has its task id listed in some column: the classified column if the
    board has it, the first column otherwise. *)
Theorem loadFromDataset_lists_every_task
  (ctx : Context) (st : State) (dataSet : DataSet) (ids : list string)
  (first : string) :
  taskDataSet ctx = Some dataSet ->
  ds_sortedRecordIds dataSet = Some ids ->
  truthy_attr (head (columnOrder (_boardData st))) = Some first ->
  is_Some (columns (_boardData st) !! first) ->
  exists st',
    Optimistic.loadFromDataset ctx st = Returned st'
    /\ forall i, i ∈ loaded_ids (ds_records dataSet) ids ->
                 exists cid, listed_in (columns (_boardData st')) cid i.
Proof.
  intros Hd Hi Hf Hfirst.
  assert (head_resolves (columnOrder (_boardData st)) (columns (_boardData st)))
    as Hh.
  { intros c Hc. rewrite Hf in Hc. by injection Hc as <-. }
  destruct (loadFromDataset_consistent ctx st Hh) as (st' & Hload & _).
  exists st'. split; [done|].
  unfold Optimistic.loadFromDataset in Hload. rewrite Hd, Hi in Hload.
  destruct (Optimistic.load_records _ _ _ _ _) as [acc|acc] eqn:Hrec; [|done].
  injection Hload as <-. simpl. intros i Hin.
  eapply load_records_all_listed; [exact Hf| |exact Hrec|exact Hin].
  simpl. by apply clear_taskIds_keys.
Qed.

Lemma loadFromDataset_lists_every_task_witness :
  exists st',
    Optimistic.loadFromDataset (mkContext (Some stale_dataset) None) moved_state
    = Returned st'
    /\ forall i, i ∈ ["task-1"] ->
                 exists cid, listed_in (columns (_boardData st')) cid i.
Proof.
  apply (loadFromDataset_lists_every_task (mkContext (Some stale_dataset) None)
           moved_state stale_dataset ["rec-1"] "todo").
  - reflexivity.
  - reflexivity.
  - reflexivity.
  - eexists. vm_compute. reflexivity.
Defined.

(** X6. Cold start: [init] on a freshly constructed control with an available
    dataset that has at least one usable record returns with the tasks loaded
    but with no column at all, so [renderBoard] shows nothing. The constructor
    built the board before the column definitions were set, and the dataset
    load never rebuilds the columns. *)
Theorem init_from_dataset_shows_no_column
  (ctx : Context) (dataSet : DataSet) (ids : list string) :
  taskDataSet ctx = Some dataSet ->
  ds_sortedRecordIds dataSet = Some ids ->
  ds_loading dataSet = false ->
  loaded_ids (ds_records dataSet) ids <> [] ->
  exists st',
    Optimistic.init ctx constructor = Returned st'
    /\ columns (_boardData st') = ∅
    /\ columnOrder (_boardData st') = []
    /\ renderBoard (_boardData st') = []
    /\ (forall i, is_Some (tasks (_boardData st') !! i)
                  <-> i ∈ loaded_ids (ds_records dataSet) ids).
Proof.
  intros Hd Hi Hl Hne.
  assert (ids <> []) as Hids by (intros ->; by apply Hne).
  assert (Optimistic.dataset_available ctx = true) as Havail.
  { unfold Optimistic.dataset_available. rewrite Hd, Hl, Hi. simpl.
    destruct ids; [done|]. done. }
  destruct (load_records_no_columns getDefaultColumnDefinitions (getEmptyBoardData [])
              (ds_records dataSet) ids ∅ eq_refl) as [tks Hload].
  assert (Optimistic.loadFromDataset ctx (updateColumnDefinitions constructor)
          = Returned (set_boardData (mkBoardData tks ∅ [])
                        (updateColumnDefinitions constructor))) as Hds.
  { unfold Optimistic.loadFromDataset. rewrite Hd, Hi.
    match goal with
    | |- context [Optimistic.load_records ?a ?b ?c ?d ?e] =>
        change (Optimistic.load_records a b c d e)
          with (Optimistic.load_records getDefaultColumnDefinitions
                  (getEmptyBoardData []) (ds_records dataSet) ids
                  (Optimistic.mkLoading ∅ ∅))
    end.
    by rewrite Hload. }
  pose proof (loadFromDataset_task_keys ctx _ _ dataSet ids Hd Hi Hds) as Hkeys.
  simpl in Hkeys.
  assert (size tks <> 0%nat) as Hsize.
  { intros Hz. apply map_size_empty_iff in Hz. subst tks.
    destruct (loaded_ids (ds_records dataSet) ids) as [|i l] eqn:Hli; [done|].
    destruct (proj2 (Hkeys i) ltac:(left)) as [t Ht]. by rewrite lookup_empty in Ht. }
  eexists. split.
  - unfold Optimistic.init, Optimistic.loadData. rewrite Havail, Hds. simpl.
    apply Nat.eqb_neq in Hsize. by rewrite Hsize.
  - by repeat split; try apply Hkeys.
Qed.

Lemma init_from_dataset_shows_no_column_witness :
  exists st',
    Optimistic.init (mkContext (Some stale_dataset) None) constructor = Returned st'
    /\ renderBoard (_boardData st') = []
    /\ is_Some (tasks (_boardData st') !! "task-1").
Proof.
  destruct (init_from_dataset_shows_no_column (mkContext (Some stale_dataset) None)
              stale_dataset ["rec-1"]) as (st' & H1 & _ & _ & H2 & H3).
  - reflexivity.
  - reflexivity.
  - reflexivity.
  - discriminate.
  - exists st'. split; [exact H1|]. split; [exact H2|]. apply H3. left.
Defined.

(** ** Reloading the same snapshot, and stale snapshots after a move *)

Section Reload.

Definition none_optimistic (tks : gmap string Task) : Prop :=
  forall i t, tks !! i = Some t -> flagged_optimistic t = false.

Lemma reconcile_unflagged tks t :
  none_optimistic tks ->
  Optimistic.reconcile (tks !! task_id t) (task_status t) t = t.
Proof.
  intros Hn. unfold Optimistic.reconcile.
  destruct (tks !! task_id t) as [prev|] eqn:Hp; [|done].
  by rewrite (Hn _ _ Hp).
Qed.

Lemma task_of_record_unflagged rid record :
  flagged_optimistic (Optimistic.task_of_record rid record) = false.
Proof. done. Qed.

Variable defs : list ColumnDefinition.
Variable records : gmap string EntityRecord.

(** With no optimistic task around, the loop depends on the board through its
    column order only. *)
Lemma load_record_board_irrel b1 b2 r acc :
  columnOrder b1 = columnOrder b2 ->
  none_optimistic (tasks b1) -> none_optimistic (tasks b2) ->
  Optimistic.load_record defs b1 records r acc
  = Optimistic.load_record defs b2 records r acc.
Proof.
  intros Ho H1 H2. unfold Optimistic.load_record.
  destruct (Optimistic.is_harness_mock (records !! r)); [done|].
  change (JS.or_else (Optimistic.getValue (records !! r) "status") "Unknown")
    with (task_status (Optimistic.task_of_record r (records !! r))).
  by rewrite !reconcile_unflagged, Ho.
Qed.

Lemma load_records_board_irrel b1 b2 ids acc :
  columnOrder b1 = columnOrder b2 ->
  none_optimistic (tasks b1) -> none_optimistic (tasks b2) ->
  Optimistic.load_records defs b1 records ids acc
  = Optimistic.load_records defs b2 records ids acc.
Proof.
  intros Ho H1 H2. revert acc. induction ids as [|r ids IH]; intros acc; simpl;
    [done|].
  rewrite (load_record_board_irrel b1 b2 r acc Ho H1 H2).
  destruct (Optimistic.load_record defs b2 records r acc); [apply IH | done].
Qed.

Lemma load_records_unflagged board ids acc acc' :
  none_optimistic (tasks board) ->
  none_optimistic (Optimistic.ld_tasks acc) ->
  Optimistic.load_records defs board records ids acc = inl acc' ->
  none_optimistic (Optimistic.ld_tasks acc').
Proof.
  intros Hb. revert acc. induction ids as [|r ids IH]; intros acc Ha; simpl.
  - by intros [= <-].
  - destruct (Optimistic.load_record defs board records r acc) as [acc1|acc1] eqn:Hr;
      [|done].
    apply IH. destruct (Optimistic.is_harness_mock (records !! r)) eqn:Hmock.
    + rewrite load_record_skipped in Hr by done. by injection Hr as <-.
    + rewrite (load_record_tasks _ _ _ _ _ _ Hmock Hr).
      unfold incoming. rewrite reconcile_unflagged by done.
      intros i t. destruct (decide (i = task_id
                     (Optimistic.task_of_record r (records !! r)))) as [->|Hne].
      * rewrite lookup_insert_eq. by intros [= <-].
      * rewrite lookup_insert_ne by done. apply Ha.
Qed.

Lemma clear_taskIds_push cid tid cols :
  Optimistic.clear_taskIds (push_taskId cid tid cols) = Optimistic.clear_taskIds cols.
Proof.
  apply map_eq. intros k. unfold Optimistic.clear_taskIds, push_taskId.
  rewrite !lookup_fmap. destruct (decide (cid = k)) as [->|Hne].
  - rewrite lookup_alter_eq. by destruct (cols !! k).
  - by rewrite lookup_alter_ne.
Qed.

Lemma clear_taskIds_idemp cols :
  Optimistic.clear_taskIds (Optimistic.clear_taskIds cols)
  = Optimistic.clear_taskIds cols.
Proof.
  apply map_eq. intros k. unfold Optimistic.clear_taskIds.
  rewrite !lookup_fmap. by destruct (cols !! k).
Qed.

Lemma load_records_clear board ids acc :
  Optimistic.clear_taskIds
    (Optimistic.ld_columns (either (Optimistic.load_records defs board records ids acc)))
  = Optimistic.clear_taskIds (Optimistic.ld_columns acc).
Proof.
  revert acc. induction ids as [|r ids IH]; intros acc; simpl; [done|].
  pose proof (load_record_either defs board records r acc) as He.
  assert (Optimistic.clear_taskIds
            (Optimistic.ld_columns
               (either (Optimistic.load_record defs board records r acc)))
          = Optimistic.clear_taskIds (Optimistic.ld_columns acc)) as Hs.
  { destruct He as [[_ ->]|(_ & t & _ & _ & [->|[cid ->]])]; try done.
    apply clear_taskIds_push. }
  destruct (Optimistic.load_record defs board records r acc) as [acc1|acc1];
    simpl in *; [|done].
  by rewrite IH.
Qed.

End Reload.

(** X7. Loading the same dataset twice in a row gives the same component state
    as loading it once, provided no task of the board was flagged optimistic
    before the first load. *)
Theorem loadFromDataset_twice (ctx : Context) (st st1 : State) :
  none_optimistic (tasks (_boardData st)) ->
  Optimistic.loadFromDataset ctx st = Returned st1 ->
  Optimistic.loadFromDataset ctx st1 = Returned st1.
Proof.
  intros Hn. unfold Optimistic.loadFromDataset.
  destruct (taskDataSet ctx) as [dataSet|].
  2:{ intros [= <-]. simpl. unfold set_columns. simpl.
      by rewrite clear_taskIds_idemp. }
  destruct (ds_sortedRecordIds dataSet) as [ids|].
  2:{ intros [= <-]. simpl. unfold set_columns. simpl.
      by rewrite clear_taskIds_idemp. }
  destruct (Optimistic.load_records _ _ _ _ _) as [acc|acc] eqn:Hload; [|done].
  intros [= <-]. simpl.
  pose proof (load_records_clear (_columnDefinitions st) (ds_records dataSet)
                (_boardData st) ids
                (Optimistic.mkLoading ∅
                   (columns (set_columns
                      (Optimistic.clear_taskIds (columns (_boardData st)))
                      (_boardData st))))) as Hclear.
  rewrite Hload in Hclear. simpl in Hclear. rewrite clear_taskIds_idemp in Hclear.
  rewrite Hclear.
  assert (none_optimistic (Optimistic.ld_tasks acc)) as Hn1.
  { eapply load_records_unflagged; [exact Hn| |exact Hload].
    intros i t H. simpl in H. by rewrite lookup_empty in H. }
  rewrite (load_records_board_irrel (_columnDefinitions st) (ds_records dataSet)
             (mkBoardData (Optimistic.ld_tasks acc) (Optimistic.ld_columns acc)
                (columnOrder (_boardData st)))
             (_boardData st) ids _ eq_refl Hn1 Hn).
  simpl in Hload. by rewrite Hload.
Qed.

(** A snapshot of the sample tasks 1 and 4 as the host store has them. *)
Definition fresh_dataset : DataSet :=
  mkDataSet false (Some ["rec-1"; "rec-4"])
    (<[ "rec-1" := {[ "id" := "task-1"; "title" := "Implement new API endpoints";
                       "status" := "Todo" ]} ]>
       {[ "rec-4" := {[ "id" := "task-4"; "title" := "Test new features";
                         "status" := "Done" ]} ]}).

Lemma loadFromDataset_twice_witness :
  let once := state_of (Optimistic.loadFromDataset
                          (mkContext (Some fresh_dataset) None) sample_state) in
  Optimistic.loadFromDataset (mkContext (Some fresh_dataset) None) once
  = Returned once.
Proof.
  apply (loadFromDataset_twice (mkContext (Some fresh_dataset) None) sample_state).
  - change (map_Forall (fun _ t => flagged_optimistic t = false)
              (tasks (_boardData sample_state))).
    apply (bool_decide_unpack _). vm_compute. exact I.
  - vm_compute. reflexivity.
Defined.

(** ** A move, then a reload *)

(** X8. Whatever the case mapping [toLowerCase] is, the status a move writes
    into a task classifies back to the column the task was moved to, when that
    column comes from a definition with a non-empty first alias that no
    earlier definition accepts. When the definition has no alias, the move
    writes the column title; if no definition accepts that title, it
    classifies to the first definition instead. *)
Theorem moved_status_classifies_back
  (toLowerCase : string -> string)
  (defs pre post : list ColumnDefinition) (d : ColumnDefinition) :
  defs = (pre ++ d :: post)%list ->
  (forall alias rest,
      def_statusValues d = alias :: rest -> alias <> "" ->
      (forall d', d' ∈ pre -> ~ accepts toLowerCase alias d') ->
      new_status (column_of_definition d) = alias
      /\ Classifier.getColumnIdByStatus toLowerCase defs
           (new_status (column_of_definition d))
         = Some (def_id d))
  /\ (def_statusValues d = [] ->
      (forall d', d' ∈ defs -> ~ accepts toLowerCase (def_title d) d') ->
      forall first, head defs = Some first -> def_id first <> "" ->
      new_status (column_of_definition d) = def_title d
      /\ Classifier.getColumnIdByStatus toLowerCase defs
           (new_status (column_of_definition d))
         = Some (def_id first)).
Proof.
  intros ->. split.
  - intros alias rest Ha Hne Hpre.
    assert (new_status (column_of_definition d) = alias) as ->.
    { rewrite new_status_spec. simpl. rewrite Ha. by case_decide. }
    split; [done|]. unfold Classifier.getColumnIdByStatus.
    rewrite (loop_first_match toLowerCase pre d post alias); [done| |done].
    exists alias. split; [rewrite Ha; left | done].
  - intros Hnil Hno first Hfirst Hid.
    assert (new_status (column_of_definition d) = def_title d) as ->.
    { rewrite new_status_spec. simpl. by rewrite Hnil. }
    split; [done|].
    destruct (pre ++ d :: post)%list as [|f l] eqn:Hl; [done|].
    simpl in Hfirst. injection Hfirst as ->.
    by apply fallback_first_id.
Qed.

Lemma moved_status_classifies_back_witness :
  getColumnIdByStatus getDefaultColumnDefinitions
    (new_status (mkColumn "done" "Done" [] ["Done"; "Completed"; "Closed"] None))
  = Some "done".
Proof.
  apply (proj1 (moved_status_classifies_back JS.toLowerCase
                  getDefaultColumnDefinitions
                  (take 3 getDefaultColumnDefinitions) []
                  (mkColumnDefinition "done" "Done" ["Done"; "Completed"; "Closed"] None)
                  eq_refl) "Done" ["Completed"; "Closed"]).
  - reflexivity.
  - discriminate.
  - intros d' Hin. apply status_matches_rejects.
    apply list_elem_of_In in Hin. simpl in Hin.
    destruct Hin as [<-|[<-|[<-|[]]]]; reflexivity.
Defined.

(** The task stored for the last record yielding an id, and where it is
    listed, after a load that returns. *)
Lemma loadFromDataset_last_record ctx st st' dataSet (pre post : list string) rid :
  let inc := incoming (ds_records dataSet) rid in
  taskDataSet ctx = Some dataSet ->
  ds_sortedRecordIds dataSet = Some (pre ++ rid :: post)%list ->
  Optimistic.is_harness_mock (ds_records dataSet !! rid) = false ->
  (forall r, r ∈ post -> ~ yields (ds_records dataSet) (task_id inc) r) ->
  Optimistic.loadFromDataset ctx st = Returned st' ->
  let result := Optimistic.reconcile (tasks (_boardData st) !! task_id inc)
                  (task_status inc) inc in
  tasks (_boardData st') !! task_id inc = Some result
  /\ (forall cid,
        getColumnIdByStatus (_columnDefinitions st) (task_status result) = Some cid ->
        cid <> "" ->
        is_Some (columns (_boardData st) !! cid) ->
        listed_in (columns (_boardData st')) cid (task_id inc)).
Proof.
  intros inc Hds Hids Hmock Hpost. unfold Optimistic.loadFromDataset.
  rewrite Hds, Hids.
  destruct (Optimistic.load_records _ _ _ _ _) as [acc|acc] eqn:Hload; [|done].
  intros [= <-]. cbn [_boardData set_boardData tasks columns].
  apply load_records_app in Hload as (acc1 & Hpre & Hrest).
  cbn [Optimistic.load_records] in Hrest.
  destruct (Optimistic.load_record _ _ _ rid acc1) as [acc2|acc2] eqn:Hrec; [|done].
  pose proof (load_record_tasks _ _ _ _ _ _ Hmock Hrec) as Htasks.
  fold inc in Htasks. split.
  - rewrite (load_records_other_ids _ _ _ _ _ _ _ Hpost Hrest), Htasks.
    apply lookup_insert_eq.
  - intros cid Hcid Hne Hcol.
    eapply load_records_listed; [exact Hrest|].
    eapply load_record_classified; [done|exact Hrec|exact Hcid|done|].
    apply (load_records_keys _ _ _ _ _ _ _ Hpre). simpl.
    by apply clear_taskIds_keys.
Qed.

(** C2. For every record of a dataset load that is not skipped, the task
    stored under its task id is decided by the previously held task with the
    same id and the record alone: with no previous task, or a previous task not
    flagged optimistic, it is the incoming task as loaded; with an optimistic
    previous task and a different incoming status it is the incoming task with
    the previous status and [isOptimistic] true; with an optimistic previous
    task and the same status it is the incoming task with [isOptimistic] false.
    That task is what the loop step stores, whatever came before; when the
    load returns and no later record yields the same id, it is the task the
    board holds, and its id is listed in the column its resulting status
    classifies to, when the board has that column. Wherever the id was listed
    before the load, it is then listed in that column only, provided no two
    loaded records yield the same id. *)
Theorem dataset_reconciliation_three_way
  (st : State) (records : gmap string EntityRecord) (recordId : string) :
  let inc := incoming records recordId in
  let previous := tasks (_boardData st) !! task_id inc in
  Optimistic.is_harness_mock (records !! recordId) = false ->
  exists result,
    (previous = None -> result = inc)
    /\ (forall prev, previous = Some prev -> flagged_optimistic prev = false ->
          result = inc)
    /\ (forall prev, previous = Some prev -> flagged_optimistic prev = true ->
          task_status inc <> task_status prev ->
          result = set_isOptimistic true (set_status (task_status prev) inc)
          /\ task_status result = task_status prev
          /\ task_isOptimistic result = Some true)
    /\ (forall prev, previous = Some prev -> flagged_optimistic prev = true ->
          task_status inc = task_status prev ->
          result = set_isOptimistic false inc
          /\ task_isOptimistic result = Some false)
    /\ (forall acc,
          Optimistic.ld_tasks
            (either (Optimistic.load_record (_columnDefinitions st) (_boardData st)
                       records recordId acc)) !! task_id inc = Some result)
    /\ (forall ctx st' dataSet (pre post : list string),
          taskDataSet ctx = Some dataSet ->
          ds_records dataSet = records ->
          ds_sortedRecordIds dataSet = Some (pre ++ recordId :: post)%list ->
          (forall r, r ∈ post -> ~ yields records (task_id inc) r) ->
          Optimistic.loadFromDataset ctx st = Returned st' ->
          tasks (_boardData st') !! task_id inc = Some result
          /\ (forall cid,
                getColumnIdByStatus (_columnDefinitions st) (task_status result)
                  = Some cid ->
                cid <> "" ->
                is_Some (columns (_boardData st) !! cid) ->
                listed_in (columns (_boardData st')) cid (task_id inc)
                /\ (NoDup (loaded_ids records (pre ++ recordId :: post)%list) ->
                    forall cid',
                      listed_in (columns (_boardData st')) cid' (task_id inc) ->
                      cid' = cid))).
Proof.
  intros inc previous Hmock.
  pose proof (reconcile_cases previous inc) as (Hnone & Hplain & Hstale & Hsame).
  exists (Optimistic.reconcile previous (task_status inc) inc).
  split; [done|]. split; [done|]. split; [|split; [|split]].
  - intros prev Hp Hf Hne. rewrite (Hstale prev Hp Hf Hne). done.
  - intros prev Hp Hf Heq. rewrite (Hsame prev Hp Hf Heq). done.
  - intros acc. rewrite load_record_tasks_either by done. apply lookup_insert_eq.
  - intros ctx st' dataSet pre post Hds <- Hids Hpost Hload.
    destruct (loadFromDataset_last_record ctx st st' dataSet pre post recordId
                Hds Hids Hmock Hpost Hload) as [Hres Hlisted].
    split; [exact Hres|].
    intros cid Hcid Hne Hcol.
    pose proof (Hlisted cid Hcid Hne Hcol) as Hl. split; [exact Hl|].
    intros Hnd cid' Hcid'.
    assert (placed_once (_boardData st')) as [_ Huniq].
    { pose proof (loadFromDataset_placed_once ctx st) as Hp.
      rewrite Hload in Hp. apply Hp. intros ds ids' Hd' Hi'.
      rewrite Hds in Hd'. injection Hd' as <-.
      rewrite Hids in Hi'. by injection Hi' as <-. }
    by apply (Huniq cid' cid (task_id inc)).
Qed.

(** A snapshot in which the host store has task-1 as Done. *)
Definition advanced_dataset : DataSet :=
  mkDataSet false (Some ["rec-1"])
    {[ "rec-1" := {[ "id" := "task-1"; "title" := "Implement new API endpoints";
                      "status" := "Done" ]} ]}.

Lemma dataset_reconciliation_three_way_witness :
  (exists result,
     tasks (_boardData
              (state_of (Optimistic.loadFromDataset
                           (mkContext (Some advanced_dataset) None) sample_state)))
       !! "task-1" = Some result
     /\ task_status result = "Done"
     /\ listed_in
          (columns (_boardData
             (state_of (Optimistic.loadFromDataset
                          (mkContext (Some advanced_dataset) None) sample_state))))
          "done" "task-1"
     /\ ~ listed_in
            (columns (_boardData
               (state_of (Optimistic.loadFromDataset
                            (mkContext (Some advanced_dataset) None) sample_state))))
            "todo" "task-1")
  /\ (exists result,
        tasks (_boardData
                 (state_of (Optimistic.loadFromDataset
                              (mkContext (Some stale_dataset) None) moved_state)))
          !! "task-1" = Some result
        /\ task_status result = "Done"
        /\ task_isOptimistic result = Some true).
Proof.
  split.
  - destruct (dataset_reconciliation_three_way sample_state
                (ds_records advanced_dataset) "rec-1")
      as (result & _ & Hplain & _ & _ & _ & Hload).
    + reflexivity.
    + exists result.
      destruct (Hload (mkContext (Some advanced_dataset) None)
                  (state_of (Optimistic.loadFromDataset
                               (mkContext (Some advanced_dataset) None) sample_state))
                  advanced_dataset [] []) as [Hres Hcol].
      * reflexivity.
      * reflexivity.
      * reflexivity.
      * intros r Hr. by apply elem_of_nil in Hr.
      * vm_compute. reflexivity.
      * assert (task_status result = "Done") as Hstatus.
        { erewrite Hplain; [reflexivity | vm_compute; reflexivity | reflexivity]. }
        split; [exact Hres|]. split; [exact Hstatus|].
        destruct (Hcol "done") as [Hl Hu].
        -- rewrite Hstatus. reflexivity.
        -- discriminate.
        -- eexists. vm_compute. reflexivity.
        -- split; [exact Hl|]. intros Htodo.
           assert ("todo" = "done") as Hbad; [|discriminate Hbad].
           apply Hu; [|exact Htodo].
           apply (bool_decide_unpack _). vm_compute. exact I.
  - destruct (dataset_reconciliation_three_way moved_state
                (ds_records stale_dataset) "rec-1")
      as (result & _ & _ & Hstale & _ & _ & Hload).
    + reflexivity.
    + exists result.
      destruct (Hload (mkContext (Some stale_dataset) None)
                  (state_of (Optimistic.loadFromDataset
                               (mkContext (Some stale_dataset) None) moved_state))
                  stale_dataset [] []) as [Hres _].
      * reflexivity.
      * reflexivity.
      * reflexivity.
      * intros r Hr. by apply elem_of_nil in Hr.
      * vm_compute. reflexivity.
      * split; [exact Hres|].
        edestruct Hstale as (_ & H1 & H2).
        -- reflexivity.
        -- reflexivity.
        -- discriminate.
        -- split; [exact H1 | exact H2].
Defined.

(** X9. No snap-back: move a task, then load a dataset whose last record for
    that task still reports another status. When the load returns the task
    keeps the status the move gave it, stays flagged optimistic, and is listed
    in the target column, provided that status classifies to the target
    column. If moreover no two loaded records yield the same id, it is listed
    in no other column. *)
Theorem optimistic_move_survives_stale_snapshot
  (taskId src tgt : string) (st st2 : State) (sourceColumn targetColumn : Column)
  (task : Task) (ctx : Context) (dataSet : DataSet)
  (pre post : list string) (rid : string) :
  src <> tgt ->
  columns (_boardData st) !! src = Some sourceColumn ->
  columns (_boardData st) !! tgt = Some targetColumn ->
  tasks (_boardData st) !! taskId = Some task ->
  getColumnIdByStatus (_columnDefinitions st) (new_status targetColumn) = Some tgt ->
  tgt <> "" ->
  taskDataSet ctx = Some dataSet ->
  ds_sortedRecordIds dataSet = Some (pre ++ rid :: post)%list ->
  Optimistic.is_harness_mock (ds_records dataSet !! rid) = false ->
  task_id (incoming (ds_records dataSet) rid) = taskId ->
  task_status (incoming (ds_records dataSet) rid) <> new_status targetColumn ->
  (forall r, r ∈ post -> ~ yields (ds_records dataSet) taskId r) ->
  Optimistic.loadFromDataset ctx (Optimistic.moveTask taskId src tgt st)
  = Returned st2 ->
  (exists t, tasks (_boardData st2) !! taskId = Some t
             /\ task_status t = new_status targetColumn
             /\ task_isOptimistic t = Some true)
  /\ listed_in (columns (_boardData st2)) tgt taskId
  /\ (NoDup (loaded_ids (ds_records dataSet) (pre ++ rid :: post)%list) ->
      forall cid, listed_in (columns (_boardData st2)) cid taskId -> cid = tgt).
Proof.
  intros Hne Hs Ht Hk Hclass Htgt Hds Hids Hmock Hid Hstale Hpost Hload.
  pose proof (loadFromDataset_last_record ctx
                (Optimistic.moveTask taskId src tgt st) st2 dataSet pre post rid
                Hds Hids Hmock) as Hlast.
  cbv zeta in Hlast. rewrite Hid in Hlast.
  destruct (Hlast Hpost Hload) as [Hres Hlisted]. clear Hlast.
  unfold Optimistic.moveTask in Hres, Hlisted.
  rewrite (moveTask_with_passes _ taskId src tgt st _ _ _ Hne Hs Ht Hk)
    in Hres, Hlisted.
  cbn [_boardData tasks columns _columnDefinitions] in Hres, Hlisted.
  rewrite lookup_insert_eq in Hres, Hlisted.
  unfold Optimistic.reconcile in Hres, Hlisted.
  cbn [flagged_optimistic set_isOptimistic task_isOptimistic task_status set_status]
    in Hres, Hlisted.
  assert (String.eqb (new_status targetColumn)
            (task_status (incoming (ds_records dataSet) rid)) = false) as Heqb
    by (apply String.eqb_neq; congruence).
  rewrite Heqb in Hres, Hlisted. simpl in Hres, Hlisted.
  assert (listed_in (columns (_boardData st2)) tgt taskId) as Hl.
  { apply Hlisted; [done|done|]. by rewrite lookup_insert_eq. }
  split; [|split; [done|]].
  - eexists. split; [exact Hres|]. by split.
  - intros Hnd cid Hcid.
    assert (placed_once (_boardData st2)) as [_ Huniq].
    { pose proof (loadFromDataset_placed_once ctx
                    (Optimistic.moveTask taskId src tgt st)) as Hp.
      rewrite Hload in Hp. apply Hp. intros ds ids' Hd' Hi'.
      rewrite Hds in Hd'. injection Hd' as <-.
      rewrite Hids in Hi'. by injection Hi' as <-. }
    by apply (Huniq cid tgt taskId).
Qed.

Lemma optimistic_move_survives_stale_snapshot_witness :
  listed_in
    (columns (_boardData
       (state_of (Optimistic.loadFromDataset (mkContext (Some stale_dataset) None)
                    (Optimistic.moveTask "task-1" "todo" "done" sample_state)))))
    "done" "task-1".
Proof.
  apply (optimistic_move_survives_stale_snapshot "task-1" "todo" "done" sample_state
           (state_of (Optimistic.loadFromDataset (mkContext (Some stale_dataset) None)
                        (Optimistic.moveTask "task-1" "todo" "done" sample_state)))
           (mkColumn "todo" "To Do" ["task-1"; "task-5"] ["Todo"; "New"; "Open"] None)
           (mkColumn "done" "Done" ["task-4"] ["Done"; "Completed"; "Closed"] None)
           (mkTask "task-1" "Implement new API endpoints" "Todo" (Some "high")
              (Some "john.smith@company.com") (Some "Today")
              (Some "Design and implement RESTful API endpoints for the new user management module. Ensure proper authentication, validation, and error handling are in place. Documentation must be updated with Swagger examples and response schemas.")
              None (Some "John") (Some "Smith") (Some "john.smith@company.com")
              (Some "https://images.unsplash.com/photo-1472099645785-5658abf4ff4e?w=100&h=100&fit=crop&crop=face")
              None)
           (mkContext (Some stale_dataset) None) stale_dataset [] [] "rec-1").
  - discriminate.
  - reflexivity.
  - reflexivity.
  - reflexivity.
  - reflexivity.
  - discriminate.
  - reflexivity.
  - reflexivity.
  - reflexivity.
  - reflexivity.
  - discriminate.
  - intros r Hr. by apply elem_of_nil in Hr.
  - vm_compute. reflexivity.
Defined.

(** ** The empty board *)

Lemma NoDup_fmap_inj_on {A B} (f : A -> B) (l : list A) x y :
  NoDup (map f l) -> x ∈ l -> y ∈ l -> f x = f y -> x = y.
Proof.
  induction l as [|a l IH]; simpl; intros Hnd Hx Hy Hf.
  - by apply elem_of_nil in Hx.
  - apply NoDup_cons in Hnd as [Ha Hnd].
    apply elem_of_cons in Hx as [->|Hx]; apply elem_of_cons in Hy as [->|Hy].
    + done.
    + exfalso. apply Ha. rewrite Hf. apply list_elem_of_In, in_map.
      by apply list_elem_of_In.
    + exfalso. apply Ha. rewrite <- Hf. apply list_elem_of_In, in_map.
      by apply list_elem_of_In.
    + by apply IH.
Qed.

Lemma empty_columns_lookup defs cid c :
  empty_columns defs !! cid = Some c ->
  exists d, d ∈ defs /\ def_id d = cid /\ c = column_of_definition d.
Proof.
  unfold empty_columns. rewrite empty_columns_fold.
  destruct (list_find _ _) as [[i d]|] eqn:Hf; [|by rewrite lookup_empty].
  intros [= <-]. apply list_find_Some in Hf as (Hi & Hd & _).
  exists d. split; [|done].
  apply elem_of_reverse. by eapply list_elem_of_lookup_2.
Qed.

Lemma empty_columns_lookup_NoDup defs d :
  NoDup (map def_id defs) -> d ∈ defs ->
  empty_columns defs !! def_id d = Some (column_of_definition d).
Proof.
  intros Hnd Hd. destruct (empty_columns_keys defs d Hd) as [c Hc].
  rewrite Hc. apply empty_columns_lookup in Hc as (d' & Hd' & Hid & ->).
  by rewrite (NoDup_fmap_inj_on def_id defs d' d Hnd Hd' Hd Hid).
Qed.

(** X10. The empty board has no task, lists no id, and orders its columns as
    the definitions are. Its column keys are exactly the ids in the column
    order, every column carries the id it is stored under, and comes from a
    definition with that id. When the definitions have pairwise distinct ids,
    every definition has its own column and [renderBoard] shows one empty
    column per definition, in order. *)
Theorem getEmptyBoardData_structure (defs : list ColumnDefinition) :
  let b := getEmptyBoardData defs in
  tasks b = ∅
  /\ columnOrder b = map def_id defs
  /\ unlisted (columns b)
  /\ (forall cid, is_Some (columns b !! cid) <-> cid ∈ columnOrder b)
  /\ ids_agree b
  /\ (forall cid c, columns b !! cid = Some c ->
        exists d, d ∈ defs /\ def_id d = cid /\ c = column_of_definition d)
  /\ (NoDup (map def_id defs) ->
      NoDup (columnOrder b)
      /\ (forall d, d ∈ defs -> columns b !! def_id d = Some (column_of_definition d))
      /\ renderBoard b
         = map (fun d => mkColumnView (def_id d) (def_title d) 0 []) defs).
Proof.
  simpl. split; [done|]. split; [done|]. split; [apply empty_columns_unlisted|].
  split; [|split; [|split; [apply empty_columns_lookup|]]].
  - intros cid. split.
    + intros [c Hc]. apply empty_columns_lookup in Hc as (d & Hd & <- & _).
      apply list_elem_of_In, in_map. by apply list_elem_of_In.
    + intros Hin. apply list_elem_of_In, in_map_iff in Hin as (d & <- & Hd).
      apply empty_columns_keys. by apply list_elem_of_In.
  - split.
    + intros k c Hc. simpl in Hc.
      by apply empty_columns_lookup in Hc as (d & _ & <- & ->).
    + intros k t Ht. simpl in Ht. by rewrite lookup_empty in Ht.
  - intros Hnd. split; [done|].
    split; [intros d Hd; by apply empty_columns_lookup_NoDup|].
    unfold renderBoard. simpl.
    assert (forall d, d ∈ defs ->
              empty_columns defs !! def_id d = Some (column_of_definition d)) as Hl
      by (intros d Hd; by apply empty_columns_lookup_NoDup).
    clear Hnd. revert Hl. generalize (empty_columns defs) as cols.
    induction defs as [|d defs IH]; intros cols Hl; simpl; [done|].
    rewrite (Hl d) by left. simpl. f_equal.
    apply IH. intros d' Hd'. apply Hl. by right.
Qed.

Lemma getEmptyBoardData_structure_witness :
  renderBoard (getEmptyBoardData getDefaultColumnDefinitions)
  = [ mkColumnView "todo" "To Do" 0 []; mkColumnView "inprogress" "In Progress" 0 [];
      mkColumnView "review" "Review" 0 []; mkColumnView "done" "Done" 0 [] ].
Proof.
  destruct (getEmptyBoardData_structure getDefaultColumnDefinitions)
    as (_ & _ & _ & _ & _ & _ & H).
  destruct H as (_ & _ & ->); [|reflexivity].
  apply (bool_decide_unpack _). vm_compute. exact I.
Defined.

(** ** Flat legacy lists *)

Section FlatMore.

Variable defs : list ColumnDefinition.

Lemma load_flat_task_returns task board :
  (forall d, d ∈ defs -> is_Some (columns board !! def_id d)) ->
  exists board',
    Optimistic.load_flat_task defs task board = inl board'
    /\ (forall d, d ∈ defs -> is_Some (columns board' !! def_id d))
    /\ (forall cid, getColumnIdByStatus defs (task_status task) = Some cid ->
                    cid <> "" -> listed_in (columns board') cid (task_id task)).
Proof.
  intros Hkeys. unfold Optimistic.load_flat_task.
  destruct (getColumnIdByStatus defs (task_status task)) as [cid|] eqn:Hc;
    simpl; [|by eexists].
  destruct (getColumnIdByStatus_is_def_id _ _ _ _ Hc) as (d & Hd & <-).
  destruct (JS.truthy (def_id d)) eqn:Htr.
  - destruct (Hkeys d Hd) as [c Hcol]. rewrite Hcol. eexists. split; [done|].
    simpl. split.
    + intros d' Hd'. apply push_taskId_keys. by apply Hkeys.
    + intros cid [= <-] _. apply push_taskId_lists. by eexists.
  - eexists. split; [done|]. split; [done|].
    intros cid [= <-] Hne. unfold JS.truthy in Htr.
    apply String.eqb_neq in Hne. by rewrite Hne in Htr.
Qed.

Lemma load_flat_task_listed task board board' cid tid :
  Optimistic.load_flat_task defs task board = inl board' ->
  listed_in (columns board) cid tid -> listed_in (columns board') cid tid.
Proof.
  intros H Hl. pose proof (load_flat_task_either defs task board) as (_ & _ & Hc).
  rewrite H in Hc. simpl in Hc. destruct Hc as [->|[c ->]]; [done|].
  by apply push_taskId_listed.
Qed.

Lemma load_flat_returns (l : list Task) board :
  (forall d, d ∈ defs -> is_Some (columns board !! def_id d)) ->
  exists board',
    Optimistic.load_flat defs l board = inl board'
    /\ (forall i, is_Some (tasks board' !! i)
                  <-> is_Some (tasks board !! i) \/ i ∈ map task_id l)
    /\ (forall task cid, task ∈ l ->
          getColumnIdByStatus defs (task_status task) = Some cid -> cid <> "" ->
          listed_in (columns board') cid (task_id task))
    /\ (forall cid tid, listed_in (columns board) cid tid ->
                        listed_in (columns board') cid tid)
    /\ columnOrder board' = columnOrder board
    /\ same_structure (columns board) (columns board').
Proof.
  revert board. induction l as [|task l IH]; intros board Hkeys; simpl.
  - exists board. split; [done|]. split.
    + intros i. split; [by left|]. intros [H|H]; [done|]. by apply elem_of_nil in H.
    + split; [intros t c H; by apply elem_of_nil in H|].
      split; [done|]. split; [done | apply same_structure_refl].
  - destruct (load_flat_task_returns task board Hkeys) as (b1 & H1 & Hk1 & Hl1).
    rewrite H1. destruct (IH b1 Hk1) as (b' & H' & Ht' & Hl' & Hmono & Ho & Hs).
    exists b'. split; [done|].
    pose proof (load_flat_task_either defs task board) as (Et & Eo & Ec).
    rewrite H1 in Et, Eo, Ec. simpl in Et, Eo, Ec.
    split; [|split; [|split; [|split]]].
    + intros i. rewrite Ht', Et, elem_of_cons.
      destruct (decide (i = task_id task)) as [->|Hne].
      * rewrite lookup_insert_eq. split; intros _; [right; by left | left; by eexists].
      * rewrite lookup_insert_ne by done. split; intros [H|H]; auto.
        destruct H as [H|H]; [done | by right].
    + intros t cid Ht Hc Hne. apply elem_of_cons in Ht as [->|Ht].
      * apply Hmono. by apply Hl1.
      * by apply Hl'.
    + intros cid tid Hl. apply Hmono. by eapply load_flat_task_listed.
    + by rewrite Ho, Eo.
    + eapply same_structure_trans; [|exact Hs].
      destruct Ec as [->|[c ->]]; [apply same_structure_refl|].
      apply push_taskId_structure.
Qed.

End FlatMore.

(** X11. Loading a flat legacy task list never reaches the [catch] block. The
    board is rebuilt from the empty board: the task map holds exactly the ids
    of the list, every task whose status classifies to a non-empty column id
    is listed in that column, the column order and structure are those of the
    empty board. *)
Theorem loadFromLegacyData_flat_list (l : list Task) (st : State) :
  let defs := _columnDefinitions st in
  let b := _boardData (Optimistic.loadFromLegacyData (ParsedArray l) st) in
  Optimistic.load_flat defs l (getEmptyBoardData defs) = inl b
  /\ (forall i, is_Some (tasks b !! i) <-> i ∈ map task_id l)
  /\ (forall task cid, task ∈ l ->
        getColumnIdByStatus defs (task_status task) = Some cid -> cid <> "" ->
        listed_in (columns b) cid (task_id task))
  /\ columnOrder b = map def_id defs
  /\ same_structure (empty_columns defs) (columns b).
Proof.
  cbv zeta. rewrite loadFromLegacyData_board.
  destruct (load_flat_returns (_columnDefinitions st) l
              (getEmptyBoardData (_columnDefinitions st)))
    as (b & Hb & Ht & Hl & _ & Ho & Hs).
  { intros d Hd. by apply empty_columns_keys. }
  rewrite Hb. simpl. split; [done|]. split; [|by split].
  intros i. rewrite Ht. simpl. rewrite lookup_empty. split; [|by right].
  intros [[x Hx]|H]; done.
Qed.

(** ** Refreshes without a dataset *)

(** X12. In the dataset-aware revision, when no dataset is available a call
    of [updateView] rebuilds the board from the context alone: from the parsed
    legacy input, or the sample board when there is none. The previous board,
    with any move made on it, is discarded. The exceptions are an unparsable
    and a null legacy text, which keep the board. In the baseline revision
    [updateView] rebuilds the board from the legacy input when there is one
    and keeps the board when there is none. *)
Theorem updateView_rebuilds_without_dataset (ctx : Context) (st1 st2 : State) :
  Optimistic.dataset_available ctx = false ->
  (tasksData_raw ctx <> Some SyntaxError -> tasksData_raw ctx <> Some ParsedNull ->
   _boardData (state_of (Optimistic.updateView ctx st1))
   = _boardData (state_of (Optimistic.updateView ctx st2)))
  /\ (tasksData_raw ctx = None ->
      _boardData (state_of (Optimistic.updateView ctx st1)) = sample_board)
  /\ (tasksData_raw ctx = Some SyntaxError \/ tasksData_raw ctx = Some ParsedNull ->
      _boardData (state_of (Optimistic.updateView ctx st1)) = _boardData st1)
  /\ (is_Some (tasksData_raw ctx) ->
      _boardData (state_of (Baseline.updateView ctx st1))
      = _boardData (state_of (Baseline.updateView ctx st2)))
  /\ (tasksData_raw ctx = None ->
      _boardData (state_of (Baseline.updateView ctx st1)) = _boardData st1).
Proof.
  intros Havail. unfold Optimistic.updateView, Optimistic.loadData.
  rewrite Havail. unfold Baseline.updateView, Baseline.loadData.
  split; [|split; [|split; [|split]]].
  - intros H1 H2. destruct (tasksData_raw ctx) as [parsed|].
    + simpl. rewrite !loadFromLegacyData_board. by destruct parsed.
    + unfold Optimistic.load_samples. simpl. by rewrite samples_under_defaults.
  - intros ->. unfold Optimistic.load_samples. simpl.
    by rewrite samples_under_defaults.
  - intros [-> | ->]; done.
  - intros [parsed ->]. unfold Baseline.loadFromLegacyData. simpl.
    by destruct parsed.
  - by intros ->.
Qed.

Lemma updateView_rebuilds_without_dataset_witness :
  _boardData (state_of (Optimistic.updateView (mkContext None None) moved_state))
  = sample_board.
Proof.
  apply (updateView_rebuilds_without_dataset (mkContext None None)
           moved_state sample_state).
  - reflexivity.
  - reflexivity.
Defined.

(** ** The drag session *)

(** X14. A drop never changes what the drag session records, nor the column
    definitions. It does nothing at all when the session holds no task id or
    no source column id, when the target has no column id, or when the target
    is the source column; in particular a drop after [dragend] does nothing.
    Both revisions. *)
Theorem drop_and_the_drag_session (target : option string) (st : State) :
  (forall st', st' = Optimistic.drop target st \/ st' = Baseline.drop target st ->
     _draggedTaskId st' = _draggedTaskId st
     /\ _sourceColumnId st' = _sourceColumnId st
     /\ _columnDefinitions st' = _columnDefinitions st)
  /\ (truthy_attr (_draggedTaskId st) = None
      \/ truthy_attr (_sourceColumnId st) = None
      \/ truthy_attr target = None
      \/ truthy_attr target = truthy_attr (_sourceColumnId st) ->
      Optimistic.drop target st = st /\ Baseline.drop target st = st)
  /\ Optimistic.drop target (dragend st) = dragend st
  /\ Baseline.drop target (dragend st) = dragend st.
Proof.
  split; [|split; [|by split]].
  - assert (forall mark taskId src tgt,
              (forall t, same_task_but_status t (mark t)) ->
              let st' := moveTask_with mark taskId src tgt st in
              _draggedTaskId st' = _draggedTaskId st
              /\ _sourceColumnId st' = _sourceColumnId st
              /\ _columnDefinitions st' = _columnDefinitions st) as Hmove.
    { intros mark taskId src tgt Hmark.
      destruct (moveTask_with_frame mark taskId src tgt st Hmark)
        as (_ & _ & _ & _ & _ & H). exact H. }
    intros st' [-> | ->].
    + unfold Optimistic.drop.
      destruct (truthy_attr (_draggedTaskId st)); [|done].
      destruct (truthy_attr (_sourceColumnId st)); [|done].
      destruct (truthy_attr target); [|done].
      destruct (String.eqb _ _); [done|].
      apply Hmove. intros t. by repeat split.
    + unfold Baseline.drop.
      destruct (truthy_attr (_draggedTaskId st)); [|done].
      destruct (truthy_attr (_sourceColumnId st)); [|done].
      destruct (truthy_attr target); [|done].
      apply Hmove. intros t. by repeat split.
  - unfold Optimistic.drop, Baseline.drop.
    intros [H|[H|[H|H]]].
    + by rewrite H.
    + rewrite H. by destruct (truthy_attr (_draggedTaskId st)).
    + rewrite H. destruct (truthy_attr (_draggedTaskId st)); [|done].
      by destruct (truthy_attr (_sourceColumnId st)).
    + rewrite H. destruct (truthy_attr (_draggedTaskId st)) as [taskId|]; [|done].
      destruct (truthy_attr (_sourceColumnId st)) as [src|]; [|done].
      rewrite String.eqb_refl. split; [done|].
      apply moveTask_with_guard. by left.
Qed.

Lemma drop_and_the_drag_session_witness :
  Optimistic.drop (Some "todo") (dragstart (Some "task-1") (Some "todo") sample_state)
  = dragstart (Some "task-1") (Some "todo") sample_state.
Proof.
  apply (proj1 (proj2 (drop_and_the_drag_session (Some "todo")
                  (dragstart (Some "task-1") (Some "todo") sample_state)))).
  right. right. right. reflexivity.
Defined.

(** ** Quick column setup: properties *)

Section QuickSetup.

Lemma trimStart_idemp s : JSText.trimStart (JSText.trimStart s) = JSText.trimStart s.
Proof.
  induction s as [|a r IH]; simpl; [done|].
  destruct (JSText.is_white a) eqn:Ha; [done|]. simpl. by rewrite Ha.
Qed.

Lemma trimEnd_idemp s : JSText.trimEnd (JSText.trimEnd s) = JSText.trimEnd s.
Proof.
  induction s as [|a r IH]; simpl; [done|].
  destruct (JSText.trimEnd r) as [|b r'] eqn:Hr.
  - destruct (JSText.is_white a) eqn:Ha; [done|]. simpl. by rewrite Ha.
  - simpl in *. by rewrite IH.
Qed.

(** Trimming the end keeps a first character that is not white space. *)
Lemma trimStart_trimEnd s :
  JSText.trimStart s = s -> JSText.trimStart (JSText.trimEnd s) = JSText.trimEnd s.
Proof.
  destruct s as [|a r]; simpl; [done|].
  destruct (JSText.is_white a) eqn:Ha.
  - intros H. exfalso. clear -H.
    assert (forall s, String.length (JSText.trimStart s) <= String.length s)%nat as Hlen.
    { induction s as [|b s IH]; simpl; [done|].
      destruct (JSText.is_white b); simpl; lia. }
    specialize (Hlen r). rewrite H in Hlen. simpl in Hlen. lia.
  - intros _. destruct (JSText.trimEnd r); simpl; by rewrite Ha.
Qed.

Lemma trim_idemp s : JSText.trim (JSText.trim s) = JSText.trim s.
Proof.
  unfold JSText.trim.
  rewrite (trimStart_trimEnd _ (trimStart_idemp s)). apply trimEnd_idemp.
Qed.

Lemma quick_statuses_trimmed setup s :
  s ∈ quick_statuses setup -> JSText.trim s = s.
Proof.
  unfold quick_statuses. intros H.
  assert (exists l, s ∈ map JSText.trim l) as [l Hl].
  { destruct (_ && _); [by eexists|]. destruct (JSText.includes _ _); by eexists. }
  apply list_elem_of_In, in_map_iff in Hl as (x & <- & _). apply trim_idemp.
Qed.

Lemma imap_definitions (l : list string) (n : nat) :
  imap (fun index status =>
          mkColumnDefinition ("col_" +:+ pretty (n + index)%nat) status [status] None) l
  = zip_with (fun index status =>
                mkColumnDefinition ("col_" +:+ pretty index) status [status] None)
      (seq n (List.length l)) l.
Proof.
  revert n. induction l as [|s l IH]; intros n; simpl; [done|].
  rewrite Nat.add_0_r. f_equal.
  rewrite <- (IH (S n)). apply imap_ext. intros i x _. simpl.
  by rewrite Nat.add_succ_r.
Qed.

Lemma col_id_inj (i j : nat) : "col_" +:+ pretty i = "col_" +:+ pretty j -> i = j.
Proof.
  intros H. cbn [String.append] in H. injection H as H.
  by apply pretty_nat_inj in H.
Qed.

Lemma quick_ids (l : list string) (n : nat) :
  map def_id
    (zip_with (fun index status =>
                 mkColumnDefinition ("col_" +:+ pretty index) status [status] None)
       (seq n (List.length l)) l)
  = map (fun i : nat => "col_" +:+ pretty i) (seq n (List.length l)).
Proof. revert n. induction l as [|s l IH]; intros n; simpl; [done|]. by rewrite IH. Qed.

Lemma parseQuickColumnSetup_zip setup :
  let l := filter (fun s => (0 <? String.length s)%nat = true) (quick_statuses setup) in
  parseQuickColumnSetup setup
  = zip_with (fun index status =>
                mkColumnDefinition ("col_" +:+ pretty index) status [status] None)
      (seq 0 (List.length l)) l.
Proof. simpl. unfold parseQuickColumnSetup. apply (imap_definitions _ 0). Qed.

Lemma quick_NoDup setup : NoDup (map def_id (parseQuickColumnSetup setup)).
Proof.
  rewrite parseQuickColumnSetup_zip, quick_ids.
  apply NoDup_fmap_2; [|apply NoDup_seq]. intros i j. apply col_id_inj.
Qed.

Lemma quick_definition setup d :
  d ∈ parseQuickColumnSetup setup ->
  def_id d <> "" /\ def_title d <> ""
  /\ JSText.trim (def_title d) = def_title d
  /\ def_statusValues d = [def_title d]
  /\ def_color d = None.
Proof.
  rewrite parseQuickColumnSetup_zip. intros Hd.
  apply elem_of_zip_with in Hd as (i & s & -> & _ & Hs).
  apply list_elem_of_filter in Hs as [Hlen Hs]. simpl. repeat split; try done.
  - intros ->. done.
  - by eapply quick_statuses_trimmed.
Qed.

End QuickSetup.

(** X15. [parseQuickColumnSetup] numbers the statuses that survive trimming
    and filtering: the ids are col_0, col_1, ... in order, hence pairwise
    distinct and not empty. Every title is non-empty and trimmed (no white
    space at either end), and each definition accepts exactly its own title as
    alias. The empty setup yields no definition. *)
Theorem parseQuickColumnSetup_definitions (setup : string) :
  let defs := parseQuickColumnSetup setup in
  map def_id defs
  = map (fun i : nat => "col_" +:+ pretty i) (seq 0 (List.length defs))
  /\ NoDup (map def_id defs)
  /\ (forall d, d ∈ defs ->
        def_id d <> "" /\ def_title d <> ""
        /\ JSText.trim (def_title d) = def_title d
        /\ def_statusValues d = [def_title d]
        /\ def_color d = None)
  /\ parseQuickColumnSetup "" = [].
Proof.
  simpl. split; [|split; [|split]].
  - rewrite parseQuickColumnSetup_zip, quick_ids.
    by rewrite length_zip_with, length_seq, Nat.min_id.
  - apply quick_NoDup.
  - apply quick_definition.
  - reflexivity.
Qed.

(** X16. For a quick setup written in ASCII text and whatever the case
    mapping [toLowerCase] is: a status that the mapping keeps apart from the
    statuses before it classifies to its own column, a move into that column
    writes exactly that status, and the empty board has that column under its
    id. *)
Theorem quick_setup_classifies_own_status
  (toLowerCase : string -> string)
  (setup : string) (pre post : list ColumnDefinition) (d : ColumnDefinition) :
  JSText.is_ascii setup = true ->
  parseQuickColumnSetup setup = (pre ++ d :: post)%list ->
  (forall d', d' ∈ pre -> ~ ci_equal toLowerCase (def_title d') (def_title d)) ->
  Classifier.getColumnIdByStatus toLowerCase (parseQuickColumnSetup setup)
    (def_title d) = Some (def_id d)
  /\ new_status (column_of_definition d) = def_title d
  /\ columns (getEmptyBoardData (parseQuickColumnSetup setup)) !! def_id d
     = Some (column_of_definition d).
Proof.
  intros _ Heq Hpre.
  pose proof (quick_NoDup setup) as Hnd.
  pose proof (quick_definition setup) as Hd.
  assert (d ∈ parseQuickColumnSetup setup) as Hin.
  { rewrite Heq. apply elem_of_app. right. left. }
  destruct (Hd d Hin) as (_ & Htitle & _ & Hsv & _).
  split; [|split].
  - unfold Classifier.getColumnIdByStatus. rewrite Heq.
    rewrite (loop_first_match toLowerCase pre d post (def_title d)); [done| |].
    + exists (def_title d). split; [rewrite Hsv; left | done].
    + intros d' Hd' (val & Hval & Hci).
      assert (d' ∈ parseQuickColumnSetup setup) as Hin'.
      { rewrite Heq. apply elem_of_app. by left. }
      destruct (Hd d' Hin') as (_ & _ & _ & Hsv' & _).
      rewrite Hsv' in Hval. apply list_elem_of_singleton in Hval as ->.
      by apply (Hpre d' Hd').
  - rewrite new_status_spec. simpl. rewrite Hsv. by case_decide.
  - by apply empty_columns_lookup_NoDup.
Qed.

Lemma quick_setup_classifies_own_status_witness :
  getColumnIdByStatus (parseQuickColumnSetup "New|Active|Done") "Active"
  = Some "col_1".
Proof.
  apply (quick_setup_classifies_own_status JS.toLowerCase "New|Active|Done"
           [mkColumnDefinition "col_0" "New" ["New"] None]
           [mkColumnDefinition "col_2" "Done" ["Done"] None]
           (mkColumnDefinition "col_1" "Active" ["Active"] None)).
  - reflexivity.
  - vm_compute. reflexivity.
  - intros d' Hd'. apply list_elem_of_singleton in Hd' as ->. discriminate.
Defined.

(** ** Header counts and cards *)

Lemma omap_length_le {A B} (f : A -> option B) (l : list A) :
  (List.length (omap f l) <= List.length l)%nat.
Proof.
  induction l as [|x l IH]; [done|]. cbn [omap list_omap].
  destruct (f x); cbn [List.length]; lia.
Qed.

Lemma omap_length_all {A B} (f : A -> option B) (l : list A) :
  (forall x, x ∈ l -> is_Some (f x)) -> List.length (omap f l) = List.length l.
Proof.
  induction l as [|x l IH]; intros Hall; [done|]. cbn [omap list_omap].
  destruct (Hall x) as [y ->]; [left|]. cbn [List.length]. f_equal. apply IH.
  intros z Hz. apply Hall. by right.
Qed.

(** X17. [renderBoard] shows at most one column per entry of the column order,
    exactly one per entry when every entry names a column. In each rendered
    column the cards are never more than the count shown in the header, and
    they are as many when no id of the board dangles. *)
Theorem renderBoard_counts (b : BoardData) :
  (List.length (renderBoard b) <= List.length (columnOrder b))%nat
  /\ ((forall cid, cid ∈ columnOrder b -> is_Some (columns b !! cid)) ->
      List.length (renderBoard b) = List.length (columnOrder b))
  /\ (forall cv, cv ∈ renderBoard b ->
        (List.length (view_cards cv) <= view_count cv)%nat)
  /\ (no_dangling b ->
      forall cv, cv ∈ renderBoard b -> List.length (view_cards cv) = view_count cv).
Proof.
  split; [|split; [|split]].
  - apply omap_length_le.
  - intros Hall. apply omap_length_all. intros cid Hcid.
    destruct (Hall cid Hcid) as [c ->]. by eexists.
  - intros cv Hcv. apply renderBoard_column in Hcv as (k & column & _ & _ & ->).
    apply omap_length_le.
  - intros Hnd cv Hcv.
    apply renderBoard_column in Hcv as (k & column & _ & Hcol & ->).
    apply omap_length_all. intros tid Hin.
    destruct (Hnd k tid) as [t Ht]; [by exists column|]. rewrite Ht. by eexists.
Qed.

Lemma renderBoard_counts_witness :
  List.length (view_cards (mkColumnView "todo" "To Do" 2 ["task-1"; "task-5"]))
  = view_count (mkColumnView "todo" "To Do" 2 ["task-1"; "task-5"]).
Proof.
  apply (proj2 (proj2 (proj2 (renderBoard_counts (_boardData sample_state))))).
  - apply sample_board_consistent.
  - rewrite sample_board_rendered. left.
Defined.

(** ** Author names, initials and avatar colours: properties *)

Section AuthorProps.

Import Author.

Lemma toUpperCase_length s : String.length (toUpperCase s) = String.length s.
Proof. induction s as [|c r IH]; simpl; [done | by rewrite IH]. Qed.

Lemma substring_length_le n m s : (String.length (String.substring n m s) <= m)%nat.
Proof.
  revert n m. induction s as [|c r IH]; intros n m; simpl.
  - destruct n, m; simpl; lia.
  - destruct n; [destruct m; simpl; [lia|]|apply IH].
    specialize (IH 0%nat m). lia.
Qed.

Lemma append_length a b :
  String.length (a +:+ b) = (String.length a + String.length b)%nat.
Proof. induction a as [|c r IH]; simpl; [done | by rewrite IH]. Qed.

Lemma truthy_length s : JS.truthy s = true -> (0 < String.length s)%nat.
Proof. destruct s; simpl; [done | lia]. Qed.

Lemma truthy_nonempty s : JS.truthy s = true -> s <> "".
Proof. by destruct s. Qed.

Lemma truthy_false s : JS.truthy s = false -> s = "".
Proof. by destruct s. Qed.

Lemma substring0_nonempty m s :
  (0 < m)%nat -> (0 < String.length s)%nat ->
  (0 < String.length (String.substring 0 m s))%nat.
Proof. destruct s, m; simpl; lia. Qed.

Lemma first_piece_empty sep s :
  first_piece sep s = "" <-> s = "" \/ JSText.startsWith sep s = true.
Proof.
  unfold first_piece. destruct s as [|a r]; simpl.
  - split; [by left | done].
  - destruct (Ascii.eqb a sep) eqn:Ha; simpl.
    + split; [by right | done].
    + destruct (JSText.split sep r); simpl; split; try done; by intros [?|?].
Qed.

End AuthorProps.

(** X18. [generateInitials] returns the two question marks when the task has
    no author first name, no last name, no author e-mail and no assignee. When
    a first or a last name is given the initials are not empty. On ASCII
    text, where upper-casing keeps the length, the initials have at most two
    characters. *)
Theorem generateInitials_shape (task : Task) :
  (String.length (Author.generateInitials task) <= 2)%nat
  /\ (Author.firstName task <> "" \/ Author.lastName task <> "" ->
      Author.generateInitials task <> "")
  /\ (Author.firstName task = "" -> Author.lastName task = "" ->
      Author.email task = "" -> Author.generateInitials task = "??").
Proof.
  unfold Author.generateInitials. split; [|split].
  - destruct (JS.truthy (Author.firstName task)),
             (JS.truthy (Author.lastName task)); simpl;
      rewrite ?toUpperCase_length, ?append_length;
      try apply substring_length_le.
    + unfold Author.charAt0.
      pose proof (substring_length_le 0 1 (Author.firstName task)).
      pose proof (substring_length_le 0 1 (Author.lastName task)). lia.
    + destruct (JS.truthy (Author.email task)); [|simpl; lia].
      destruct (JSText.includes "." _).
      * rewrite toUpperCase_length, append_length. unfold Author.charAt0.
        pose proof (substring_length_le 0 1
                      (hd "" (JSText.split "." (Author.first_piece "@" (Author.email task))))).
        destruct (JSText.split "." _ !! 1%nat) as [part|]; simpl; [|lia].
        unfold JS.or_else. destruct (JS.truthy (String.substring 0 1 part)).
        -- pose proof (substring_length_le 0 1 part). lia.
        -- simpl. lia.
      * rewrite toUpperCase_length. apply substring_length_le.
  - intros Hname.
    assert (forall s, (0 < String.length s)%nat -> s <> "") as Hpos
      by (intros s H ->; simpl in H; lia).
    destruct (JS.truthy (Author.firstName task)) eqn:Hf,
             (JS.truthy (Author.lastName task)) eqn:Hl; simpl.
    + apply Hpos. rewrite toUpperCase_length, append_length.
      pose proof (substring0_nonempty 1 (Author.firstName task) ltac:(lia)
                    (truthy_length _ Hf)). unfold Author.charAt0. lia.
    + apply Hpos. rewrite toUpperCase_length.
      apply substring0_nonempty; [lia | by apply truthy_length].
    + apply Hpos. rewrite toUpperCase_length.
      apply substring0_nonempty; [lia | by apply truthy_length].
    + apply truthy_false in Hf, Hl. by destruct Hname.
  - intros -> -> ->. reflexivity.
Qed.

Lemma generateInitials_shape_witness :
  Author.generateInitials
    (mkTask "t" "T" "Todo" None None None None None None None None None None)
  = "??".
Proof.
  apply (proj2 (proj2 (generateInitials_shape
    (mkTask "t" "T" "Todo" None None None None None None None None None None)))).
  - reflexivity.
  - reflexivity.
  - reflexivity.
Defined.

(** X19. [generateAvatarColor] always returns one of the sixteen palette
    colours, never [undefined]; empty initials get the first colour. *)
Theorem generateAvatarColor_in_palette (initials : string) :
  (exists c, Author.generateAvatarColor initials = Some c /\ c ∈ Author.colors)
  /\ Author.generateAvatarColor "" = Some "#f87171".
Proof.
  split; [|reflexivity]. unfold Author.generateAvatarColor.
  destruct (Author.colors !! _) as [c|] eqn:Hc.
  - exists c. split; [done|]. by eapply list_elem_of_lookup_2.
  - apply lookup_ge_None in Hc. exfalso.
    pose proof (Z.mod_pos_bound (Z.abs (Author.avatar_hash initials 0))
                  (Z.of_nat (List.length Author.colors)) ltac:(simpl; lia)) as Hb.
    simpl in Hb, Hc. lia.
Qed.

(** X20. With the display format Full Name, which [updateAuthorConfiguration]
    always sets, [formatAuthorName] is empty exactly when the task has no
    first name, no last name, and an e-mail (author e-mail, else assignee)
    that is empty or begins with the at sign; the baseline revision shows no
    author badge in that case. With a display format the switch does not
    know, a first name without a last name is not used: the name is the part
    of the e-mail before the at sign, or empty. *)
Theorem formatAuthorName_empty (cfg : Author.AuthorConfig) (task : Task) :
  (Author.displayFormat cfg = "Full Name" ->
   (Author.formatAuthorName cfg task = ""
    <-> Author.firstName task = "" /\ Author.lastName task = ""
        /\ (Author.email task = ""
            \/ JSText.startsWith "@" (Author.email task) = true)))
  /\ (Author.displayFormat cfg ∉ ["Full Name"; "First Name Only"; "Last Name Only";
                                   "Initials"; "Email"; "Custom"] ->
      Author.lastName task = "" ->
      Author.formatAuthorName cfg task = Author.first_piece "@" (Author.email task)).
Proof.
  unfold Author.formatAuthorName. split.
  - intros ->. cbv zeta. rewrite String.eqb_refl.
    assert (forall a b, a <> "" -> a +:+ b <> "") as Happ
      by (intros [|c a] b H; [done | discriminate]).
    destruct (JS.truthy (Author.firstName task)) eqn:Hf,
             (JS.truthy (Author.lastName task)) eqn:Hl; cbn [andb].
    + apply truthy_nonempty in Hf. split; [|by intros (? & _)].
      intros H. exfalso. revert H. by apply Happ.
    + apply truthy_nonempty in Hf. split; [done | by intros (? & _)].
    + apply truthy_nonempty in Hl. split; [done | by intros (_ & ? & _)].
    + apply truthy_false in Hf, Hl. rewrite Hf, Hl.
      destruct (JS.truthy (Author.email task)) eqn:He.
      * rewrite first_piece_empty. tauto.
      * apply truthy_false in He. rewrite He. split; [|done]. intros _.
        split; [done|]. split; [done|]. by left.
  - intros Hfmt Hlast.
    repeat (apply not_elem_of_cons in Hfmt as [Hne Hfmt];
            apply String.eqb_neq in Hne; rewrite Hne; clear Hne).
    cbv zeta. rewrite Hlast. cbn [JS.truthy]. rewrite andb_false_r.
    destruct (JS.truthy (Author.email task)) eqn:He; [done|].
    apply truthy_false in He. by rewrite He.
Qed.

Lemma formatAuthorName_empty_witness :
  Author.formatAuthorName (Author.mkAuthorConfig "Full Name" "")
    (mkTask "t" "T" "Todo" None (Some "@support") None None None None None
       None None None) = "".
Proof.
  apply (proj1 (formatAuthorName_empty (Author.mkAuthorConfig "Full Name" "")
                  (mkTask "t" "T" "Todo" None (Some "@support") None None None None None
                     None None None))).
  - reflexivity.
  - split; [reflexivity|]. split; [reflexivity|]. right. reflexivity.
Defined.
